(** * jate: a shallow embedding of the editor core of [jate.c]

    The development follows the layout of the C file: defines, data,
    row operations, editor operations, file i/o, output, input.

    Representation choices, fixed once and used throughout:
    - a C [int] is a [Z]; signed overflow is undefined in C and is not
      modelled, counters and indices are taken to stay in range; the one
      exception is the arithmetic on the uninitialised [tabs] of
      [editorUpdateRow], a value the program does not control, which is
      done modulo 2^32 as the machine does it;
    - a [char] is an [ascii] (one byte); a buffer given in C as a
      pointer together with a length ([chars]/[size], [render]/[rsize],
      [row]/[numrows], [(s, len)] arguments) is a [list] whose length is
      that length;
    - [erow *] arguments always point into [E.row]; they are modelled by
      the index of the row;
    - dereferencing an element outside an array or outside an
      allocation is undefined behaviour: operations that can do so
      return [option], and [None] stands for that fault;
    - a local variable that is read before it is assigned holds an
      indeterminate value: that value is a parameter of the function
      that reads it, and each call has a value of its own ([tabs0] in
      [editorUpdateRow]; the callers hand the values on);
    - [malloc] and [realloc] give the bytes they are asked for whenever
      the request is positive. *)

From Stdlib Require Import ZArith Ascii String DecimalString Bool List Lia.
From Equations Require Import Equations.
Import ListNotations.
Open Scope Z_scope.

Set Implicit Arguments.

(** ** defines *)

Definition JATE_TABSTOP : Z := 8.
Definition JATE_QUIT_TIMES : Z := 3.

Definition CTRL_KEY (k : Z) : Z := Z.land k 31.

(** [enum editorKey] *)
Definition BACKSPACE : Z := 127.
Definition ARROW_LEFT : Z := 1000.
Definition ARROW_RIGHT : Z := 1001.
Definition ARROW_UP : Z := 1002.
Definition ARROW_DOWN : Z := 1003.
Definition DEL_KEY : Z := 1004.
Definition HOME_KEY : Z := 1005.
Definition END_KEY : Z := 1006.
Definition PAGE_UP : Z := 1007.
Definition PAGE_DOWN : Z := 1008.

(** Character constants of the source. *)
Definition ch_tab : ascii := "009"%char.
Definition ch_lf : ascii := "010"%char.
Definition ch_cr : ascii := "013"%char.
Definition ch_esc : ascii := "027"%char.
Definition ch_space : ascii := " "%char.

Definition key_CR : Z := 13.
Definition key_ESC : Z := 27.
Definition key_h : Z := 104.
Definition key_l : Z := 108.
Definition key_q : Z := 113.
Definition key_s : Z := 115.

(** Conversion of an [int] key to the [char] stored by [row->chars[at] = c]. *)
Definition char_of_key (c : Z) : ascii := ascii_of_N (Z.to_N (c mod 256)).

(** String literals of the source as byte lists. *)
Definition lit (s : string) : list ascii := list_ascii_of_string s.

(** [%d] of the printf family. *)
Definition fmt_d (n : Z) : list ascii :=
  lit (NilZero.string_of_int (Z.to_int n)).

(** ** data *)

Record erow : Type := mk_erow {
  chars : list ascii;
  render : list ascii
}.

Definition size (r : erow) : Z := Z.of_nat (length (chars r)).
Definition rsize (r : erow) : Z := Z.of_nat (length (render r)).

(** [struct editorConfig].  [statusmsg_time] and [orig_termios] belong to
    the clock and to the terminal and are not part of the model. *)
Record editorConfig : Type := mk_config {
  cx : Z;
  cy : Z;
  rx : Z;
  rowoff : Z;
  coloff : Z;
  screenrows : Z;
  screencols : Z;
  row : list erow;
  dirty : Z;
  filename : option (list ascii);
  statusmsg : list ascii
}.

Definition numrows (E : editorConfig) : Z := Z.of_nat (length (row E)).

(** Field updates. *)
Definition set_cx (v : Z) (E : editorConfig) : editorConfig :=
  mk_config v (cy E) (rx E) (rowoff E) (coloff E) (screenrows E)
            (screencols E) (row E) (dirty E) (filename E) (statusmsg E).
Definition set_cy (v : Z) (E : editorConfig) : editorConfig :=
  mk_config (cx E) v (rx E) (rowoff E) (coloff E) (screenrows E)
            (screencols E) (row E) (dirty E) (filename E) (statusmsg E).
Definition set_rx (v : Z) (E : editorConfig) : editorConfig :=
  mk_config (cx E) (cy E) v (rowoff E) (coloff E) (screenrows E)
            (screencols E) (row E) (dirty E) (filename E) (statusmsg E).
Definition set_rowoff (v : Z) (E : editorConfig) : editorConfig :=
  mk_config (cx E) (cy E) (rx E) v (coloff E) (screenrows E)
            (screencols E) (row E) (dirty E) (filename E) (statusmsg E).
Definition set_coloff (v : Z) (E : editorConfig) : editorConfig :=
  mk_config (cx E) (cy E) (rx E) (rowoff E) v (screenrows E)
            (screencols E) (row E) (dirty E) (filename E) (statusmsg E).
Definition set_row (v : list erow) (E : editorConfig) : editorConfig :=
  mk_config (cx E) (cy E) (rx E) (rowoff E) (coloff E) (screenrows E)
            (screencols E) v (dirty E) (filename E) (statusmsg E).
Definition set_dirty (v : Z) (E : editorConfig) : editorConfig :=
  mk_config (cx E) (cy E) (rx E) (rowoff E) (coloff E) (screenrows E)
            (screencols E) (row E) v (filename E) (statusmsg E).
Definition set_filename (v : option (list ascii)) (E : editorConfig)
  : editorConfig :=
  mk_config (cx E) (cy E) (rx E) (rowoff E) (coloff E) (screenrows E)
            (screencols E) (row E) (dirty E) v (statusmsg E).
Definition set_statusmsg (v : list ascii) (E : editorConfig) : editorConfig :=
  mk_config (cx E) (cy E) (rx E) (rowoff E) (coloff E) (screenrows E)
            (screencols E) (row E) (dirty E) (filename E) v.

(** Array accesses.  [E.row[i]] is defined for [0 <= i < numrows]. *)
Definition nth_Z (A : Type) (l : list A) (i : Z) : option A :=
  if i <? 0 then None else nth_error l (Z.to_nat i).

Definition row_at (E : editorConfig) (i : Z) : option erow :=
  nth_Z (row E) i.

(** [E.row[i] = r] for an existing row. *)
Definition store_row (i : Z) (r : erow) (E : editorConfig) : editorConfig :=
  set_row (firstn (Z.to_nat i) (row E) ++ r :: skipn (S (Z.to_nat i)) (row E)) E.

(** [row->chars[j]]: the buffer holds [size] characters and the
    terminating NUL at index [size]. *)
Definition char_at (r : erow) (j : Z) : option ascii :=
  if j =? size r then Some zero else nth_Z (chars r) j.

Notation "x <- a ;; b" :=
  (match a with Some x => b | None => None end)
  (right associativity, at level 60, a at next level).

(** ** row operations *)

Fixpoint editorRowCxToRx_loop (r : erow) (n : nat) (j rx0 : Z) : option Z :=
  match n with
  | O => Some rx0
  | S n' =>
      c <- char_at r j ;;
      let rx1 := if Ascii.eqb c ch_tab
                 then rx0 + ((JATE_TABSTOP - 1) - Z.rem rx0 JATE_TABSTOP)
                 else rx0 in
      editorRowCxToRx_loop r n' (j + 1) (rx1 + 1)
  end.

(** [for (j = 0; j < cx; ++j)] runs [max cx 0] times. *)
Definition editorRowCxToRx (r : erow) (cx0 : Z) : option Z :=
  editorRowCxToRx_loop r (Z.to_nat cx0) 0 0.

(** [while (idx % JATE_TABSTOP != 0) row->render[idx++] = ' ';] *)
Equations? tab_fill (buf : list ascii) (idx : Z) : list ascii * Z
  by wf (Z.to_nat ((- idx) mod 8)) lt :=
  tab_fill buf idx with Z.eq_dec (Z.rem idx JATE_TABSTOP) 0 => {
    | left _ => (buf, idx)
    | right _ => tab_fill (buf ++ [ch_space]) (idx + 1) }.
Proof.
  unfold JATE_TABSTOP in *.
  assert (idx mod 8 <> 0).
  { intro H. apply n. apply Z.rem_divide; [lia|].
    apply Z.mod_divide; [lia|exact H]. }
  apply Z2Nat.inj_lt; try (apply Z.mod_pos_bound; lia).
  pose proof (Z.mod_pos_bound (- idx) 8).
  pose proof (Z.mod_pos_bound (- (idx + 1)) 8).
  pose proof (Z.div_mod (- idx) 8).
  pose proof (Z.div_mod (- (idx + 1)) 8).
  pose proof (Z.div_mod idx 8).
  pose proof (Z.mod_pos_bound idx 8).
  lia.
Qed.

(** The second loop of [editorUpdateRow]; [buf] is [row->render] filled
    up to [idx]. *)
Fixpoint render_loop (cs : list ascii) (buf : list ascii) (idx : Z)
  : list ascii * Z :=
  match cs with
  | [] => (buf, idx)
  | c :: cs' =>
      if Ascii.eqb c ch_tab
      then let '(b, i) := tab_fill (buf ++ [ch_space]) (idx + 1) in
           render_loop cs' b i
      else render_loop cs' (buf ++ [c]) (idx + 1)
  end.

(** The first loop of [editorUpdateRow]: [tabs++] at every tab of the
    row, [tabs] being the running value. *)
Fixpoint count_tabs (cs : list ascii) (tabs : Z) : Z :=
  match cs with
  | [] => tabs
  | c :: cs' => count_tabs cs' (if Ascii.eqb c ch_tab then tabs + 1 else tabs)
  end.

(** The value of a 32-bit [int] after arithmetic that wraps around. *)
Definition int_wrap (z : Z) : Z := (z + 2147483648) mod 4294967296 - 2147483648.

(** [editorUpdateRow].  [int tabs;] has no initial value: the first loop
    starts from [tabs0], whatever the variable holds when the function
    is entered.  [render] is then allocated with
    [row->size + tabs * (JATE_TABSTOP - 1) + 1] bytes, an [int] computed
    from [tabs]; a request that is negative as an [int] is one [malloc]
    cannot serve, and it returns NULL.  The second loop and the
    terminating NUL store at the indexes [0 .. idx] of [render], one
    after the other; they stay inside the allocation exactly when [idx]
    is below its size, and [rsize] is [idx]. *)
Definition editorUpdateRow (tabs0 : Z) (r : erow) : option erow :=
  let tabs := count_tabs (chars r) tabs0 in
  let alloc := int_wrap (size r + tabs * (JATE_TABSTOP - 1) + 1) in
  let '(buf, idx) := render_loop (chars r) [] 0 in
  if idx <? alloc then Some (mk_erow (chars r) buf) else None.

(** [editorInsertRow(at, s, len)]; [s] is the list of the [len]
    characters copied. *)
Definition editorInsertRow (tabs0 : Z) (at_ : Z) (s : list ascii)
  (E : editorConfig) : option editorConfig :=
  if (at_ <? 0) || (at_ >? numrows E) then Some E
  else
    r <- editorUpdateRow tabs0 (mk_erow s []) ;;
    Some (set_dirty (dirty E + 1)
            (set_row (firstn (Z.to_nat at_) (row E) ++ r :: skipn (Z.to_nat at_) (row E)) E)).

(** [editorFreeRow(&E.row[at])] reads the two pointers of the row. *)
Definition editorFreeRow (E : editorConfig) (i : Z) : option unit :=
  _ <- row_at E i ;; Some tt.

Definition editorDelRow (at_ : Z) (E : editorConfig) : option editorConfig :=
  if (at_ <? 0) || (at_ >? numrows E) then Some E
  else
    _ <- editorFreeRow E at_ ;;
    Some (set_dirty (dirty E + 1)
            (set_row (firstn (Z.to_nat at_) (row E) ++ skipn (S (Z.to_nat at_)) (row E)) E)).

(** [editorRowInsertChar(&E.row[i], at, c)] *)
Definition editorRowInsertChar (tabs0 : Z) (i at_ c : Z) (E : editorConfig)
  : option editorConfig :=
  r <- row_at E i ;;
  let a := if (at_ <? 0) || (at_ >? size r) then size r else at_ in
  r' <- editorUpdateRow tabs0
          (mk_erow (firstn (Z.to_nat a) (chars r) ++
                    char_of_key c :: skipn (Z.to_nat a) (chars r))
                   (render r)) ;;
  Some (set_dirty (dirty E + 1) (store_row i r' E)).

(** [editorRowAppendString(&E.row[i], s, len)] *)
Definition editorRowAppendString (tabs0 : Z) (i : Z) (s : list ascii)
  (E : editorConfig) : option editorConfig :=
  r <- row_at E i ;;
  r' <- editorUpdateRow tabs0 (mk_erow (chars r ++ s) (render r)) ;;
  Some (set_dirty (dirty E + 1) (store_row i r' E)).

(** [editorRowDelChar(&E.row[i], at)] *)
Definition editorRowDelChar (tabs0 : Z) (i at_ : Z) (E : editorConfig)
  : option editorConfig :=
  r <- row_at E i ;;
  if (at_ <? 0) || (at_ >=? size r) then Some E
  else
    r' <- editorUpdateRow tabs0
            (mk_erow (firstn (Z.to_nat at_) (chars r) ++
                      skipn (S (Z.to_nat at_)) (chars r))
                     (render r)) ;;
    Some (set_dirty (dirty E + 1) (store_row i r' E)).

(** ** editor operations *)

(** The operations below call [editorUpdateRow] at most twice; [t1] and
    [t2] are the values its [tabs] holds on entry at the first and at
    the second call site. *)
Definition editorInsertChar (t1 t2 : Z) (c : Z) (E : editorConfig)
  : option editorConfig :=
  E1 <- (if cy E =? numrows E then editorInsertRow t1 (numrows E) [] E
         else Some E) ;;
  E2 <- editorRowInsertChar t2 (cy E1) (cx E1) c E1 ;;
  Some (set_cx (cx E2 + 1) E2).

(** [&row->chars[from]] with the length [row->size - from]: the tail of
    the characters of the row; inside the buffer for [0 <= from <= size]. *)
Definition chars_from (r : erow) (from : Z) : option (list ascii) :=
  if (from <? 0) || (from >? size r) then None
  else Some (skipn (Z.to_nat from) (chars r)).

Definition editorInsertNewline (t1 t2 : Z) (E : editorConfig)
  : option editorConfig :=
  E1 <- (if cx E =? 0 then editorInsertRow t1 (cy E) [] E
         else
           r <- row_at E (cy E) ;;
           tl <- chars_from r (cx E) ;;
           E' <- editorInsertRow t1 (cy E + 1) tl E ;;
           r' <- row_at E' (cy E') ;;
           (* row->size = E.cx; row->chars[row->size] = 0 *)
           let cut := mk_erow (firstn (Z.to_nat (cx E')) (chars r')) (render r') in
           r'' <- editorUpdateRow t2 cut ;;
           Some (store_row (cy E') r'' E')) ;;
  Some (set_cx 0 (set_cy (cy E1 + 1) E1)).

Definition editorDelChar (tabs0 : Z) (E : editorConfig) : option editorConfig :=
  if cy E =? numrows E then Some E
  else if (cx E =? 0) && (cy E =? 0) then Some E
  else if cx E >? 0 then
    E1 <- editorRowDelChar tabs0 (cy E) (cx E - 1) E ;;
    Some (set_cx (cx E1 - 1) E1)
  else
    prev <- row_at E (cy E - 1) ;;
    let E1 := set_cx (size prev) E in
    r <- row_at E1 (cy E1) ;;
    E2 <- editorRowAppendString tabs0 (cy E1 - 1) (chars r) E1 ;;
    E3 <- editorDelRow (cy E2) E2 ;;
    Some (set_cy (cy E3 - 1) E3).

(** ** file i/o *)

(** [editorRowsToString]: the buffer and [*buflen]. *)
Fixpoint rows_to_string (rows : list erow) : list ascii * Z :=
  match rows with
  | [] => ([], 0)
  | r :: rows' =>
      let '(buf, totlen) := rows_to_string rows' in
      (chars r ++ ch_lf :: buf, size r + 1 + totlen)
  end.

Definition editorRowsToString (E : editorConfig) : list ascii * Z :=
  rows_to_string (row E).

(** Results of running a piece of the program that may stop it. *)
Inductive outcome (A : Type) : Type :=
| Ret (a : A)          (* normal return *)
| Exit (status : Z)    (* [exit(status)] *)
| Fault                (* access outside an array *)
| Blocked.             (* [editorReadKey] waits: no key is pending *)

Arguments Ret {A} a.
Arguments Exit {A} status.
Arguments Fault {A}.
Arguments Blocked {A}.

(** The successive results of [getline] on a stream: each line with its
    terminating newline, the last one possibly without. *)
Fixpoint file_lines_from (cur : list ascii) (s : list ascii)
  : list (list ascii) :=
  match s with
  | [] => match cur with [] => [] | _ => [cur] end
  | c :: s' =>
      if Ascii.eqb c ch_lf then (cur ++ [c]) :: file_lines_from [] s'
      else file_lines_from (cur ++ [c]) s'
  end.

Definition file_lines (s : list ascii) : list (list ascii) :=
  file_lines_from [] s.

(** [while (linelen > 0 && (line[linelen-1] == '\n' || line[linelen-1] == '\r')) linelen--;]
    on the reversed line. *)
Fixpoint strip_eol_rev (l : list ascii) : list ascii :=
  match l with
  | [] => []
  | c :: l' =>
      if Ascii.eqb c ch_lf || Ascii.eqb c ch_cr then strip_eol_rev l' else l
  end.

Definition strip_eol (line : list ascii) : list ascii :=
  rev (strip_eol_rev (rev line)).

(** The [while ((linelen = getline(...)) != -1)] loop of [editorOpen] on
    the lines still to be read; [g k] is what [tabs] holds in
    [editorUpdateRow] when the [k]-th of them is inserted. *)
Fixpoint editorOpen_loop (g : nat -> Z) (lines : list (list ascii))
  (E : editorConfig) : option editorConfig :=
  match lines with
  | [] => Some E
  | line :: rest =>
      E1 <- editorInsertRow (g 0%nat) (numrows E) (strip_eol line) E ;;
      editorOpen_loop (fun k => g (S k)) rest E1
  end.

(** [editorOpen(filename)]; [file] is what [fopen] finds: [None] when the
    file cannot be opened. *)
Definition editorOpen (g : nat -> Z) (fname : list ascii)
  (file : option (list ascii)) (E : editorConfig) : outcome editorConfig :=
  let E0 := set_filename (Some fname) E in
  match file with
  | None => Exit 1
  | Some content =>
      match editorOpen_loop g (file_lines content) E0 with
      | Some E1 => Ret (set_dirty 0 E1)
      | None => Fault
      end
  end.

(** [initEditor] for a window of [rows] by [cols]. *)
Definition initEditor (rows cols : Z) : editorConfig :=
  mk_config 0 0 0 0 0 (rows - 2) cols [] 0 None [].

(** [editorSave]'s dealings with the file system: which of [open],
    [ftruncate] and [write] fails, with the text of [strerror(errno)], or
    that all three succeed. *)
Inductive save_io : Type :=
| OpenFails (err : list ascii)
| TruncateFails (err : list ascii)
| WriteFails (err : list ascii)
| WriteOk.

(** ** append buffer *)

(** [abAppend(ab, s, len)] *)
Definition abAppend (ab : list ascii) (s : list ascii) (len : Z) : list ascii :=
  ab ++ firstn (Z.to_nat len) s.

(** ** output *)

Definition editorScroll (E : editorConfig) : option editorConfig :=
  let E0 := set_rx 0 E in
  E1 <- (if cy E0 <? numrows E0 then
           r <- row_at E0 (cy E0) ;;
           v <- editorRowCxToRx r (cx E0) ;;
           Some (set_rx v E0)
         else Some E0) ;;
  let E2 := if cy E1 <? rowoff E1 then set_rowoff (cy E1) E1 else E1 in
  let E3 := if cy E2 >=? rowoff E2 + screenrows E2
            then set_rowoff (cy E2 - screenrows E2 + 1) E2 else E2 in
  let E4 := if rx E3 <? coloff E3 then set_coloff (rx E3) E3 else E3 in
  let E5 := if rx E4 >=? coloff E4 + screencols E4
            then set_coloff (rx E4 - screencols E4 + 1) E4 else E4 in
  Some E5.

(** The [while (len < E.screencols)] loop of [editorDrawStatusBar]; it
    runs at most [screencols - len] times, which is [n]. *)
Fixpoint status_fill (n : nat) (ab : list ascii) (len : Z)
  (rstatus : list ascii) (rlen cols : Z) : list ascii :=
  match n with
  | O => ab
  | S n' =>
      if len <? cols then
        if cols - len =? rlen then abAppend ab rstatus rlen
        else status_fill n' (abAppend ab [ch_space] 1) (len + 1) rstatus rlen cols
      else ab
  end.

(** [snprintf(status, sizeof(status), "%.20s - %d lines", name, E.numrows,
    E.dirty ? "(modified)" : "")]: the format has two conversions, so the
    third argument is not printed.  The text is at most 40 characters
    long and fits the buffer. *)
Definition status_text (E : editorConfig) : list ascii :=
  let name := match filename E with Some f => f | None => lit "[No Name]" end in
  firstn 20 name ++ lit " - " ++ fmt_d (numrows E) ++ lit " lines".

Definition rstatus_text (E : editorConfig) : list ascii :=
  fmt_d (cy E + 1) ++ lit "/" ++ fmt_d (numrows E).

Definition editorDrawStatusBar (E : editorConfig) (ab : list ascii)
  : list ascii :=
  let ab1 := abAppend ab (ch_esc :: lit "[7m") 4 in
  let status := status_text E in
  let rstatus := rstatus_text E in
  let len := Z.of_nat (length status) in
  let rlen := Z.of_nat (length rstatus) in
  let len := if len >? screencols E then screencols E else len in
  let ab2 := abAppend ab1 status len in
  let ab3 := status_fill (Z.to_nat (screencols E - len)) ab2 len rstatus rlen
               (screencols E) in
  let ab4 := abAppend ab3 (ch_esc :: lit "[m") 3 in
  abAppend ab4 [ch_cr; ch_lf] 2.

(** [editorSetStatusMessage]: [msg] is the formatted text, cut to the 79
    characters that fit [E.statusmsg]. *)
Definition editorSetStatusMessage (msg : list ascii) (E : editorConfig)
  : editorConfig :=
  set_statusmsg (firstn 79 msg) E.

(** [editorRefreshScreen]: the frame goes to the terminal; what remains in
    [E] is the effect of [editorScroll]. *)
Definition editorRefreshScreen (E : editorConfig) : option editorConfig :=
  editorScroll E.

(** ** input *)

(** [iscntrl] in the C locale. *)
Definition iscntrl (c : Z) : bool :=
  ((0 <=? c) && (c <? 32)) || (c =? 127).

Inductive prompt_step : Type :=
| PromptContinue (buf : list ascii)
| PromptCancel
| PromptCommit (buf : list ascii).

(** The body of the loop of [editorPrompt] after the key has been read. *)
Definition editorPrompt_key (c : Z) (buf : list ascii) : prompt_step :=
  if (c =? DEL_KEY) || (c =? CTRL_KEY key_h) || (c =? BACKSPACE) then
    PromptContinue (match buf with [] => buf | _ => removelast buf end)
  else if negb (c =? key_ESC) then PromptCancel
  else if c =? key_CR then
    match buf with [] => PromptContinue buf | _ => PromptCommit buf end
  else if negb (iscntrl c) && (c <? 128) then
    PromptContinue (buf ++ [char_of_key c])
  else PromptContinue buf.

(** [editorPrompt(prompt)]; [prompt] maps the buffer to the formatted
    message, [keys] are the keys [editorReadKey] will deliver. *)
Fixpoint editorPrompt_loop (prompt : list ascii -> list ascii)
  (buf : list ascii) (E : editorConfig) (keys : list Z)
  : outcome (option (list ascii) * editorConfig * list Z) :=
  match editorRefreshScreen (editorSetStatusMessage (prompt buf) E) with
  | None => Fault
  | Some E1 =>
      match keys with
      | [] => Blocked
      | c :: keys' =>
          match editorPrompt_key c buf with
          | PromptContinue buf' => editorPrompt_loop prompt buf' E1 keys'
          | PromptCancel => Ret (None, editorSetStatusMessage [] E1, keys')
          | PromptCommit b => Ret (Some b, editorSetStatusMessage [] E1, keys')
          end
      end
  end.

Definition editorPrompt (prompt : list ascii -> list ascii)
  (E : editorConfig) (keys : list Z)
  : outcome (option (list ascii) * editorConfig * list Z) :=
  editorPrompt_loop prompt [] E keys.

(** The part of [editorSave] after the file name is known. *)
Definition editorSave_write (io : save_io) (E : editorConfig) : editorConfig :=
  let '(_, len) := editorRowsToString E in
  match io with
  | WriteOk =>
      editorSetStatusMessage (fmt_d len ++ lit " bytes written to disk")
        (set_dirty 0 E)
  | OpenFails err | TruncateFails err | WriteFails err =>
      editorSetStatusMessage (lit "Can't save! I/O error: " ++ err) E
  end.

Definition editorSave (io : save_io) (E : editorConfig) (keys : list Z)
  : outcome (editorConfig * list Z) :=
  match filename E with
  | Some _ => Ret (editorSave_write io E, keys)
  | None =>
      match editorPrompt (fun buf => lit "Save as: " ++ buf) E keys with
      | Ret (None, E1, keys') =>
          Ret (editorSetStatusMessage (lit "Save aborted") (set_filename None E1),
               keys')
      | Ret (Some f, E1, keys') =>
          Ret (editorSave_write io (set_filename (Some f) E1), keys')
      | Exit s => Exit s
      | Fault => Fault
      | Blocked => Blocked
      end
  end.

(** [row ? row->size : 0] for [row = (E.cy >= E.numrows) ? NULL : &E.row[E.cy]] *)
Definition cursor_rowlen (E : editorConfig) : option Z :=
  if cy E >=? numrows E then Some 0
  else r <- row_at E (cy E) ;; Some (size r).

(** The [switch (key)] of [editorMoveCursor]. *)
Definition editorMoveCursor_switch (key : Z) (E : editorConfig)
  : option editorConfig :=
  if key =? ARROW_LEFT then
    if cx E >? 0 then Some (set_cx (cx E - 1) E)
    else if cy E >? 0 then
      let E' := set_cy (cy E - 1) E in
      r <- row_at E' (cy E') ;; Some (set_cx (size r) E')
    else Some E
  else if key =? ARROW_RIGHT then
    if cy E >=? numrows E then Some E
    else
      r <- row_at E (cy E) ;;
      if cx E <? size r then Some (set_cx (cx E + 1) E)
      else if cx E =? size r then Some (set_cx 0 (set_cy (cy E + 1) E))
      else Some E
  else if key =? ARROW_UP then
    Some (if cy E >? 0 then set_cy (cy E - 1) E else E)
  else if key =? ARROW_DOWN then
    Some (if cy E <? numrows E then set_cy (cy E + 1) E else E)
  else Some E.

(** [editorMoveCursor]: the switch, then the snap of [cx] to the end of
    the line the cursor is on. *)
Definition editorMoveCursor (key : Z) (E : editorConfig) : option editorConfig :=
  E1 <- editorMoveCursor_switch key E ;;
  rowlen <- cursor_rowlen E1 ;;
  Some (if cx E1 >? rowlen then set_cx rowlen E1 else E1).

(** [while (times--) editorMoveCursor(key);] with [times = n]. *)
Fixpoint move_times (n : nat) (key : Z) (E : editorConfig)
  : option editorConfig :=
  match n with
  | O => Some E
  | S n' => E1 <- editorMoveCursor key E ;; move_times n' key E1
  end.

(** The block of [case PAGE_UP: case PAGE_DOWN:].  For a negative
    [screenrows] the countdown of [times] never reaches zero before it
    overflows, which is outside the defined behaviour. *)
Definition page_jump (c : Z) (E : editorConfig) : option editorConfig :=
  let E1 := if c =? PAGE_UP then set_cy (rowoff E) E
            else if c =? PAGE_DOWN then
              let E' := set_cy (rowoff E + screenrows E - 1) E in
              if cy E' >? numrows E' then set_cy (numrows E') E' else E'
            else E in
  if screenrows E1 <? 0 then None
  else move_times (Z.to_nat (screenrows E1))
         (if c =? PAGE_UP then ARROW_UP else ARROW_DOWN) E1.

(** The editor with the function-static [quit_times] and the keys still
    to be delivered by [editorReadKey]. *)
Record world : Type := mk_world {
  ed : editorConfig;
  quit_times : Z;
  keys : list Z
}.

Definition quit_warning (n : Z) : list ascii :=
  lit "WARNING!!! File has unsaved changes. Press Ctrl-q " ++ fmt_d n ++
  lit " more times to quit".

(** [editorProcessKeypress]; [t1] and [t2] are what the [tabs] of
    [editorUpdateRow] holds on entry in the calls this keypress makes. *)
Definition editorProcessKeypress (io : save_io) (t1 t2 : Z) (w : world)
  : outcome world :=
  match keys w with
  | [] => Blocked
  | c :: ks =>
      let E := ed w in
      (* leaving the switch: quit_times = JATE_QUIT_TIMES *)
      let leave (o : option editorConfig) : outcome world :=
        match o with
        | Some E' => Ret (mk_world E' JATE_QUIT_TIMES ks)
        | None => Fault
        end in
      if c =? key_CR then leave (editorInsertNewline t1 t2 E)
      else if c =? CTRL_KEY key_q then
        if negb (dirty E =? 0) && (quit_times w >? 0) then
          Ret (mk_world (editorSetStatusMessage (quit_warning (quit_times w)) E)
                        (quit_times w - 1) ks)
        else Exit 0
      else if c =? CTRL_KEY key_s then
        match editorSave io E ks with
        | Ret (E', ks') => Ret (mk_world E' JATE_QUIT_TIMES ks')
        | Exit s => Exit s
        | Fault => Fault
        | Blocked => Blocked
        end
      else if c =? HOME_KEY then leave (Some (set_cx 0 E))
      else if c =? END_KEY then
        leave (if cy E <? numrows E
               then r <- row_at E (cy E) ;; Some (set_cx (size r) E)
               else Some E)
      else if (c =? BACKSPACE) || (c =? CTRL_KEY key_h) || (c =? DEL_KEY) then
        leave (E1 <- (if c =? DEL_KEY then editorMoveCursor ARROW_RIGHT E
                      else Some E) ;;
               editorDelChar t1 E1)
      else if (c =? PAGE_UP) || (c =? PAGE_DOWN) then
        (* no break: control falls into the arrow cases *)
        leave (E1 <- page_jump c E ;; editorMoveCursor c E1)
      else if (c =? ARROW_UP) || (c =? ARROW_DOWN) || (c =? ARROW_LEFT)
              || (c =? ARROW_RIGHT) then
        leave (editorMoveCursor c E)
      else if (c =? CTRL_KEY key_l) || (c =? key_ESC) then leave (Some E)
      else leave (editorInsertChar t1 t2 c E)
  end.

(** ** init *)

(** [while (1) { editorRefreshScreen(); editorProcessKeypress(); }] run for
    at most [n] rounds; [Ret w] after [n] rounds means the editor is still
    running in [w].  [g] lists what [tabs] holds on entry of
    [editorUpdateRow], two values for each round. *)
Fixpoint editor_loop (n : nat) (io : save_io) (g : nat -> Z) (w : world)
  : outcome world :=
  match n with
  | O => Ret w
  | S n' =>
      match editorRefreshScreen (ed w) with
      | None => Fault
      | Some E1 =>
          match editorProcessKeypress io (g 0%nat) (g 1%nat)
                  (mk_world E1 (quit_times w) (keys w)) with
          | Ret w' => editor_loop n' io (fun k => g (S (S k))) w'
          | o => o
          end
      end
  end.

(** ** Notions used in the statements *)

(** The rendering of a raw character sequence, as the second loop of
    [editorUpdateRow] computes it. *)
Definition render_of (cs : list ascii) : list ascii :=
  fst (render_loop cs [] 0).

(** The row [editorUpdateRow] leaves when it returns. *)
Definition updated_row (r : erow) : erow :=
  mk_erow (chars r) (render_of (chars r)).

(** The number of tabs in [cs]. *)
Definition tabs_in (cs : list ascii) : Z := count_tabs cs 0.

Definition INT_MAX : Z := 2147483647.

(** A value of [tabs] on entry of [editorUpdateRow] with which the
    allocation holds the rendering of any row of at most [n]
    characters: it is not negative, and the size computed from it, at
    most [8 * n + 7 * tabs0 + 1], is an [int]. *)
Definition tabs_ok (tabs0 n : Z) : Prop :=
  0 <= tabs0 /\ 8 * n + 7 * tabs0 + 1 <= INT_MAX.

(** The raw contents of the lines of the document. *)
Definition contents (E : editorConfig) : list (list ascii) :=
  map chars (row E).

(** The number of characters in a list of rows, and in the document. *)
Definition rows_chars (rows : list erow) : Z :=
  Z.of_nat (length (concat (map chars rows))).

Definition doc_chars (E : editorConfig) : Z := rows_chars (row E).

(** The cursor is on a line of the document or on the line after the
    last, at a column of that line. *)
Definition cursor_ok (E : editorConfig) : Prop :=
  0 <= cy E <= numrows E /\
  0 <= cx E /\
  (forall r, row_at E (cy E) = Some r -> cx E <= size r).




(** The keys with a case of their own in the switch of
    [editorProcessKeypress]. *)
Definition dispatched_keys : list Z :=
  [key_CR; CTRL_KEY key_q; CTRL_KEY key_s; HOME_KEY; END_KEY; BACKSPACE;
   CTRL_KEY key_h; DEL_KEY; PAGE_UP; PAGE_DOWN; ARROW_UP; ARROW_DOWN;
   ARROW_LEFT; ARROW_RIGHT; CTRL_KEY key_l; key_ESC].

(** The keys that leave the loop of [editorPrompt] running. *)
Definition prompt_keeps_waiting (c : Z) : bool :=
  (c =? DEL_KEY) || (c =? CTRL_KEY key_h) || (c =? BACKSPACE) || (c =? key_ESC).

(** Width of a tab written at rendered column [col]. *)
Definition tab_width (col : Z) : Z := 8 - col mod 8.

(** What one character adds to the rendering at column [col]. *)
Definition render_char (c : ascii) (col : Z) : list ascii :=
  if Ascii.eqb c ch_tab then repeat ch_space (Z.to_nat (tab_width col)) else [c].

(** The cursor after the keypress differs from the cursor after the page
    jump alone. *)
Definition page_key_cursor_differs (io : save_io) (t1 t2 : Z) (w : world)
  (c : Z) : Prop :=
  match editorProcessKeypress io t1 t2 w, page_jump c (ed w) with
  | Ret w', Some E' => (cx (ed w'), cy (ed w')) <> (cx E', cy E')
  | _, _ => False
  end.

(** The quit combo, Ctrl-q. *)
Definition key_quit : Z := CTRL_KEY key_q.

(** Three consecutive presses of the quit combo, from the initial
    count, end the program. *)
Definition quits_on_third_press (io : save_io) (g : nat -> Z)
  (E : editorConfig) : Prop :=
  exists status,
    editor_loop 3 io g
      (mk_world E JATE_QUIT_TIMES [key_quit; key_quit; key_quit]) =
    Exit status.

(** [E'] has the document, the file name and the cursor of [E]. *)
Definition same_document (E E' : editorConfig) : Prop :=
  row E' = row E /\ dirty E' = dirty E /\ filename E' = filename E /\
  cx E' = cx E /\ cy E' = cy E.

(** The characters [editorOpen] strips from the end of a line. *)
Definition is_eol (c : ascii) : bool := Ascii.eqb c ch_lf || Ascii.eqb c ch_cr.

(** No newline occurs in [l]. *)
Definition no_lf (l : list ascii) : bool :=
  forallb (fun c => negb (Ascii.eqb c ch_lf)) l.

(** The last character, if any, is neither a newline nor a carriage
    return. *)
Fixpoint last_ok (l : list ascii) : bool :=
  match l with
  | [] => true
  | c :: l' => match l' with [] => negb (is_eol c) | _ => last_ok l' end
  end.

(** The row [editorInsertRow] builds from a line read by [getline]. *)
Definition loaded_row (line : list ascii) : erow :=
  updated_row (mk_erow (strip_eol line) []).

(** An editor with three lines and the cursor at the end of the last
    one, in a window of two text rows; used in the examples. *)
Definition three_line_editor : editorConfig :=
  mk_config 4 2 0 0 0 2 80
    [mk_erow (lit "abc") (lit "abc"); mk_erow (lit "d") (lit "d");
     mk_erow (lit "efgh") (lit "efgh")] 0 None [].

(** An editor with one line and unsaved changes, used in the examples. *)
Definition unsaved_editor : editorConfig :=
  mk_config 0 0 0 0 0 22 40 [mk_erow (lit "hi") (lit "hi")] 1 None [].

(** ** Further parts of the program *)

(** *** terminal: [editorReadKey] *)

(** What one [read(STDIN_FILENO, &c, 1)] gives in raw mode: a byte, no
    byte within the timeout (0), or -1 with [errno] being [EAGAIN] or
    something else. *)
Inductive read_result : Type :=
| RByte (b : ascii)
| RNone
| RAgain
| RError.

(** The value of a [char] as an [int]; whether [char] is signed is left
    to the platform. *)
Definition int_of_char (signed_char : bool) (b : ascii) : Z :=
  let n := Z.of_N (N_of_ascii b) in
  if signed_char && (128 <=? n) then n - 256 else n.

(** [while ((nread = read(STDIN_FILENO, &c, 1)) != 1) { if (nread == -1 &&
    errno != EAGAIN) die("read"); }] *)
Fixpoint read_first (stdin : list read_result)
  : outcome (ascii * list read_result) :=
  match stdin with
  | [] => Blocked
  | RByte b :: rest => Ret (b, rest)
  | RError :: _ => Exit 1
  | RNone :: rest => read_first rest
  | RAgain :: rest => read_first rest
  end.

(** [read(STDIN_FILENO, &seq[i], 1) != 1] inside an escape sequence:
    [None] when the read does not give a byte. *)
Definition read_more (stdin : list read_result)
  : outcome (option ascii * list read_result) :=
  match stdin with
  | [] => Blocked
  | RByte b :: rest => Ret (Some b, rest)
  | _ :: rest => Ret (None, rest)
  end.

(** [seq[1] >= '0' && seq[1] <= '9'] *)
Definition is_digit_char (b : ascii) : bool :=
  let n := Z.of_N (N_of_ascii b) in (48 <=? n) && (n <=? 57).

(** The three switches on [seq[1]]; [None] when no case matches. *)
Definition tilde_key (seq1 : ascii) : option Z :=
  if Ascii.eqb seq1 "1" then Some HOME_KEY
  else if Ascii.eqb seq1 "3" then Some DEL_KEY
  else if Ascii.eqb seq1 "4" then Some END_KEY
  else if Ascii.eqb seq1 "5" then Some PAGE_UP
  else if Ascii.eqb seq1 "6" then Some PAGE_DOWN
  else if Ascii.eqb seq1 "7" then Some HOME_KEY
  else if Ascii.eqb seq1 "8" then Some END_KEY
  else None.

Definition bracket_key (seq1 : ascii) : option Z :=
  if Ascii.eqb seq1 "A" then Some ARROW_UP
  else if Ascii.eqb seq1 "B" then Some ARROW_DOWN
  else if Ascii.eqb seq1 "C" then Some ARROW_RIGHT
  else if Ascii.eqb seq1 "D" then Some ARROW_LEFT
  else if Ascii.eqb seq1 "H" then Some HOME_KEY
  else if Ascii.eqb seq1 "F" then Some END_KEY
  else None.

Definition letter_O_key (seq1 : ascii) : option Z :=
  if Ascii.eqb seq1 "H" then Some HOME_KEY
  else if Ascii.eqb seq1 "F" then Some END_KEY
  else None.

(** A switch that matches no case runs on to the final
    [return '\x1b']. *)
Definition or_escape (k : option Z) : Z :=
  match k with Some key => key | None => key_ESC end.

(** [editorReadKey]: the key and the reads that remain. *)
Definition editorReadKey (signed_char : bool) (stdin : list read_result)
  : outcome (Z * list read_result) :=
  match read_first stdin with
  | Ret (c, s1) =>
      if Ascii.eqb c ch_esc then
        match read_more s1 with
        | Ret (None, s2) => Ret (key_ESC, s2)
        | Ret (Some seq0, s2) =>
            match read_more s2 with
            | Ret (None, s3) => Ret (key_ESC, s3)
            | Ret (Some seq1, s3) =>
                if Ascii.eqb seq0 "[" then
                  if is_digit_char seq1 then
                    match read_more s3 with
                    | Ret (None, s4) => Ret (key_ESC, s4)
                    | Ret (Some seq2, s4) =>
                        if Ascii.eqb seq2 "~"
                        then Ret (or_escape (tilde_key seq1), s4)
                        else Ret (key_ESC, s4)
                    | Exit s => Exit s
                    | Fault => Fault
                    | Blocked => Blocked
                    end
                  else Ret (or_escape (bracket_key seq1), s3)
                else if Ascii.eqb seq0 "O" then
                  Ret (or_escape (letter_O_key seq1), s3)
                else Ret (key_ESC, s3)
            | Exit s => Exit s
            | Fault => Fault
            | Blocked => Blocked
            end
        | Exit s => Exit s
        | Fault => Fault
        | Blocked => Blocked
        end
      else Ret (int_of_char signed_char c, s1)
  | Exit s => Exit s
  | Fault => Fault
  | Blocked => Blocked
  end.

(** The escape sequences (without the leading ESC) with a key of their
    own. *)
Definition escape_sequences : list (list ascii * Z) :=
  [ (["["; "1"; "~"], HOME_KEY); (["["; "3"; "~"], DEL_KEY);
    (["["; "4"; "~"], END_KEY); (["["; "5"; "~"], PAGE_UP);
    (["["; "6"; "~"], PAGE_DOWN); (["["; "7"; "~"], HOME_KEY);
    (["["; "8"; "~"], END_KEY);
    (["["; "A"], ARROW_UP); (["["; "B"], ARROW_DOWN);
    (["["; "C"], ARROW_RIGHT); (["["; "D"], ARROW_LEFT);
    (["["; "H"], HOME_KEY); (["["; "F"], END_KEY);
    (["O"; "H"], HOME_KEY); (["O"; "F"], END_KEY) ]%char.

(** A read that gives no byte and no fatal error. *)
Definition is_idle (r : read_result) : bool :=
  match r with RNone | RAgain => true | _ => false end.

(** The rendered column of the cursor: [editorRowCxToRx] on the cursor
    line, 0 on the line after the last. *)
Definition cursor_rx (E : editorConfig) : option Z :=
  if cy E <? numrows E then r <- row_at E (cy E) ;; editorRowCxToRx r (cx E)
  else Some 0.

(** The cursor lies in the window of the screen. *)
Definition cursor_in_window (E : editorConfig) : Prop :=
  rowoff E <= cy E < rowoff E + screenrows E /\
  coloff E <= rx E < coloff E + screencols E.

(** The offset [off] of a window of [n] cells after it has been moved,
    as [editorScroll] does, to show position [p]. *)
Definition scroll_to (p off n : Z) : Z :=
  let o1 := if p <? off then p else off in
  if p >=? o1 + n then p - n + 1 else o1.

(** The cursor is in the document as the editor keeps it: on a line at a
    column of that line, or at column 0 of the line after the last. *)
Definition cursor_in_document (E : editorConfig) : Prop :=
  cursor_ok E /\ (cy E = numrows E -> cx E = 0).

(** Every line carries the rendering of its characters. *)
Definition rows_rendered (E : editorConfig) : Prop :=
  Forall (fun r => render r = render_of (chars r)) (row E).

(** What the editor keeps true between keypresses: the cursor is in the
    document, every line carries its rendering, the row offset is not
    negative and the window has at least one text row. *)
Definition editor_inv (E : editorConfig) : Prop :=
  cursor_in_document E /\ rows_rendered E /\
  0 <= rowoff E /\ 1 <= screenrows E.

(** [E'] is [E] with the cursor moved. *)
Definition moved (E E' : editorConfig) : Prop :=
  E' = set_cx (cx E') (set_cy (cy E') E).

(** *** init: [main] *)

(** [main] after [enableRawMode], run for at most [n] rounds of its
    loop.  [winsize] is what [getWindowSize] reports ([None] when it
    fails); [arg] is the file named on the command line, with what
    [fopen] finds; [g_open] and [g_loop] list what [tabs] holds on entry
    of [editorUpdateRow] while the file is read and in the loop. *)
Definition main (winsize : option (Z * Z))
  (arg : option (list ascii * option (list ascii)))
  (n : nat) (io : save_io) (g_open g_loop : nat -> Z) (input : list Z)
  : outcome world :=
  match winsize with
  | None => Exit 1
  | Some (rows, cols) =>
      let E := initEditor rows cols in
      match (match arg with
             | Some (fname, file) => editorOpen g_open fname file E
             | None => Ret E
             end) with
      | Ret E1 =>
          editor_loop n io g_loop
            (mk_world
               (editorSetStatusMessage
                  (lit "HELP: Ctrl-s = Save | Ctrl-q = Quit") E1)
               JATE_QUIT_TIMES input)
      | Exit s => Exit s
      | Fault => Fault
      | Blocked => Blocked
      end
  end.

(** The size of the file named on the command line; 0 without one. *)
Definition file_chars (arg : option (list ascii * option (list ascii))) : Z :=
  match arg with
  | Some (_, Some content) => Z.of_nat (length content)
  | _ => 0
  end.

(** The outcome is no fault, and a state returned satisfies [P]. *)
Definition safely (A : Type) (P : A -> Prop) (o : outcome A) : Prop :=
  match o with
  | Ret a => P a
  | Fault => False
  | Exit _ => True
  | Blocked => True
  end.

(** The outcome is a fault only when [F] holds, and a state returned
    satisfies [P]. *)
Definition safely_unless (A : Type) (F : Prop) (P : A -> Prop)
  (o : outcome A) : Prop :=
  match o with
  | Ret a => P a
  | Fault => F
  | Exit _ => True
  | Blocked => True
  end.

(** The editor after the Delete key, with the cursor on line [x]
    between the lines [l1] and [l2]: the character under the cursor is
    removed; at the end of the line the next line is joined on; at the
    end of the last line only the cursor moves, to the line after the
    last. *)
Definition after_delete_key (E : editorConfig) (l1 : list erow) (x : erow)
  (l2 : list erow) : editorConfig :=
  if cx E <? size x then
    set_dirty (dirty E + 1)
      (set_row (l1 ++ updated_row
                        (mk_erow (firstn (Z.to_nat (cx E)) (chars x) ++
                                  skipn (S (Z.to_nat (cx E))) (chars x))
                                 (render x)) :: l2) E)
  else
    match l2 with
    | y :: l2' =>
        set_dirty (dirty E + 2)
          (set_row (l1 ++ updated_row
                            (mk_erow (chars x ++ chars y) (render x)) :: l2') E)
    | [] => set_cx 0 (set_cy (cy E + 1) E)
    end.

(** No tab occurs in [l]. *)
Definition no_tab (l : list ascii) : bool :=
  forallb (fun c => negb (Ascii.eqb c ch_tab)) l.

(** *** output: [editorDrawRows] *)

Definition JATE_VERSION : list ascii := lit "0.0.1".

(** [snprintf(welcome, sizeof(welcome), "Jate editor -- version %s",
    JATE_VERSION)]: 28 characters, which fit the buffer. *)
Definition welcome_message : list ascii :=
  lit "Jate editor -- version " ++ JATE_VERSION.

(** [while (padding--) abAppend(ab, " ", 1);] run [n] times. *)
Fixpoint pad_loop (n : nat) (ab : list ascii) : list ascii :=
  match n with
  | O => ab
  | S n' => pad_loop n' (abAppend ab [ch_space] 1)
  end.

(** The sequences [ESC [ K] and CR LF that end every row. *)
Definition erase_to_eol : list ascii := ch_esc :: lit "[K".
Definition crlf : list ascii := [ch_cr; ch_lf].

(** The body of the loop of [editorDrawRows] for screen row [y].  The
    slice [&render[coloff]] lies before the buffer for a negative
    [coloff]; a negative [padding] would never count down to zero. *)
Definition editorDrawRows_row (E : editorConfig) (y : Z) (ab : list ascii)
  : option (list ascii) :=
  let filerow := y + rowoff E in
  ab1 <- (if filerow >=? numrows E then
            if (numrows E =? 0) && (y =? Z.quot (screenrows E) 3) then
              let welcomelen := Z.of_nat (length welcome_message) in
              let welcomelen := if welcomelen >? screencols E
                                then screencols E else welcomelen in
              let padding := Z.quot (screencols E - welcomelen) 2 in
              if padding <? 0 then None
              else
                let '(ab0, padding) :=
                  if padding =? 0 then (ab, padding)
                  else (abAppend ab (lit "~") 1, padding - 1) in
                Some (abAppend (pad_loop (Z.to_nat padding) ab0)
                               welcome_message welcomelen)
            else Some (abAppend ab (lit "~") 1)
          else
            r <- row_at E filerow ;;
            let len := rsize r - coloff E in
            let len := if len <? 0 then 0 else len in
            let len := if len >? screencols E then screencols E else len in
            if coloff E <? 0 then None
            else Some (abAppend ab (skipn (Z.to_nat (coloff E)) (render r)) len)) ;;
  Some (abAppend (abAppend ab1 erase_to_eol 3) crlf 2).

(** [for (y = 0; y < E.screenrows; ++y)], with [n] rows still to draw. *)
Fixpoint editorDrawRows_loop (n : nat) (y : Z) (E : editorConfig)
  (ab : list ascii) : option (list ascii) :=
  match n with
  | O => Some ab
  | S n' =>
      ab1 <- editorDrawRows_row E y ab ;;
      editorDrawRows_loop n' (y + 1) E ab1
  end.

Definition editorDrawRows (E : editorConfig) (ab : list ascii)
  : option (list ascii) :=
  editorDrawRows_loop (Z.to_nat (screenrows E)) 0 E ab.

(** What screen row [y] shows: at most [screencols] characters; for a
    line of the document the part of its rendering from [coloff] on;
    below a document that is not empty, a tilde. *)
Definition shown (E : editorConfig) (y : Z) (t : list ascii) : Prop :=
  Z.of_nat (length t) <= screencols E /\
  (forall r, row_at E (y + rowoff E) = Some r ->
             t = firstn (Z.to_nat (screencols E))
                        (skipn (Z.to_nat (coloff E)) (render r))) /\
  (numrows E <= y + rowoff E -> numrows E <> 0 -> t = lit "~").

(** *** output: the frame *)

(** [strlen]: the characters before the first NUL. *)
Fixpoint strlen (s : list ascii) : Z :=
  match s with
  | [] => 0
  | c :: s' => if Ascii.eqb c zero then 0 else 1 + strlen s'
  end.

(** [editorDrawMessageBar]; [fresh] is the outcome of
    [time(NULL) - E.statusmsg_time < 5]. *)
Definition editorDrawMessageBar (fresh : bool) (E : editorConfig)
  (ab : list ascii) : list ascii :=
  let ab1 := abAppend ab erase_to_eol 3 in
  let msglen := strlen (statusmsg E) in
  let msglen := if msglen >? screencols E then screencols E else msglen in
  if negb (msglen =? 0) && fresh then abAppend ab1 (statusmsg E) msglen
  else ab1.

(** The bytes [editorRefreshScreen] hands to [write], for the state [E]
    that its call of [editorScroll] has left; [None] when the drawing
    reads outside the rows or outside a rendering. *)
Definition editorRefreshScreen_frame (fresh : bool) (E : editorConfig)
  : option (list ascii) :=
  let ab1 := abAppend [] (ch_esc :: lit "[?25l") 6 in
  let ab2 := abAppend ab1 (ch_esc :: lit "[H") 3 in
  ab3 <- editorDrawRows E ab2 ;;
  let ab4 := editorDrawStatusBar E ab3 in
  let ab5 := editorDrawMessageBar fresh E ab4 in
  let buf := (ch_esc :: lit "[") ++ fmt_d (cy E - rowoff E + 1) ++ lit ";" ++
             fmt_d (rx E - coloff E + 1) ++ lit "H" in
  let ab6 := abAppend ab5 buf (Z.of_nat (length buf)) in
  Some (abAppend ab6 (ch_esc :: lit "[?25h") 6).

(** What the drawing needs of the window: a column offset that is not
    negative and at least one column. *)
Definition window_ok (E : editorConfig) : Prop :=
  0 <= coloff E /\ 1 <= screencols E.

(** [E'] has the width of [E], and a column offset that is not negative
    if that of [E] is not. *)
Definition window_kept (E E' : editorConfig) : Prop :=
  screencols E' = screencols E /\ (0 <= coloff E -> 0 <= coloff E').

(** [editorRefreshScreen] on [E] scrolls and draws its frame without a
    read outside the rows, whatever the age of the status message, and
    does so again each time one of the messages [msgs] is set and the
    screen is refreshed once more, as the loop of [editorPrompt] does. *)
Fixpoint refresh_draws (msgs : list (list ascii)) (E : editorConfig) : Prop :=
  forall fresh, exists E1 frame,
    editorRefreshScreen E = Some E1 /\
    editorRefreshScreen_frame fresh E1 = Some frame /\
    match msgs with
    | [] => True
    | m :: ms => refresh_draws ms (editorSetStatusMessage m E1)
    end.

(** The key Ctrl-S. *)
Definition key_save : Z := CTRL_KEY key_s.

(** * Properties *)

(** Reduction of field reads over field updates. *)
Ltac cfg :=
  unfold numrows;
  cbn [cx cy rx rowoff coloff screenrows screencols row dirty filename
       statusmsg set_cx set_cy set_rx set_rowoff set_coloff set_row
       set_dirty set_filename set_statusmsg ed quit_times keys].

(** ** Rendering of tabs *)

Section Rendering.

Lemma tab_fill_spec (buf : list ascii) (idx : Z) :
  tab_fill buf idx =
  (buf ++ repeat ch_space (Z.to_nat ((- idx) mod 8)), idx + (- idx) mod 8).
Proof.
  funelim (tab_fill buf idx).
  - clear Heq. unfold JATE_TABSTOP in e.
    assert (H : (- idx) mod 8 = 0).
    { apply Z.rem_divide in e; [|lia]. destruct e as [k Hk]. subst idx.
      replace (- (k * 8)) with ((- k) * 8) by lia. apply Z.mod_mul. lia. }
    rewrite H. simpl. rewrite app_nil_r. f_equal. lia.
  - clear Heq. rewrite H. unfold JATE_TABSTOP in n.
    assert (Hm : idx mod 8 <> 0).
    { intro Hz. apply n. apply Z.rem_divide; [lia|].
      apply Z.mod_divide; [lia|exact Hz]. }
    assert (Hk : (- idx) mod 8 = (- (idx + 1)) mod 8 + 1).
    { pose proof (Z.mod_pos_bound (- idx) 8).
      pose proof (Z.mod_pos_bound (- (idx + 1)) 8).
      pose proof (Z.div_mod (- idx) 8).
      pose proof (Z.div_mod (- (idx + 1)) 8).
      pose proof (Z.div_mod idx 8).
      pose proof (Z.mod_pos_bound idx 8). lia. }
    rewrite Hk.
    pose proof (Z.mod_pos_bound (- (idx + 1)) 8).
    rewrite Z2Nat.inj_add by lia.
    rewrite Nat.add_comm. simpl repeat.
    rewrite <- app_assoc. simpl. f_equal. lia.
Qed.

Lemma tab_width_bounds (col : Z) :
  1 <= tab_width col <= 8 /\ (col + tab_width col) mod 8 = 0.
Proof.
  unfold tab_width. pose proof (Z.mod_pos_bound col 8). split; [lia|].
  pose proof (Z.div_mod col 8).
  replace (col + (8 - col mod 8)) with ((col / 8 + 1) * 8) by lia.
  apply Z.mod_mul. lia.
Qed.

Lemma tab_step (buf : list ascii) (idx : Z) :
  tab_fill (buf ++ [ch_space]) (idx + 1) =
  (buf ++ repeat ch_space (Z.to_nat (tab_width idx)), idx + tab_width idx).
Proof.
  rewrite tab_fill_spec. unfold tab_width.
  assert (Hk : (- (idx + 1)) mod 8 = 7 - idx mod 8).
  { pose proof (Z.mod_pos_bound (- (idx + 1)) 8).
    pose proof (Z.div_mod (- (idx + 1)) 8).
    pose proof (Z.div_mod idx 8).
    pose proof (Z.mod_pos_bound idx 8). lia. }
  rewrite Hk. pose proof (Z.mod_pos_bound idx 8).
  replace (8 - idx mod 8) with (1 + (7 - idx mod 8)) by lia.
  rewrite Z2Nat.inj_add by lia. simpl repeat.
  rewrite <- app_assoc. simpl app. f_equal. lia.
Qed.

Lemma render_char_length (c : ascii) (col : Z) :
  Z.of_nat (length (render_char c col)) =
  if Ascii.eqb c ch_tab then tab_width col else 1.
Proof.
  unfold render_char. destruct (Ascii.eqb c ch_tab); [|reflexivity].
  rewrite repeat_length. pose proof (tab_width_bounds col). lia.
Qed.

Lemma render_loop_cons (c : ascii) (cs buf : list ascii) (idx : Z) :
  render_loop (c :: cs) buf idx =
  render_loop cs (buf ++ render_char c idx)
              (idx + Z.of_nat (length (render_char c idx))).
Proof.
  rewrite render_char_length. unfold render_char. simpl.
  destruct (Ascii.eqb c ch_tab); [|reflexivity].
  rewrite tab_step. reflexivity.
Qed.

Lemma render_loop_app (a b buf : list ascii) (idx : Z) :
  render_loop (a ++ b) buf idx =
  render_loop b (fst (render_loop a buf idx)) (snd (render_loop a buf idx)).
Proof.
  revert buf idx. induction a as [|c a IH]; intros buf idx; [reflexivity|].
  rewrite <- app_comm_cons, !render_loop_cons. apply IH.
Qed.

Lemma render_loop_buf (cs buf : list ascii) (idx : Z) :
  fst (render_loop cs buf idx) = buf ++ fst (render_loop cs [] idx) /\
  snd (render_loop cs buf idx) =
  idx + Z.of_nat (length (fst (render_loop cs [] idx))).
Proof.
  revert buf idx. induction cs as [|c cs IH]; intros buf idx.
  - simpl. rewrite app_nil_r. split; [reflexivity|lia].
  - rewrite !render_loop_cons.
    destruct (IH (buf ++ render_char c idx)
                 (idx + Z.of_nat (length (render_char c idx)))) as [H1 H2].
    destruct (IH ([] ++ render_char c idx)
                 (idx + Z.of_nat (length (render_char c idx)))) as [H3 H4].
    rewrite H1, H2, H3. simpl. rewrite <- app_assoc. split; [reflexivity|].
    rewrite length_app. lia.
Qed.

(** [row->rsize = idx]: the index reached by the loop is the number of
    characters rendered. *)
Lemma render_loop_index (cs : list ascii) :
  render_loop cs [] 0 = (render_of cs, Z.of_nat (length (render_of cs))).
Proof.
  destruct (render_loop_buf cs [] 0) as [_ H]. unfold render_of.
  destruct (render_loop cs [] 0) as [buf idx]. cbn [fst snd] in *.
  rewrite H. reflexivity.
Qed.

Lemma render_of_snoc (pre : list ascii) (c : ascii) :
  render_of (pre ++ [c]) =
  render_of pre ++ render_char c (Z.of_nat (length (render_of pre))).
Proof.
  unfold render_of.
  rewrite render_loop_app, render_loop_cons. simpl.
  destruct (render_loop_buf pre [] 0) as [_ H2]. rewrite H2. reflexivity.
Qed.

Lemma render_of_app (a b : list ascii) :
  exists rest, render_of (a ++ b) = render_of a ++ rest.
Proof.
  unfold render_of. rewrite render_loop_app.
  destruct (render_loop_buf b (fst (render_loop a [] 0))
                            (snd (render_loop a [] 0))) as [H1 _].
  rewrite H1. eexists. reflexivity.
Qed.

(** *** The allocation of [render] *)

Lemma count_tabs_from (cs : list ascii) (tabs : Z) :
  count_tabs cs tabs = tabs + tabs_in cs.
Proof.
  unfold tabs_in. revert tabs. induction cs as [|c cs IH]; intro tabs.
  - simpl. lia.
  - cbn [count_tabs]. rewrite (IH (if Ascii.eqb c ch_tab then 0 + 1 else 0)).
    rewrite IH. destruct (Ascii.eqb c ch_tab); lia.
Qed.

Lemma tabs_in_cons (c : ascii) (cs : list ascii) :
  tabs_in (c :: cs) = (if Ascii.eqb c ch_tab then 1 else 0) + tabs_in cs.
Proof.
  unfold tabs_in at 1. cbn [count_tabs]. rewrite count_tabs_from.
  destruct (Ascii.eqb c ch_tab); reflexivity.
Qed.

Lemma tabs_in_bounds (cs : list ascii) :
  0 <= tabs_in cs <= Z.of_nat (length cs).
Proof.
  induction cs as [|c cs IH]; [unfold tabs_in; simpl; lia|].
  rewrite tabs_in_cons. cbn [length].
  destruct (Ascii.eqb c ch_tab); lia.
Qed.

(** The second loop stores at least one byte for every character and at
    most seven more for every tab. *)
Lemma render_loop_length (cs buf : list ascii) (idx : Z) :
  idx + Z.of_nat (length cs) <= snd (render_loop cs buf idx) <=
  idx + Z.of_nat (length cs) + 7 * tabs_in cs.
Proof.
  revert buf idx. induction cs as [|c cs IH]; intros buf idx.
  - unfold tabs_in. simpl. lia.
  - rewrite render_loop_cons, tabs_in_cons, render_char_length.
    specialize (IH (buf ++ render_char c idx)
                   (idx + (if Ascii.eqb c ch_tab then tab_width idx else 1))).
    pose proof (tab_width_bounds idx) as [Hw _].
    cbn [length]. destruct (Ascii.eqb c ch_tab); lia.
Qed.

Lemma render_of_length (cs : list ascii) :
  Z.of_nat (length cs) <= Z.of_nat (length (render_of cs)) <=
  Z.of_nat (length cs) + 7 * tabs_in cs.
Proof.
  pose proof (render_loop_length cs [] 0) as H.
  rewrite render_loop_index in H. cbn [snd] in H. lia.
Qed.

Lemma int_wrap_small (z : Z) :
  - 2147483648 <= z <= INT_MAX -> int_wrap z = z.
Proof.
  intro H. unfold int_wrap, INT_MAX in *. rewrite Z.mod_small by lia. lia.
Qed.

Lemma int_wrap_le (z : Z) : - 2147483648 <= z -> int_wrap z <= z.
Proof.
  intro H. unfold int_wrap.
  pose proof (Z.mod_le (z + 2147483648) 4294967296). lia.
Qed.

(** With [tabs] not negative on entry, and small enough for the size to
    be an [int], the allocation holds the rendering. *)
Lemma editorUpdateRow_ok (tabs0 n : Z) (r : erow) :
  tabs_ok tabs0 n -> size r <= n ->
  editorUpdateRow tabs0 r = Some (updated_row r).
Proof.
  intros [Ht Hmax] Hn. unfold editorUpdateRow, updated_row, JATE_TABSTOP.
  rewrite render_loop_index, count_tabs_from.
  pose proof (render_of_length (chars r)) as Hl.
  pose proof (tabs_in_bounds (chars r)) as Hb.
  unfold size in *. rewrite int_wrap_small by lia.
  destruct (Z.ltb_spec (Z.of_nat (length (render_of (chars r))))
              (Z.of_nat (length (chars r)) + (tabs0 + tabs_in (chars r)) * (8 - 1) + 1));
    [reflexivity|lia].
Qed.

(** With a count of tabs below zero, and no wrap-around, the first
    store already lies outside the allocation. *)
Lemma editorUpdateRow_faults (tabs0 : Z) (r : erow) :
  - 268435456 <= tabs0 -> tabs0 + tabs_in (chars r) < 0 ->
  editorUpdateRow tabs0 r = None.
Proof.
  intros Hlow Ht. unfold editorUpdateRow, size, JATE_TABSTOP.
  rewrite render_loop_index, count_tabs_from.
  pose proof (render_of_length (chars r)) as Hl.
  pose proof (tabs_in_bounds (chars r)) as Hb.
  pose proof (@int_wrap_le
                (Z.of_nat (length (chars r)) +
                 (tabs0 + tabs_in (chars r)) * (8 - 1) + 1)) as Hw.
  destruct (Z.ltb_spec (Z.of_nat (length (render_of (chars r))))
              (int_wrap (Z.of_nat (length (chars r)) +
                         (tabs0 + tabs_in (chars r)) * (8 - 1) + 1)));
    [lia|reflexivity].
Qed.

Lemma editorUpdateRow_faults_below_size (tabs0 : Z) (r : erow) :
  - 268435456 <= tabs0 < - size r -> editorUpdateRow tabs0 r = None.
Proof.
  intro Ht. apply editorUpdateRow_faults; [lia|].
  pose proof (tabs_in_bounds (chars r)). unfold size in Ht. lia.
Qed.

Lemma tabs_ok_le (tabs0 n m : Z) : tabs_ok tabs0 n -> m <= n -> tabs_ok tabs0 m.
Proof. unfold tabs_ok. intros [H1 H2] Hm. split; lia. Qed.

(** When it returns, the row is the same for every value of [tabs]. *)
Lemma editorUpdateRow_some (tabs0 : Z) (r r' : erow) :
  editorUpdateRow tabs0 r = Some r' -> r' = updated_row r.
Proof.
  unfold editorUpdateRow, updated_row. rewrite render_loop_index.
  destruct (_ <? _); intro H; inversion H. reflexivity.
Qed.

Lemma editorUpdateRow_cases (tabs0 : Z) (r : erow) :
  editorUpdateRow tabs0 r = None \/ editorUpdateRow tabs0 r = Some (updated_row r).
Proof.
  destruct (editorUpdateRow tabs0 r) as [r'|] eqn:H; [right|left; reflexivity].
  rewrite (editorUpdateRow_some _ _ H). reflexivity.
Qed.

Lemma nth_Z_nat (A : Type) (l : list A) (n : nat) :
  nth_Z l (Z.of_nat n) = nth_error l n.
Proof.
  unfold nth_Z. destruct (Z.ltb_spec (Z.of_nat n) 0); [lia|].
  rewrite Nat2Z.id. reflexivity.
Qed.

Lemma firstn_snoc_nth (A : Type) (l : list A) (n : nat) (x : A) :
  nth_error l n = Some x -> firstn (S n) l = firstn n l ++ [x].
Proof.
  revert n. induction l as [|y l IH]; intros [|n] H; simpl in *; try discriminate.
  - inversion H. reflexivity.
  - rewrite (IH n H). reflexivity.
Qed.

Lemma editorRowCxToRx_loop_spec (r : erow) (n j : nat) :
  (j + n <= length (chars r))%nat ->
  editorRowCxToRx_loop r n (Z.of_nat j)
    (Z.of_nat (length (render_of (firstn j (chars r))))) =
  Some (Z.of_nat (length (render_of (firstn (j + n) (chars r))))).
Proof.
  revert j. induction n as [|n IH]; intros j Hle.
  - rewrite Nat.add_0_r. reflexivity.
  - cbn [editorRowCxToRx_loop]. unfold char_at, size.
    destruct (Z.eqb_spec (Z.of_nat j) (Z.of_nat (length (chars r)))); [lia|].
    rewrite nth_Z_nat.
    destruct (nth_error (chars r) j) as [c|] eqn:Hc.
    2:{ apply nth_error_None in Hc. lia. }
    replace (j + S n)%nat with (S j + n)%nat by lia.
    rewrite <- (IH (S j)) by lia.
    rewrite (firstn_snoc_nth _ _ Hc), render_of_snoc, length_app.
    rewrite Nat2Z.inj_add, render_char_length.
    replace (Z.of_nat j + 1) with (Z.of_nat (S j)) by lia.
    f_equal. unfold JATE_TABSTOP, tab_width.
    destruct (Ascii.eqb c ch_tab); [|reflexivity].
    rewrite Z.rem_mod_nonneg by lia. lia.
Qed.

End Rendering.

(** C6.  What [editorUpdateRow] does with a line is not decided by the
    line alone: it reads [tabs] without having set it.  Whenever the
    count of tabs it arrives at is negative (and above -2^28, so that
    nothing wraps around), the stores into [render] leave the
    allocation; whenever [tabs] was not negative on entry and small
    enough for the size to be an [int], the call returns.  When it
    returns, the row is the one the claim describes: the characters are
    unchanged; around any character of the line, the rendering consists
    of the rendering of the characters before it, then, for a tab,
    between one and eight spaces that end on a multiple of 8 rendered
    columns, and for any other character that character itself; and
    [editorRowCxToRx] maps a character index to the length of the
    rendering of the characters before that index. *)
Theorem editorUpdateRow_reads_uninitialised_tabs (r : erow) :
  (forall tabs0, - 268435456 <= tabs0 -> tabs0 + tabs_in (chars r) < 0 ->
     editorUpdateRow tabs0 r = None) /\
  (forall tabs0, tabs_ok tabs0 (size r) ->
     editorUpdateRow tabs0 r = Some (updated_row r)) /\
  (forall tabs0 r', editorUpdateRow tabs0 r = Some r' ->
     chars r' = chars r /\
     render r' = render_of (chars r) /\
     (forall pre c post, chars r = pre ++ c :: post ->
        exists rest,
          let col := Z.of_nat (length (render_of pre)) in
          let seg := if Ascii.eqb c ch_tab
                     then repeat ch_space (Z.to_nat (8 - col mod 8)) else [c] in
          render r' = render_of pre ++ seg ++ rest /\
          1 <= 8 - col mod 8 <= 8 /\
          (col + (8 - col mod 8)) mod 8 = 0) /\
     (forall cx0, 0 <= cx0 <= size r ->
        editorRowCxToRx r' cx0 =
        Some (Z.of_nat (length (render_of (firstn (Z.to_nat cx0) (chars r))))))).
Proof.
  split; [intros tabs0; apply editorUpdateRow_faults|].
  split; [intros tabs0 Ht; apply (@editorUpdateRow_ok tabs0 (size r) r Ht); lia|].
  intros tabs0 r' Hr'. apply editorUpdateRow_some in Hr'. subst r'.
  split; [reflexivity|]. split; [reflexivity|]. split.
  - intros pre c post Hsplit.
    destruct (render_of_app (pre ++ [c]) post) as [rest Hrest].
    exists rest. cbv zeta.
    pose proof (tab_width_bounds (Z.of_nat (length (render_of pre)))) as Hb.
    unfold tab_width in Hb.
    repeat split; try lia.
    cbn [render updated_row]. rewrite Hsplit.
    replace (pre ++ c :: post) with ((pre ++ [c]) ++ post)
      by (rewrite <- app_assoc; reflexivity).
    rewrite Hrest, render_of_snoc, <- app_assoc. reflexivity.
  - intros cx0 Hcx. unfold editorRowCxToRx, size in *.
    pose proof (@editorRowCxToRx_loop_spec (updated_row r) (Z.to_nat cx0) 0) as H.
    simpl in H. apply H. lia.
Qed.

(** ** Rows addressed by position *)

Section RowsByPosition.

Variable A : Type.
Implicit Types l : list A.

Lemma firstn_length_app l1 l2 :
  firstn (Z.to_nat (Z.of_nat (length l1))) (l1 ++ l2) = l1.
Proof.
  rewrite Nat2Z.id. induction l1 as [|x l1 IH]; simpl.
  - reflexivity.
  - rewrite IH. reflexivity.
Qed.

Lemma skipn_length_app l1 l2 :
  skipn (Z.to_nat (Z.of_nat (length l1))) (l1 ++ l2) = l2.
Proof.
  rewrite Nat2Z.id. induction l1 as [|x l1 IH]; simpl; [reflexivity|exact IH].
Qed.

Lemma skipn_S_length_app l1 x l2 :
  skipn (S (Z.to_nat (Z.of_nat (length l1)))) (l1 ++ x :: l2) = l2.
Proof.
  rewrite Nat2Z.id. induction l1 as [|y l1 IH]; simpl; [reflexivity|exact IH].
Qed.

Lemma nth_Z_length_app l1 x l2 :
  nth_Z (l1 ++ x :: l2) (Z.of_nat (length l1)) = Some x.
Proof.
  rewrite nth_Z_nat. induction l1 as [|y l1 IH]; simpl; [reflexivity|exact IH].
Qed.

Lemma nth_Z_split l (i : Z) (x : A) :
  nth_Z l i = Some x ->
  exists l1 l2, l = l1 ++ x :: l2 /\ i = Z.of_nat (length l1).
Proof.
  unfold nth_Z. destruct (Z.ltb_spec i 0) as [|Hi]; [discriminate|].
  intro H. apply nth_error_split in H. destruct H as (l1 & l2 & H1 & H2).
  exists l1, l2. split; [exact H1|lia].
Qed.

Lemma nth_Z_in_range l (i : Z) :
  0 <= i < Z.of_nat (length l) -> exists x, nth_Z l i = Some x.
Proof.
  intros Hi. unfold nth_Z. destruct (Z.ltb_spec i 0); [lia|].
  destruct (nth_error l (Z.to_nat i)) as [x|] eqn:Hx; [eauto|].
  apply nth_error_None in Hx. lia.
Qed.

Lemma nth_Z_out_of_range l (i : Z) :
  i < 0 \/ Z.of_nat (length l) <= i -> nth_Z l i = None.
Proof.
  intros Hi. unfold nth_Z. destruct (Z.ltb_spec i 0); [reflexivity|].
  apply nth_error_None. lia.
Qed.

End RowsByPosition.

Section Zipper.

Variables (E : editorConfig) (l1 l2 : list erow).

Variables tabs0 n : Z.
Hypothesis Htabs : tabs_ok tabs0 n.

(** The row primitives at a position of the zipper, with the call of
    [editorUpdateRow] left as it is. *)
Lemma editorInsertRow_at_eq (s : list ascii) :
  row E = l1 ++ l2 ->
  editorInsertRow tabs0 (Z.of_nat (length l1)) s E =
  (r <- editorUpdateRow tabs0 (mk_erow s []) ;;
   Some (set_dirty (dirty E + 1) (set_row (l1 ++ r :: l2) E))).
Proof.
  intros H. unfold editorInsertRow, numrows. rewrite H.
  rewrite length_app.
  destruct (Z.ltb_spec (Z.of_nat (length l1)) 0); [lia|].
  destruct (Z.gtb_spec (Z.of_nat (length l1))
                       (Z.of_nat (length l1 + length l2))); [lia|].
  simpl orb. cbv iota.
  rewrite firstn_length_app, skipn_length_app. reflexivity.
Qed.

Lemma editorInsertRow_at (s : list ascii) :
  Z.of_nat (length s) <= n ->
  row E = l1 ++ l2 ->
  editorInsertRow tabs0 (Z.of_nat (length l1)) s E =
  Some (set_dirty (dirty E + 1)
          (set_row (l1 ++ updated_row (mk_erow s []) :: l2) E)).
Proof.
  intros Hs H.
  rewrite (editorInsertRow_at_eq s H), (@editorUpdateRow_ok _ _ _ Htabs)
    by exact Hs.
  reflexivity.
Qed.

Variable x : erow.
Hypothesis Hrow : row E = l1 ++ x :: l2.

Lemma row_at_mid : row_at E (Z.of_nat (length l1)) = Some x.
Proof. unfold row_at. rewrite Hrow. apply nth_Z_length_app. Qed.

Lemma store_row_at (r : erow) :
  store_row (Z.of_nat (length l1)) r E = set_row (l1 ++ r :: l2) E.
Proof.
  unfold store_row. rewrite Hrow, firstn_length_app, skipn_S_length_app.
  reflexivity.
Qed.

Lemma editorDelRow_at :
  editorDelRow (Z.of_nat (length l1)) E =
  Some (set_dirty (dirty E + 1) (set_row (l1 ++ l2) E)).
Proof.
  unfold editorDelRow, editorFreeRow, numrows. rewrite row_at_mid.
  rewrite Hrow, length_app. simpl length.
  destruct (Z.ltb_spec (Z.of_nat (length l1)) 0); [lia|].
  destruct (Z.gtb_spec (Z.of_nat (length l1))
                       (Z.of_nat (length l1 + S (length l2)))); [lia|].
  simpl orb. cbv iota.
  rewrite firstn_length_app, skipn_S_length_app. reflexivity.
Qed.

Lemma editorRowAppendString_at_eq (s : list ascii) :
  editorRowAppendString tabs0 (Z.of_nat (length l1)) s E =
  (r <- editorUpdateRow tabs0 (mk_erow (chars x ++ s) (render x)) ;;
   Some (set_dirty (dirty E + 1) (set_row (l1 ++ r :: l2) E))).
Proof.
  unfold editorRowAppendString. rewrite row_at_mid.
  destruct (editorUpdateRow tabs0 _); [|reflexivity].
  rewrite store_row_at. reflexivity.
Qed.

Lemma editorRowAppendString_at (s : list ascii) :
  size x + Z.of_nat (length s) <= n ->
  editorRowAppendString tabs0 (Z.of_nat (length l1)) s E =
  Some (set_dirty (dirty E + 1)
          (set_row (l1 ++ updated_row (mk_erow (chars x ++ s) (render x)) :: l2) E)).
Proof.
  intro Hs.
  rewrite editorRowAppendString_at_eq, (@editorUpdateRow_ok _ _ _ Htabs);
    [reflexivity|].
  unfold size in *. cbn [chars]. rewrite length_app. lia.
Qed.

Lemma editorRowInsertChar_at_eq (at_ c : Z) :
  let a := Z.to_nat (if (at_ <? 0) || (at_ >? size x) then size x else at_) in
  editorRowInsertChar tabs0 (Z.of_nat (length l1)) at_ c E =
  (r <- editorUpdateRow tabs0
          (mk_erow (firstn a (chars x) ++ char_of_key c :: skipn a (chars x))
                   (render x)) ;;
   Some (set_dirty (dirty E + 1) (set_row (l1 ++ r :: l2) E))).
Proof.
  intros a. unfold editorRowInsertChar.
  rewrite row_at_mid. cbv zeta. fold a.
  destruct (editorUpdateRow tabs0 _); [|reflexivity].
  rewrite store_row_at. reflexivity.
Qed.

Lemma editorRowInsertChar_at (at_ c : Z) :
  let a := Z.to_nat (if (at_ <? 0) || (at_ >? size x) then size x else at_) in
  size x + 1 <= n ->
  editorRowInsertChar tabs0 (Z.of_nat (length l1)) at_ c E =
  Some (set_dirty (dirty E + 1)
          (set_row (l1 ++ updated_row
                            (mk_erow (firstn a (chars x) ++
                                      char_of_key c :: skipn a (chars x))
                                     (render x)) :: l2) E)).
Proof.
  intros a Hs.
  rewrite editorRowInsertChar_at_eq. cbv zeta. fold a.
  rewrite (@editorUpdateRow_ok _ _ _ Htabs); [reflexivity|].
  unfold size in *. cbn [chars]. rewrite length_app. cbn [length].
  rewrite length_firstn, length_skipn. lia.
Qed.

Lemma editorRowDelChar_at_eq (at_ : Z) :
  0 <= at_ < size x ->
  editorRowDelChar tabs0 (Z.of_nat (length l1)) at_ E =
  (r <- editorUpdateRow tabs0
          (mk_erow (firstn (Z.to_nat at_) (chars x) ++
                    skipn (S (Z.to_nat at_)) (chars x)) (render x)) ;;
   Some (set_dirty (dirty E + 1) (set_row (l1 ++ r :: l2) E))).
Proof.
  intros Hat. unfold editorRowDelChar. rewrite row_at_mid.
  destruct (Z.ltb_spec at_ 0); [lia|].
  destruct (Z.geb_spec at_ (size x)); [lia|]. cbn [orb].
  destruct (editorUpdateRow tabs0 _); [|reflexivity].
  rewrite store_row_at. reflexivity.
Qed.

End Zipper.

(** ** Splitting and joining lines *)

Lemma contents_split_join (E E2 : editorConfig) (l1 l2 : list erow) (x y : erow) :
  row E = l1 ++ x :: l2 -> row E2 = l1 ++ y :: l2 -> chars y = chars x ->
  contents E2 = contents E.
Proof.
  intros H1 H2 H3. unfold contents. rewrite H1, H2, !map_app. simpl.
  rewrite H3. reflexivity.
Qed.

Lemma length_snoc_Z (A : Type) (l : list A) (x : A) :
  Z.of_nat (length (l ++ [x])) = Z.of_nat (length l) + 1.
Proof. rewrite length_app. simpl. lia. Qed.

Lemma length_mid_Z (A : Type) (l1 l2 : list A) (x : A) :
  Z.of_nat (length (l1 ++ x :: l2)) = Z.of_nat (length l1) + 1 + Z.of_nat (length l2).
Proof. rewrite length_app. simpl. lia. Qed.

Lemma snoc_app (A : Type) (l1 l2 : list A) (x : A) :
  (l1 ++ [x]) ++ l2 = l1 ++ x :: l2.
Proof. rewrite <- app_assoc. reflexivity. Qed.

(** [editorInsertRow] at a position its check accepts, with a count of
    tabs that comes out negative. *)
Lemma editorInsertRow_faults (tabs0 at_ : Z) (s : list ascii) (E : editorConfig) :
  0 <= at_ <= numrows E ->
  - 268435456 <= tabs0 -> tabs0 + tabs_in s < 0 ->
  editorInsertRow tabs0 at_ s E = None.
Proof.
  intros Hat Hlow Ht. unfold editorInsertRow.
  destruct (Z.ltb_spec at_ 0); [lia|].
  destruct (Z.gtb_spec at_ (numrows E)); [lia|].
  cbn [orb]. rewrite editorUpdateRow_faults by assumption. reflexivity.
Qed.

(** Joining line [length l1 + 1] onto the line before it, with the call
    of [editorUpdateRow] left as it is. *)
Lemma editorDelChar_join_eq (tabs0 : Z) (E : editorConfig) (l1 l2 : list erow)
  (a b : erow) :
  row E = l1 ++ a :: b :: l2 ->
  cy E = Z.of_nat (length l1) + 1 ->
  cx E = 0 ->
  editorDelChar tabs0 E =
  (y <- editorUpdateRow tabs0 (mk_erow (chars a ++ chars b) (render a)) ;;
   Some (set_cy (Z.of_nat (length l1))
           (set_dirty (dirty E + 2)
              (set_row (l1 ++ y :: l2) (set_cx (size a) E))))).
Proof.
  intros Hrow Hcy Hcx.
  assert (Hn : numrows E = Z.of_nat (length l1) + 2 + Z.of_nat (length l2)).
  { unfold numrows. rewrite Hrow, length_app. cbn [length]. lia. }
  assert (Hprev : row_at E (cy E - 1) = Some a).
  { replace (cy E - 1) with (Z.of_nat (length l1)) by lia.
    exact (@row_at_mid E l1 (b :: l2) a Hrow). }
  assert (Hcur : row_at E (cy E) = Some b).
  { rewrite Hcy, <- length_snoc_Z with (x := a).
    apply (@row_at_mid E (l1 ++ [a]) l2 b). rewrite snoc_app. exact Hrow. }
  unfold editorDelChar.
  destruct (Z.eqb_spec (cy E) (numrows E)); [lia|].
  rewrite Hcx. change (0 =? 0) with true.
  destruct (Z.eqb_spec (cy E) 0); [lia|]. cbn [andb].
  change (0 >? 0) with false. cbv iota.
  rewrite Hprev. cbv zeta.
  change (row_at (set_cx (size a) E) (cy (set_cx (size a) E)))
    with (row_at E (cy E)).
  rewrite Hcur.
  change (cy (set_cx (size a) E) - 1) with (cy E - 1).
  replace (cy E - 1) with (Z.of_nat (length l1)) by lia.
  rewrite (@editorRowAppendString_at_eq (set_cx (size a) E) l1 (b :: l2) tabs0
             a Hrow (chars b)).
  destruct (editorUpdateRow tabs0 _) as [y|]; [|reflexivity].
  set (E2 := set_dirty _ _).
  assert (Hrow2 : row E2 = (l1 ++ [y]) ++ b :: l2)
    by (unfold E2; cfg; rewrite snoc_app; reflexivity).
  assert (Hcy2 : cy E2 = Z.of_nat (length (l1 ++ [y])))
    by (unfold E2; cfg; rewrite length_snoc_Z; exact Hcy).
  rewrite Hcy2, (@editorDelRow_at E2 (l1 ++ [y]) l2 b Hrow2).
  unfold E2. cfg. rewrite snoc_app.
  unfold set_cy, set_dirty, set_row, set_cx. cfg.
  do 2 f_equal; lia.
Qed.

(** The same when the allocation of the joined line suffices. *)
Lemma editorDelChar_join (tabs0 n : Z) (E : editorConfig) (l1 l2 : list erow)
  (a b : erow) :
  tabs_ok tabs0 n -> size a + size b <= n ->
  row E = l1 ++ a :: b :: l2 ->
  cy E = Z.of_nat (length l1) + 1 ->
  cx E = 0 ->
  editorDelChar tabs0 E =
  Some (set_cy (Z.of_nat (length l1))
          (set_dirty (dirty E + 2)
             (set_row (l1 ++ updated_row (mk_erow (chars a ++ chars b) (render a)) :: l2)
                (set_cx (size a) E)))).
Proof.
  intros Ht Hsz Hrow Hcy Hcx.
  rewrite (@editorDelChar_join_eq tabs0 E l1 l2 a b Hrow Hcy Hcx).
  rewrite (@editorUpdateRow_ok tabs0 n _ Ht); [reflexivity|].
  unfold size in *. cbn [chars]. rewrite length_app. lia.
Qed.

(** Splitting line [length l1] at the cursor, with the calls of
    [editorUpdateRow] left as they are: one for the new row and, when
    the cursor is not at column 0, one for the row cut short. *)
Lemma editorInsertNewline_split_eq (t1 t2 : Z) (E : editorConfig)
  (l1 l2 : list erow) (x : erow) :
  row E = l1 ++ x :: l2 ->
  cy E = Z.of_nat (length l1) ->
  0 <= cx E <= size x ->
  editorInsertNewline t1 t2 E =
  if cx E =? 0 then
    hd <- editorUpdateRow t1 (mk_erow [] []) ;;
    Some (set_cx 0 (set_cy (cy E + 1)
            (set_dirty (dirty E + 1) (set_row (l1 ++ hd :: x :: l2) E))))
  else
    tl <- editorUpdateRow t1 (mk_erow (skipn (Z.to_nat (cx E)) (chars x)) []) ;;
    hd <- editorUpdateRow t2
            (mk_erow (firstn (Z.to_nat (cx E)) (chars x)) (render x)) ;;
    Some (set_cx 0 (set_cy (cy E + 1)
            (set_dirty (dirty E + 1) (set_row (l1 ++ hd :: tl :: l2) E)))).
Proof.
  intros Hrow Hcy Hcx.
  destruct E as [cx0 cy0 rx0 ro co sr sc rows d fn sm].
  cbn [cx cy row] in *. subst cy0 rows.
  unfold editorInsertNewline. cfg.
  destruct (Z.eqb_spec cx0 0) as [Hz|Hnz].
  - subst cx0. erewrite (@editorInsertRow_at_eq _ _ _ t1) by reflexivity.
    destruct (editorUpdateRow t1 _) as [hd|]; reflexivity.
  - erewrite row_at_mid by reflexivity.
    unfold chars_from.
    destruct (Z.ltb_spec cx0 0); [lia|].
    destruct (Z.gtb_spec cx0 (size x)); [lia|].
    simpl orb. cbv iota.
    rewrite <- length_snoc_Z with (x := x).
    erewrite (@editorInsertRow_at_eq _ _ _ t1)
      by (cfg; rewrite snoc_app; reflexivity).
    destruct (editorUpdateRow t1 _) as [tl|]; [|reflexivity].
    cfg. rewrite snoc_app.
    erewrite row_at_mid by reflexivity.
    destruct (editorUpdateRow t2 _) as [hd|]; [|reflexivity].
    erewrite store_row_at by reflexivity.
    unfold set_cx, set_cy, set_dirty, set_row. cfg.
    rewrite ?length_snoc_Z. reflexivity.
Qed.

(** Whatever [tabs] holds, the split faults or gives these rows. *)
Lemma editorInsertNewline_split_cases (t1 t2 : Z) (E : editorConfig)
  (l1 l2 : list erow) (x : erow) :
  row E = l1 ++ x :: l2 ->
  cy E = Z.of_nat (length l1) ->
  0 <= cx E <= size x ->
  editorInsertNewline t1 t2 E = None \/
  exists hd tl,
    editorInsertNewline t1 t2 E =
    Some (set_cx 0 (set_cy (cy E + 1)
            (set_dirty (dirty E + 1) (set_row (l1 ++ hd :: tl :: l2) E)))) /\
    chars hd = firstn (Z.to_nat (cx E)) (chars x) /\
    chars tl = skipn (Z.to_nat (cx E)) (chars x) /\
    render hd = render_of (chars hd) /\
    (render x = render_of (chars x) -> render tl = render_of (chars tl)).
Proof.
  intros Hrow Hcy Hcx.
  rewrite (@editorInsertNewline_split_eq t1 t2 E l1 l2 x Hrow Hcy Hcx).
  destruct (Z.eqb_spec (cx E) 0) as [Hz|Hnz].
  - destruct (editorUpdateRow_cases t1 (mk_erow [] [])) as [-> | ->];
      [left; reflexivity|right].
    exists (updated_row (mk_erow [] [])), x. rewrite Hz.
    repeat split. auto.
  - match goal with |- context [editorUpdateRow t1 ?r] =>
      destruct (editorUpdateRow_cases t1 r) as [-> | ->] end;
      [left; reflexivity|].
    match goal with |- context [editorUpdateRow t2 ?r] =>
      destruct (editorUpdateRow_cases t2 r) as [-> | ->] end;
      [left; reflexivity|right].
    eexists. eexists. split; [reflexivity|]. repeat split.
Qed.

(** The split when both allocations suffice. *)
Lemma editorInsertNewline_split (t1 t2 n : Z) (E : editorConfig)
  (l1 l2 : list erow) (x : erow) :
  tabs_ok t1 n -> tabs_ok t2 n -> size x <= n ->
  row E = l1 ++ x :: l2 ->
  cy E = Z.of_nat (length l1) ->
  0 <= cx E <= size x ->
  exists hd tl,
    editorInsertNewline t1 t2 E =
    Some (set_cx 0 (set_cy (cy E + 1)
            (set_dirty (dirty E + 1) (set_row (l1 ++ hd :: tl :: l2) E)))) /\
    chars hd = firstn (Z.to_nat (cx E)) (chars x) /\
    chars tl = skipn (Z.to_nat (cx E)) (chars x).
Proof.
  intros Ht1 Ht2 Hn Hrow Hcy Hcx.
  assert (Hn0 : 0 <= n) by (unfold size in Hn; lia).
  rewrite (@editorInsertNewline_split_eq t1 t2 E l1 l2 x Hrow Hcy Hcx).
  destruct (Z.eqb_spec (cx E) 0) as [Hz|Hnz].
  - rewrite (@editorUpdateRow_ok t1 n _ Ht1) by exact Hn0.
    exists (updated_row (mk_erow [] [])), x. rewrite Hz. repeat split.
  - rewrite (@editorUpdateRow_ok t1 n _ Ht1)
      by (unfold size in *; cbn [chars]; rewrite length_skipn; lia).
    rewrite (@editorUpdateRow_ok t2 n _ Ht2)
      by (unfold size in *; cbn [chars]; rewrite length_firstn; lia).
    eexists. eexists. split; [reflexivity|]. split; reflexivity.
Qed.

(** The same split when the count of tabs of the first call comes out
    negative: the new row is not stored. *)
Lemma editorInsertNewline_faults (t1 t2 : Z) (E : editorConfig) (x : erow) :
  row_at E (cy E) = Some x ->
  0 <= cx E <= size x ->
  - 268435456 <= t1 < - size x ->
  editorInsertNewline t1 t2 E = None.
Proof.
  intros Hrow Hcx Ht.
  destruct (@nth_Z_split _ _ _ _ Hrow) as (l1 & l2 & Hr & Hi).
  assert (Hn : numrows E = Z.of_nat (length l1) + 1 + Z.of_nat (length l2))
    by (unfold numrows; rewrite Hr; apply length_mid_Z).
  unfold editorInsertNewline.
  destruct (Z.eqb_spec (cx E) 0) as [Hz|Hnz].
  - rewrite editorInsertRow_faults; [reflexivity|lia|lia|].
    unfold tabs_in, size in *. simpl. lia.
  - rewrite Hrow. unfold chars_from.
    destruct (Z.ltb_spec (cx E) 0); [lia|].
    destruct (Z.gtb_spec (cx E) (size x)); [lia|].
    cbn [orb]. rewrite editorInsertRow_faults; [reflexivity|lia|lia|].
    pose proof (tabs_in_bounds (skipn (Z.to_nat (cx E)) (chars x))) as Hb.
    rewrite length_skipn in Hb. unfold size in *. lia.
Qed.

(** C5.  With the cursor on an existing line [r] at a column [c] of that
    line, the split and the join are inverse to each other as far as the
    three calls of [editorUpdateRow] they make return, which the
    uninitialised [tabs] decides.  When [tabs] is neither negative nor
    too large for the size of the line on entry of each,
    [editorInsertNewline] succeeds and leaves the cursor at line [r+1],
    column 0, and [editorDelChar] run there succeeds and gives back the
    raw contents of every line, the number of lines and the cursor.
    When [tabs] is below minus the length of the line (and above -2^28)
    on entry of the first, [editorInsertNewline] stores outside the
    allocation of the new row and nothing is restored. *)
Theorem newline_then_delete_with_uninitialised_tabs
  (t1 t2 t3 : Z) (E : editorConfig) (x : erow)
  (Hrow : row_at E (cy E) = Some x)
  (Hcx : 0 <= cx E <= size x) :
  (tabs_ok t1 (size x) -> tabs_ok t2 (size x) -> tabs_ok t3 (size x) ->
   exists E1 E2,
     editorInsertNewline t1 t2 E = Some E1 /\
     cy E1 = cy E + 1 /\ cx E1 = 0 /\
     numrows E1 = numrows E + 1 /\
     editorDelChar t3 E1 = Some E2 /\
     contents E2 = contents E /\
     row_at E2 (cy E) = Some (updated_row x) /\
     numrows E2 = numrows E /\
     cy E2 = cy E /\ cx E2 = cx E) /\
  (- 268435456 <= t1 < - size x -> editorInsertNewline t1 t2 E = None).
Proof.
  split; [|intro Ht; apply (@editorInsertNewline_faults t1 t2 E x Hrow Hcx Ht)].
  intros Ht1 Ht2 Ht3.
  destruct (@nth_Z_split _ _ _ _ Hrow) as (l1 & l2 & Hr & Hi).
  destruct (@editorInsertNewline_split t1 t2 (size x) E l1 l2 x Ht1 Ht2
              (Z.le_refl _) Hr Hi Hcx)
    as (hd & tl & H1 & Hhd & Htl).
  eexists. eexists. split; [exact H1|].
  split; [reflexivity|]. split; [reflexivity|].
  split. { cfg. rewrite Hr, !length_mid_Z. simpl length. lia. }
  assert (Hy : chars hd ++ chars tl = chars x)
    by (rewrite Hhd, Htl; apply firstn_skipn).
  erewrite (@editorDelChar_join t3 (size x));
    [|exact Ht3| |reflexivity|cfg; lia|reflexivity].
  2:{ unfold size. rewrite <- Hy, length_app. lia. }
  split; [reflexivity|].
  split. { eapply contents_split_join; [exact Hr|reflexivity|exact Hy]. }
  split.
  { unfold row_at. cfg. rewrite Hi, nth_Z_length_app.
    unfold updated_row. cbn [chars]. rewrite Hy. reflexivity. }
  split. { cfg. rewrite Hr, !length_mid_Z. reflexivity. }
  split; [cfg; lia|].
  cfg. unfold size. rewrite Hhd, length_firstn. unfold size in Hcx. lia.
Qed.

Lemma newline_then_delete_with_uninitialised_tabs_witness :
  let E := mk_config 2 0 0 0 0 22 80 [mk_erow (lit "hello") (lit "hello")]
                     0 None [] in
  (exists E1 E2,
     editorInsertNewline 0 0 E = Some E1 /\ editorDelChar 0 E1 = Some E2 /\
     contents E1 = [lit "he"; lit "llo"] /\ contents E2 = [lit "hello"]) /\
  editorInsertNewline (-6) 0 E = None.
Proof.
  intro E.
  assert (Hrow : row_at E (cy E) = Some (mk_erow (lit "hello") (lit "hello")))
    by reflexivity.
  assert (Hcx : 0 <= cx E <= size (mk_erow (lit "hello") (lit "hello")))
    by (unfold size; simpl; lia).
  split.
  - destruct (@newline_then_delete_with_uninitialised_tabs 0 0 0 E _ Hrow Hcx)
      as [H _].
    destruct H as (E1 & E2 & H1 & _ & _ & _ & H2 & H3 & _);
      try (split; [lia|vm_compute; discriminate]).
    exists E1, E2. repeat split; try assumption.
    vm_compute in H1. inversion H1. reflexivity.
  - destruct (@newline_then_delete_with_uninitialised_tabs (-6) 0 0 E _ Hrow Hcx)
      as [_ H].
    apply H. unfold size. simpl. lia.
Defined.

(** ** Typing a character *)

Lemma nth_Z_app_other (A : Type) (l1 l2 : list A) (x y : A) (i : Z) :
  i <> Z.of_nat (length l1) ->
  nth_Z (l1 ++ x :: l2) i = nth_Z (l1 ++ y :: l2) i.
Proof.
  intro Hi. unfold nth_Z. destruct (Z.ltb_spec i 0); [reflexivity|].
  destruct (Nat.lt_ge_cases (Z.to_nat i) (length l1)) as [Hlt|Hge].
  - rewrite !nth_error_app1 by exact Hlt. reflexivity.
  - rewrite !nth_error_app2 by exact Hge.
    destruct (Z.to_nat i - length l1)%nat eqn:Hd; [lia|reflexivity].
Qed.

(** [editorInsertChar] with the cursor on an existing line, with the
    call of [editorUpdateRow] left as it is. *)
Lemma editorInsertChar_on_line_eq (t1 t2 : Z) (E : editorConfig)
  (l1 l2 : list erow) (x : erow) (c : Z) :
  row E = l1 ++ x :: l2 ->
  cy E = Z.of_nat (length l1) ->
  0 <= cx E <= size x ->
  editorInsertChar t1 t2 c E =
  (y <- editorUpdateRow t2
          (mk_erow (firstn (Z.to_nat (cx E)) (chars x) ++
                    char_of_key c :: skipn (Z.to_nat (cx E)) (chars x))
                   (render x)) ;;
   Some (set_cx (cx E + 1)
           (set_dirty (dirty E + 1) (set_row (l1 ++ y :: l2) E)))).
Proof.
  intros Hrow Hcy Hcx.
  destruct E as [cx0 cy0 rx0 ro co sr sc rows d fn sm].
  cbn [cx cy row] in *. subst cy0 rows.
  unfold editorInsertChar. cfg. rewrite length_mid_Z.
  destruct (Z.eqb_spec (Z.of_nat (length l1))
              (Z.of_nat (length l1) + 1 + Z.of_nat (length l2))); [lia|].
  cfg. erewrite (@editorRowInsertChar_at_eq _ _ _ t2) by reflexivity.
  destruct (Z.ltb_spec cx0 0); [lia|].
  destruct (Z.gtb_spec cx0 (size x)); [lia|].
  cbn [orb]. cbv zeta.
  destruct (editorUpdateRow t2 _) as [y|]; reflexivity.
Qed.

Lemma editorInsertChar_on_line (t1 t2 : Z) (E : editorConfig)
  (l1 l2 : list erow) (x : erow) (c : Z) :
  tabs_ok t2 (size x + 1) ->
  row E = l1 ++ x :: l2 ->
  cy E = Z.of_nat (length l1) ->
  0 <= cx E <= size x ->
  editorInsertChar t1 t2 c E =
  Some (set_cx (cx E + 1)
          (set_dirty (dirty E + 1)
             (set_row (l1 ++ updated_row
                               (mk_erow (firstn (Z.to_nat (cx E)) (chars x) ++
                                         char_of_key c :: skipn (Z.to_nat (cx E)) (chars x))
                                        (render x)) :: l2) E))).
Proof.
  intros Ht2 Hrow Hcy Hcx.
  rewrite (@editorInsertChar_on_line_eq t1 t2 E l1 l2 x c Hrow Hcy Hcx).
  rewrite (@editorUpdateRow_ok t2 _ _ Ht2); [reflexivity|].
  unfold size in *. cbn [chars]. rewrite length_app. cbn [length].
  rewrite length_firstn, length_skipn. lia.
Qed.

(** [editorInsertChar] with the cursor on the line after the last, with
    the two calls of [editorUpdateRow] left as they are. *)
Lemma editorInsertChar_past_end_eq (t1 t2 : Z) (E : editorConfig) (c : Z) :
  cy E = numrows E ->
  editorInsertChar t1 t2 c E =
  (r <- editorUpdateRow t1 (mk_erow [] []) ;;
   y <- editorUpdateRow t2 (mk_erow [char_of_key c] []) ;;
   Some (set_cx (cx E + 1)
           (set_dirty (dirty E + 2) (set_row (row E ++ [y]) E)))).
Proof.
  intros Hcy.
  destruct E as [cx0 cy0 rx0 ro co sr sc rows d fn sm].
  unfold numrows in Hcy. cbn [cx cy row] in *. subst cy0.
  unfold editorInsertChar. cfg. rewrite Z.eqb_refl.
  erewrite (@editorInsertRow_at_eq _ _ [] t1)
    by (cfg; rewrite app_nil_r; reflexivity).
  destruct (editorUpdateRow t1 (mk_erow [] [])) as [r|] eqn:Hr; [|reflexivity].
  apply editorUpdateRow_some in Hr. subst r.
  cfg. erewrite (@editorRowInsertChar_at_eq _ _ _ t2) by reflexivity.
  cbv zeta.
  replace (firstn _ (chars (updated_row (mk_erow [] [])))) with (@nil ascii)
    by (cbn [chars updated_row]; rewrite firstn_nil; reflexivity).
  replace (skipn _ (chars (updated_row (mk_erow [] [])))) with (@nil ascii)
    by (cbn [chars updated_row]; rewrite skipn_nil; reflexivity).
  simpl app. change (render (updated_row (mk_erow [] []))) with (@nil ascii).
  destruct (editorUpdateRow t2 _) as [y|]; [|reflexivity].
  unfold set_cx, set_dirty, set_row. cfg. do 2 f_equal. lia.
Qed.

Lemma editorInsertChar_past_end (t1 t2 : Z) (E : editorConfig) (c : Z) :
  tabs_ok t1 0 -> tabs_ok t2 1 ->
  cy E = numrows E ->
  editorInsertChar t1 t2 c E =
  Some (set_cx (cx E + 1)
          (set_dirty (dirty E + 2)
             (set_row (row E ++ [updated_row (mk_erow [char_of_key c] [])]) E))).
Proof.
  intros Ht1 Ht2 Hcy.
  rewrite (@editorInsertChar_past_end_eq t1 t2 E c Hcy).
  rewrite (@editorUpdateRow_ok t1 0 _ Ht1) by apply Z.le_refl.
  rewrite (@editorUpdateRow_ok t2 1 _ Ht2) by apply Z.le_refl.
  reflexivity.
Qed.

(** [editorInsertChar] when the count of tabs of the first call it
    makes comes out negative: that call stores outside its allocation. *)
Lemma editorInsertChar_faults (t1 t2 : Z) (E : editorConfig) (c : Z) :
  cursor_ok E ->
  (if cy E =? numrows E then - 268435456 <= t1 < 0
   else - 268435456 <= t2 <
        - (match row_at E (cy E) with Some r => size r | None => 0 end) - 1) ->
  editorInsertChar t1 t2 c E = None.
Proof.
  intros (Hcy & Hcx0 & Hcx) Ht. unfold editorInsertChar.
  destruct (Z.eqb_spec (cy E) (numrows E)) as [Hend|Hin].
  - rewrite editorInsertRow_faults; [reflexivity|lia|lia|].
    unfold tabs_in. simpl. lia.
  - assert (Hrange : 0 <= cy E < Z.of_nat (length (row E)))
      by (unfold numrows in *; lia).
    destruct (@nth_Z_in_range _ (row E) _ Hrange) as [x Hx].
    unfold row_at in *. rewrite Hx in Ht.
    unfold editorRowInsertChar, row_at. rewrite Hx.
    rewrite editorUpdateRow_faults; [reflexivity|lia|].
    cbn [chars].
    match goal with |- _ + tabs_in ?l < 0 => pose proof (tabs_in_bounds l) as Hb end.
    rewrite length_app in Hb. cbn [length] in Hb.
    rewrite length_firstn, length_skipn in Hb. unfold size in *. lia.
Qed.

Lemma undispatched_key (c : Z) :
  ~ In c dispatched_keys ->
  (c =? key_CR) = false /\ (c =? CTRL_KEY key_q) = false /\
  (c =? CTRL_KEY key_s) = false /\ (c =? HOME_KEY) = false /\
  (c =? END_KEY) = false /\ (c =? BACKSPACE) = false /\
  (c =? CTRL_KEY key_h) = false /\ (c =? DEL_KEY) = false /\
  (c =? PAGE_UP) = false /\ (c =? PAGE_DOWN) = false /\
  (c =? ARROW_UP) = false /\ (c =? ARROW_DOWN) = false /\
  (c =? ARROW_LEFT) = false /\ (c =? ARROW_RIGHT) = false /\
  (c =? CTRL_KEY key_l) = false /\ (c =? key_ESC) = false.
Proof.
  intro H.
  repeat split; apply Z.eqb_neq; intro Hc; apply H; rewrite Hc;
    unfold dispatched_keys, In; tauto.
Qed.

Lemma undispatched_key_default (io : save_io) (t1 t2 : Z) (w : world) (c : Z)
  (ks : list Z) :
  keys w = c :: ks ->
  ~ In c dispatched_keys ->
  editorProcessKeypress io t1 t2 w =
  match editorInsertChar t1 t2 c (ed w) with
  | Some E' => Ret (mk_world E' JATE_QUIT_TIMES ks)
  | None => Fault
  end.
Proof.
  intros Hk Hc. unfold editorProcessKeypress. rewrite Hk.
  destruct (@undispatched_key c Hc)
    as (H1 & H2 & H3 & H4 & H5 & H6 & H7 & H8 & H9 & H10 & H11 & H12 & H13
        & H14 & H15 & H16).
  rewrite H1, H2, H3, H4, H5, H6, H7, H8, H9, H10, H11, H12, H13, H14, H15, H16.
  reflexivity.
Qed.

(** C10.  A key without a case of its own in the switch, control bytes
    included, reaches the default case and [editorInsertChar], whose
    calls of [editorUpdateRow] read the uninitialised [tabs].  With the
    cursor inside the document and [tabs] neither negative nor too large
    for the size of the line on entry of each, the keypress returns
    normally, the character of the key is inserted in the cursor line at
    the cursor column (in a new last line when the cursor is on the line
    after the last), no other line changes, the cursor moves one column
    right, and the dirty counter grows by one, or by two when the new
    line had to be added.  With [tabs] negative (and above -2^28) on
    entry of the call for the new line, or below minus the length of
    the cursor line on entry of the call for that line, the call stores
    outside the allocation of [render] and the keypress does not
    return. *)
Theorem undispatched_key_with_uninitialised_tabs
  (io : save_io) (t1 t2 : Z) (w : world) (c : Z) (ks : list Z)
  (Hkeys : keys w = c :: ks)
  (Hc : ~ In c dispatched_keys)
  (Hcur : cursor_ok (ed w)) :
  let E := ed w in
  let old := match row_at E (cy E) with Some r => chars r | None => [] end in
  (tabs_ok t1 0 -> tabs_ok t2 (Z.of_nat (length old) + 1) ->
   exists E',
     editorProcessKeypress io t1 t2 w = Ret (mk_world E' JATE_QUIT_TIMES ks) /\
     option_map chars (row_at E' (cy E)) =
       Some (firstn (Z.to_nat (cx E)) old ++
             char_of_key c :: skipn (Z.to_nat (cx E)) old) /\
     (forall i, i <> cy E -> row_at E' i = row_at E i) /\
     cx E' = cx E + 1 /\ cy E' = cy E /\
     dirty E' = dirty E + (if cy E =? numrows E then 2 else 1) /\
     numrows E' = numrows E + (if cy E =? numrows E then 1 else 0)) /\
  ((if cy E =? numrows E then - 268435456 <= t1 < 0
    else - 268435456 <= t2 < - Z.of_nat (length old) - 1) ->
   editorProcessKeypress io t1 t2 w = Fault).
Proof.
  intros E old.
  rewrite (@undispatched_key_default io t1 t2 w c ks Hkeys Hc).
  fold E. split.
  2:{ intros Ht. rewrite editorInsertChar_faults; try assumption;
        [reflexivity|].
      unfold old in Ht. fold E.
      destruct (cy E =? numrows E); [exact Ht|].
      destruct (row_at E (cy E)); exact Ht. }
  intros Ht1 Ht2.
  destruct Hcur as (Hcy & Hcx0 & Hcx). fold E in Hcy, Hcx0, Hcx.
  destruct (Z.eqb_spec (cy E) (numrows E)) as [Hend|Hin].
  - assert (Hnone : row_at E (cy E) = None).
    { apply nth_Z_out_of_range. unfold numrows in Hend. lia. }
    assert (Ht2' : tabs_ok t2 1)
      by (unfold old in Ht2; rewrite Hnone in Ht2; exact Ht2).
    rewrite (@editorInsertChar_past_end t1 t2 E c Ht1 Ht2' Hend).
    eexists. split; [reflexivity|].
    unfold old. rewrite Hnone, firstn_nil, skipn_nil.
    split.
    { unfold row_at. cfg. rewrite Hend. unfold numrows.
      rewrite nth_Z_length_app. reflexivity. }
    split.
    { intros i Hi. unfold row_at. cfg.
      replace (row E) with (row E ++ []) at 2 by apply app_nil_r.
      unfold nth_Z. destruct (Z.ltb_spec i 0); [reflexivity|].
      destruct (Nat.lt_ge_cases (Z.to_nat i) (length (row E))) as [Hlt|Hge].
      - rewrite !nth_error_app1 by exact Hlt. reflexivity.
      - rewrite !nth_error_app2 by exact Hge.
        unfold numrows in Hend.
        destruct (Z.to_nat i - length (row E))%nat eqn:Hd; [lia|].
        simpl. destruct n; reflexivity. }
    cfg. rewrite length_snoc_Z. repeat split; lia.
  - assert (Hrange : 0 <= cy E < Z.of_nat (length (row E)))
      by (unfold numrows in *; lia).
    destruct (@nth_Z_in_range _ (row E) _ Hrange) as [x Hx].
    destruct (@nth_Z_split _ _ _ _ Hx) as (l1 & l2 & Hrow & Hi).
    assert (Hsz : 0 <= cx E <= size x) by (split; [lia|apply Hcx; exact Hx]).
    assert (Ht2' : tabs_ok t2 (size x + 1)).
    { unfold old, row_at in Ht2. rewrite Hx in Ht2. exact Ht2. }
    rewrite (@editorInsertChar_on_line t1 t2 E l1 l2 x c Ht2' Hrow Hi Hsz).
    eexists. split; [reflexivity|].
    unfold old, row_at. rewrite Hx.
    split. { cfg. rewrite Hi, nth_Z_length_app. reflexivity. }
    split. { intros i Hne. cfg. rewrite Hrow. apply nth_Z_app_other. lia. }
    cfg. rewrite Hrow, !length_mid_Z. repeat split; lia.
Qed.

Lemma undispatched_key_with_uninitialised_tabs_witness :
  let w := mk_world (mk_config 1 0 0 0 0 22 80 [mk_erow (lit "ab") (lit "ab")]
                               0 None [])
                    JATE_QUIT_TIMES [1] in
  (exists E',
     editorProcessKeypress WriteOk 0 0 w = Ret (mk_world E' JATE_QUIT_TIMES []) /\
     contents E' = [["a"%char; "001"%char; "b"%char]] /\
     cx E' = 2 /\ dirty E' = 1) /\
  editorProcessKeypress WriteOk 0 (-4) w = Fault.
Proof.
  intro w.
  assert (Hk : keys w = [1]) by reflexivity.
  assert (Hc : ~ In 1 dispatched_keys).
  { unfold dispatched_keys, In. vm_compute. intuition discriminate. }
  assert (Hcur : cursor_ok (ed w)).
  { unfold cursor_ok, w. cfg. repeat split; try (simpl; lia).
    intros r Hr. vm_compute in Hr. inversion Hr. vm_compute. discriminate. }
  split.
  - destruct (@undispatched_key_with_uninitialised_tabs WriteOk 0 0 w 1 []
                Hk Hc Hcur) as [H _].
    destruct H as (E' & H1 & _);
      try (split; [lia|vm_compute; discriminate]).
    exists E'. split; [exact H1|].
    vm_compute in H1. inversion H1. repeat split.
  - destruct (@undispatched_key_with_uninitialised_tabs WriteOk 0 (-4) w 1 []
                Hk Hc Hcur) as [_ H].
    apply H. simpl. lia.
Defined.

(** ** Page keys *)

Lemma cursor_rowlen_set_cx (v : Z) (E : editorConfig) :
  cursor_rowlen (set_cx v E) = cursor_rowlen E.
Proof. reflexivity. Qed.

Lemma cursor_rowlen_total (E : editorConfig) :
  0 <= cy E -> exists len, cursor_rowlen E = Some len.
Proof.
  intro H. unfold cursor_rowlen.
  destruct (Z.geb_spec (cy E) (numrows E)) as [|Hlt]; [eauto|].
  destruct (@nth_Z_in_range _ (row E) (cy E)) as [r Hr];
    [unfold numrows in Hlt; lia|].
  unfold row_at. rewrite Hr. eauto.
Qed.

(** Every call of [editorMoveCursor] leaves the column inside the line. *)
Lemma editorMoveCursor_clamps (key : Z) (E E' : editorConfig) :
  editorMoveCursor key E = Some E' ->
  exists len, cursor_rowlen E' = Some len /\ cx E' <= len.
Proof.
  unfold editorMoveCursor.
  destruct (editorMoveCursor_switch key E) as [E1|]; [|discriminate].
  destruct (cursor_rowlen E1) as [len|] eqn:Hlen; [|discriminate].
  intro H. inversion H; subst E'; clear H. exists len.
  destruct (Z.gtb_spec (cx E1) len).
  - rewrite cursor_rowlen_set_cx. split; [exact Hlen|]. cfg. lia.
  - split; [exact Hlen|lia].
Qed.

Lemma set_cx_same (E : editorConfig) : set_cx (cx E) E = E.
Proof. destruct E. reflexivity. Qed.

(** A key that is no arrow only triggers the final clamp. *)
Lemma editorMoveCursor_other_key (key : Z) (E : editorConfig) (len : Z) :
  key <> ARROW_LEFT -> key <> ARROW_RIGHT -> key <> ARROW_UP ->
  key <> ARROW_DOWN ->
  cursor_rowlen E = Some len -> cx E <= len ->
  editorMoveCursor key E = Some E.
Proof.
  intros H1 H2 H3 H4 Hlen Hcx. unfold editorMoveCursor, editorMoveCursor_switch.
  apply Z.eqb_neq in H1, H2, H3, H4. rewrite H1, H2, H3, H4, Hlen.
  destruct (Z.gtb_spec (cx E) len); [lia|reflexivity].
Qed.

Lemma move_times_last (n : nat) (key : Z) (E E' : editorConfig) :
  move_times (S n) key E = Some E' ->
  exists E1, editorMoveCursor key E1 = Some E'.
Proof.
  revert E. induction n as [|n IH]; intros E H.
  - cbn [move_times] in H. destruct (editorMoveCursor key E) as [E1|] eqn:H1;
      [|discriminate].
    inversion H; subst. eauto.
  - change (move_times (S (S n)) key E)
      with (E1 <- editorMoveCursor key E ;; move_times (S n) key E1) in H.
    destruct (editorMoveCursor key E) as [E1|]; [|discriminate].
    eapply IH. exact H.
Qed.

Lemma vertical_move_total (key : Z) (E : editorConfig) :
  key = ARROW_UP \/ key = ARROW_DOWN -> 0 <= cy E ->
  exists E', editorMoveCursor key E = Some E' /\ 0 <= cy E'.
Proof.
  intros Hk Hcy. unfold editorMoveCursor.
  assert (Hstep : exists E1,
    editorMoveCursor_switch key E = Some E1 /\ 0 <= cy E1).
  { unfold editorMoveCursor_switch.
    destruct Hk as [-> | ->]; cbn [Z.eqb ARROW_UP ARROW_DOWN ARROW_LEFT ARROW_RIGHT Pos.eqb].
    - eexists; split; [reflexivity|].
      destruct (Z.gtb_spec (cy E) 0); cfg; lia.
    - eexists; split; [reflexivity|].
      destruct (Z.ltb_spec (cy E) (numrows E)); cfg; lia. }
  destruct Hstep as (E1 & -> & Hcy1).
  destruct (cursor_rowlen_total E1 Hcy1) as [len ->].
  eexists. split; [reflexivity|].
  destruct (cx E1 >? len); cfg; exact Hcy1.
Qed.

Lemma move_times_total (n : nat) (key : Z) (E : editorConfig) :
  key = ARROW_UP \/ key = ARROW_DOWN -> 0 <= cy E ->
  exists E', move_times n key E = Some E'.
Proof.
  intro Hk. revert E. induction n as [|n IH]; intros E Hcy.
  - simpl. eauto.
  - cbn [move_times].
    destruct (vertical_move_total E Hk Hcy) as (E1 & -> & Hcy1).
    apply IH. exact Hcy1.
Qed.

(** C9 (as the code behaves).  PageUp and PageDown do fall through into
    the arrow cases, but there [editorMoveCursor] is called with the page
    key itself, which moves in no direction and only repeats the clamp of
    the column.  With a window of at least one text row and a
    non-negative row offset, the page jump (relocation plus [screenrows]
    vertical moves) succeeds and the keypress leaves the editor exactly
    in the state the page jump alone produces. *)
Theorem page_key_fallthrough_changes_nothing
  (io : save_io) (t1 t2 : Z) (w : world) (c : Z) (ks : list Z)
  (Hkeys : keys w = c :: ks)
  (Hc : c = PAGE_UP \/ c = PAGE_DOWN)
  (Hrows : 1 <= screenrows (ed w))
  (Hoff : 0 <= rowoff (ed w)) :
  exists E',
    page_jump c (ed w) = Some E' /\
    editorProcessKeypress io t1 t2 w = Ret (mk_world E' JATE_QUIT_TIMES ks).
Proof.
  set (E := ed w) in *.
  assert (Hjump : exists E', page_jump c E = Some E' /\
                             exists E1, editorMoveCursor (if c =? PAGE_UP then ARROW_UP else ARROW_DOWN) E1 = Some E').
  { unfold page_jump.
    set (E1 := if c =? PAGE_UP then _ else _).
    assert (HE1 : screenrows E1 = screenrows E /\ 0 <= cy E1).
    { unfold E1. destruct Hc as [-> | ->];
        cbn [Z.eqb PAGE_UP PAGE_DOWN Pos.eqb].
      - cfg. lia.
      - cfg. destruct (Z.gtb_spec (rowoff E + screenrows E - 1) (Z.of_nat (length (row E))));
          cfg; lia. }
    destruct HE1 as [Hsr Hcy1]. rewrite Hsr.
    destruct (Z.ltb_spec (screenrows E) 0); [lia|].
    destruct (Z.to_nat (screenrows E)) as [|n] eqn:Hn; [lia|].
    destruct (@move_times_total (S n) (if c =? PAGE_UP then ARROW_UP else ARROW_DOWN) E1)
      as [E' HE']; [destruct (c =? PAGE_UP); tauto|exact Hcy1|].
    exists E'. split; [exact HE'|]. eapply move_times_last. exact HE'. }
  destruct Hjump as (E' & Hj & E1 & Hlast).
  exists E'. split; [exact Hj|].
  unfold editorProcessKeypress. rewrite Hkeys. fold E. rewrite Hj.
  destruct (editorMoveCursor_clamps _ _ Hlast) as (len & Hlen & Hcx).
  rewrite (@editorMoveCursor_other_key c E' len);
    try (destruct Hc as [-> | ->]; discriminate); try assumption.
  destruct Hc as [-> | ->]; reflexivity.
Qed.

Lemma page_key_fallthrough_changes_nothing_witness :
  let E := mk_config 3 0 0 0 0 2 80
             [mk_erow (lit "abc") (lit "abc"); mk_erow (lit "d") (lit "d");
              mk_erow (lit "efgh") (lit "efgh")] 0 None [] in
  exists E',
    page_jump PAGE_DOWN E = Some E' /\
    editorProcessKeypress WriteOk 0 0 (mk_world E JATE_QUIT_TIMES [PAGE_DOWN]) =
      Ret (mk_world E' JATE_QUIT_TIMES []) /\
    (cx E', cy E') = (0, 3).
Proof.
  intro E.
  destruct (@page_key_fallthrough_changes_nothing WriteOk 0 0
              (mk_world E JATE_QUIT_TIMES [PAGE_DOWN]) PAGE_DOWN [])
    as (E' & H1 & H2).
  - reflexivity.
  - right. reflexivity.
  - simpl. lia.
  - simpl. lia.
  - exists E'. split; [exact H1|]. split; [exact H2|].
    vm_compute in H1. inversion H1. reflexivity.
Defined.

(** C9 as stated fails: after PageUp in a three-line document with the
    cursor on the last line, the keypress and the page jump alone end in
    the same state, so the cursor does not differ. *)
Lemma page_key_cursor_differs_counterexample :
  let w := mk_world three_line_editor JATE_QUIT_TIMES [PAGE_UP] in
  (exists E',
     page_jump PAGE_UP (ed w) = Some E' /\
     editorProcessKeypress WriteOk 0 0 w = Ret (mk_world E' JATE_QUIT_TIMES []) /\
     (cx E', cy E') = (3, 0)) /\
  ~ page_key_cursor_differs WriteOk 0 0 w PAGE_UP.
Proof.
  intro w. split.
  - eexists. split; [vm_compute; reflexivity|]. split; reflexivity.
  - vm_compute. intro H. apply H. reflexivity.
Qed.

(** ** The line prompt and saving *)

Lemma same_document_refl (E : editorConfig) : same_document E E.
Proof. repeat split. Qed.

Lemma same_document_trans (E1 E2 E3 : editorConfig) :
  same_document E1 E2 -> same_document E2 E3 -> same_document E1 E3.
Proof.
  unfold same_document. intros (A1 & A2 & A3 & A4 & A5) (B1 & B2 & B3 & B4 & B5).
  repeat split; congruence.
Qed.

Lemma same_document_cursor_ok (E E' : editorConfig) :
  same_document E E' -> cursor_ok E -> cursor_ok E'.
Proof.
  unfold same_document, cursor_ok, row_at, numrows.
  intros (H1 & _ & _ & H4 & H5). rewrite H1, H4, H5. tauto.
Qed.

Lemma editorSetStatusMessage_document (msg : list ascii) (E : editorConfig) :
  same_document E (editorSetStatusMessage msg E).
Proof. repeat split. Qed.

Lemma editorScroll_document (E E' : editorConfig) :
  editorScroll E = Some E' -> same_document E E'.
Proof.
  unfold editorScroll.
  destruct (cy (set_rx 0 E) <? numrows (set_rx 0 E)).
  - destruct (row_at (set_rx 0 E) (cy (set_rx 0 E))) as [r|]; [|discriminate].
    destruct (editorRowCxToRx r (cx (set_rx 0 E))) as [v|]; [|discriminate].
    intro H. inversion H; subst E'; clear H.
    repeat match goal with |- context [if ?b then _ else _] => destruct b end;
      repeat split.
  - intro H. inversion H; subst E'; clear H.
    repeat match goal with |- context [if ?b then _ else _] => destruct b end;
      repeat split.
Qed.

Lemma editorRowCxToRx_total (r : erow) (c : Z) :
  0 <= c <= size r -> exists v, editorRowCxToRx r c = Some v.
Proof.
  intro H. unfold editorRowCxToRx, size in *.
  pose proof (@editorRowCxToRx_loop_spec r (Z.to_nat c) 0) as Hs.
  simpl in Hs. rewrite Hs by lia. eauto.
Qed.

Lemma editorScroll_total (E : editorConfig) :
  cursor_ok E -> exists E', editorScroll E = Some E'.
Proof.
  intros (Hcy & Hcx0 & Hcx). unfold editorScroll.
  change (cy (set_rx 0 E)) with (cy E).
  change (cx (set_rx 0 E)) with (cx E).
  change (numrows (set_rx 0 E)) with (numrows E).
  change (row_at (set_rx 0 E) (cy E)) with (row_at E (cy E)).
  destruct (Z.ltb_spec (cy E) (numrows E)) as [Hlt|]; [|eauto].
  destruct (@nth_Z_in_range _ (row E) (cy E)) as [r Hr];
    [unfold numrows in Hlt; lia|].
  unfold row_at in *. rewrite Hr.
  destruct (@editorRowCxToRx_total r (cx E)) as [v Hv];
    [split; [lia|apply Hcx; exact Hr]|].
  rewrite Hv. eauto.
Qed.

(** No key makes the prompt return its buffer: every key that is not one
    of the erasing keys and not Escape cancels, and Escape is not
    CarriageReturn. *)
Lemma editorPrompt_key_never_commits (c : Z) (buf b : list ascii) :
  editorPrompt_key c buf <> PromptCommit b.
Proof.
  unfold editorPrompt_key.
  destruct ((c =? DEL_KEY) || (c =? CTRL_KEY key_h) || (c =? BACKSPACE));
    [discriminate|].
  destruct (Z.eqb_spec c key_ESC) as [->|]; [|discriminate].
  cbn. discriminate.
Qed.

Lemma editorPrompt_key_waits (c : Z) (buf : list ascii) :
  prompt_keeps_waiting c = true ->
  exists buf', editorPrompt_key c buf = PromptContinue buf'.
Proof.
  unfold prompt_keeps_waiting, editorPrompt_key.
  destruct ((c =? DEL_KEY) || (c =? CTRL_KEY key_h) || (c =? BACKSPACE));
    [eauto|].
  cbn [orb]. intro H. apply Z.eqb_eq in H. subst c. cbn. eauto.
Qed.

Lemma editorPrompt_key_cancels (c : Z) (buf : list ascii) :
  prompt_keeps_waiting c = false -> editorPrompt_key c buf = PromptCancel.
Proof.
  unfold prompt_keeps_waiting, editorPrompt_key.
  destruct ((c =? DEL_KEY) || (c =? CTRL_KEY key_h) || (c =? BACKSPACE));
    [discriminate|].
  cbn [orb]. intros ->. reflexivity.
Qed.

Lemma editorPrompt_loop_returns (prompt : list ascii -> list ascii)
  (ks : list Z) (buf : list ascii) (E E' : editorConfig)
  (res : option (list ascii)) (ks' : list Z) :
  editorPrompt_loop prompt buf E ks = Ret (res, E', ks') ->
  res = None /\ same_document E E' /\ statusmsg E' = [].
Proof.
  revert buf E. induction ks as [|c ks IH]; intros buf E; cbn [editorPrompt_loop].
  - destruct (editorRefreshScreen _); discriminate.
  - destruct (editorRefreshScreen (editorSetStatusMessage (prompt buf) E))
      as [E1|] eqn:H1; [|discriminate].
    assert (Hdoc : same_document E E1).
    { eapply same_document_trans; [apply editorSetStatusMessage_document|].
      apply editorScroll_document. exact H1. }
    destruct (editorPrompt_key c buf) as [buf'| |b] eqn:Hk.
    + intro H. destruct (IH _ _ H) as (Hres & Hd & Hm).
      split; [exact Hres|]. split; [|exact Hm].
      eapply same_document_trans; eassumption.
    + intro H. inversion H; subst. split; [reflexivity|]. split; [|reflexivity].
      eapply same_document_trans; [exact Hdoc|].
      apply editorSetStatusMessage_document.
    + exfalso. exact (@editorPrompt_key_never_commits c buf b Hk).
Qed.

Lemma editorPrompt_loop_cancelled (prompt : list ascii -> list ascii)
  (pre : list Z) (k : Z) (rest : list Z) (buf : list ascii) (E : editorConfig) :
  cursor_ok E ->
  forallb prompt_keeps_waiting pre = true ->
  prompt_keeps_waiting k = false ->
  exists E', editorPrompt_loop prompt buf E (pre ++ k :: rest) = Ret (None, E', rest).
Proof.
  revert buf E. induction pre as [|c pre IH]; intros buf E Hok Hpre Hk;
    cbn [app editorPrompt_loop].
  - destruct (@editorScroll_total (editorSetStatusMessage (prompt buf) E))
      as [E1 H1].
    { eapply same_document_cursor_ok; [apply editorSetStatusMessage_document|exact Hok]. }
    unfold editorRefreshScreen. rewrite H1, (@editorPrompt_key_cancels k buf Hk). eauto.
  - cbn [forallb] in Hpre. apply andb_prop in Hpre. destruct Hpre as [Hc Hpre].
    destruct (@editorScroll_total (editorSetStatusMessage (prompt buf) E))
      as [E1 H1].
    { eapply same_document_cursor_ok; [apply editorSetStatusMessage_document|exact Hok]. }
    unfold editorRefreshScreen. rewrite H1.
    destruct (@editorPrompt_key_waits c buf Hc) as [buf' ->].
    apply IH; try assumption.
    eapply same_document_cursor_ok; [|exact Hok].
    eapply same_document_trans; [apply editorSetStatusMessage_document|].
    apply editorScroll_document. exact H1.
Qed.

Lemma editorSave_write_fails (io : save_io) (E : editorConfig) :
  io <> WriteOk ->
  exists err,
    editorSave_write io E =
    editorSetStatusMessage (lit "Can't save! I/O error: " ++ err) E.
Proof.
  intro H. unfold editorSave_write. destruct (editorRowsToString E) as [buf len].
  destruct io as [err|err|err|]; try (exists err; reflexivity). contradiction.
Qed.

Lemma editorScroll_statusmsg (m : list ascii) (E : editorConfig) :
  editorScroll (set_statusmsg m E) = option_map (set_statusmsg m) (editorScroll E).
Proof.
  destruct E as [cx0 cy0 rx0 ro co sr sc rows d fn sm].
  unfold editorScroll, row_at, numrows.
  cbv beta iota zeta delta
    [cx cy rx rowoff coloff screenrows screencols row dirty filename
     statusmsg set_cx set_cy set_rx set_rowoff set_coloff set_row
     set_dirty set_filename set_statusmsg].
  destruct (cy0 <? Z.of_nat (length rows)).
  - destruct (nth_Z rows cy0) as [r|]; [|reflexivity].
    destruct (editorRowCxToRx r cx0) as [v|]; [|reflexivity].
    cbv beta iota zeta delta
      [cx cy rx rowoff coloff screenrows screencols row dirty filename
       statusmsg set_cx set_cy set_rx set_rowoff set_coloff set_row
       set_dirty set_filename set_statusmsg option_map].
    destruct (cy0 <? ro); destruct (cy0 >=? _ + sr); destruct (v <? co);
      destruct (v >=? _ + sc); reflexivity.
  - cbv beta iota zeta delta
      [cx cy rx rowoff coloff screenrows screencols row dirty filename
       statusmsg set_cx set_cy set_rx set_rowoff set_coloff set_row
       set_dirty set_filename set_statusmsg option_map].
    destruct (cy0 <? ro); destruct (cy0 >=? _ + sr); destruct (0 <? co);
      destruct (0 >=? _ + sc); reflexivity.
Qed.

Lemma set_statusmsg_twice (m m' : list ascii) (E : editorConfig) :
  set_statusmsg m' (set_statusmsg m E) = set_statusmsg m' E.
Proof. reflexivity. Qed.

(** In an editor that is already scrolled to its cursor, the prompt
    changes the status message only. *)
Lemma editorPrompt_loop_scrolled (prompt : list ascii -> list ascii)
  (ks : list Z) (buf m : list ascii) (E E' : editorConfig)
  (res : option (list ascii)) (ks' : list Z) :
  editorScroll E = Some E ->
  editorPrompt_loop prompt buf (set_statusmsg m E) ks = Ret (res, E', ks') ->
  E' = set_statusmsg [] E.
Proof.
  intro Hfix. revert buf m. induction ks as [|c ks IH]; intros buf m;
    cbn [editorPrompt_loop]; unfold editorRefreshScreen, editorSetStatusMessage;
    rewrite set_statusmsg_twice, editorScroll_statusmsg, Hfix; cbn [option_map].
  - discriminate.
  - destruct (editorPrompt_key c buf) as [buf'| |b].
    + apply IH.
    + intro H. inversion H. reflexivity.
    + intro H. inversion H. reflexivity.
Qed.

Lemma editorSave_aborted_scrolled (io : save_io) (E E' : editorConfig)
  (ks ks' : list Z) :
  editorScroll E = Some E -> filename E = None ->
  editorSave io E ks = Ret (E', ks') ->
  E' = set_statusmsg (lit "Save aborted") E.
Proof.
  intros Hfix Hf. unfold editorSave, editorPrompt. rewrite Hf.
  destruct (editorPrompt_loop _ [] E ks) as [[[res E1] ks1]| | |] eqn:Hp;
    try discriminate.
  destruct (@editorPrompt_loop_returns _ _ _ _ _ _ _ Hp) as (-> & _ & _).
  replace E with (set_statusmsg (statusmsg E) E) in Hp at 1
    by (destruct E; reflexivity).
  rewrite (@editorPrompt_loop_scrolled _ _ _ _ _ _ _ _ Hfix Hp).
  intro H. inversion H.
  destruct E as [cx0 cy0 rx0 ro co sr sc rows d fn sm].
  cbn [filename] in Hf. subst fn. reflexivity.
Qed.

(** C3.  A failing save returns to its caller and leaves the document as
    it was.  With a file name bound and a failing [open], [ftruncate] or
    [write], [editorSave] returns at once with only the status message
    changed.  Without a file name, as soon as the prompt receives a key
    other than the erasing keys and Escape, [editorSave] returns with the
    message "Save aborted" and the same lines, dirty counter, file name
    and cursor.  [editorSave] never exits the process; whenever it
    returns without a file name having been bound before, the document is
    unchanged, and in an editor already scrolled to its cursor (as it is
    after every refresh of the main loop) nothing but the status message
    differs. *)
Theorem editorSave_failure_keeps_document
  (io : save_io) (E : editorConfig) (Hcur : cursor_ok E) :
  (forall f ks, filename E = Some f -> io <> WriteOk ->
     exists err,
       editorSave io E ks =
       Ret (editorSetStatusMessage (lit "Can't save! I/O error: " ++ err) E, ks)) /\
  (forall pre k rest,
     filename E = None ->
     forallb prompt_keeps_waiting pre = true ->
     prompt_keeps_waiting k = false ->
     exists E',
       editorSave io E (pre ++ k :: rest) = Ret (E', rest) /\
       same_document E E' /\ numrows E' = numrows E /\
       statusmsg E' = lit "Save aborted") /\
  (forall ks s, editorSave io E ks <> Exit s) /\
  (forall ks E' ks',
     filename E = None -> editorSave io E ks = Ret (E', ks') ->
     same_document E E' /\ statusmsg E' = lit "Save aborted") /\
  (forall ks E' ks',
     filename E = None -> editorScroll E = Some E ->
     editorSave io E ks = Ret (E', ks') ->
     E' = set_statusmsg (lit "Save aborted") E).
Proof.
  assert (Hnone : forall ks E' ks',
     filename E = None -> editorSave io E ks = Ret (E', ks') ->
     same_document E E' /\ statusmsg E' = lit "Save aborted").
  { intros ks E' ks' Hf. unfold editorSave, editorPrompt. rewrite Hf.
    destruct (editorPrompt_loop _ [] E ks) as [[[res E1] ks1]| | |] eqn:Hp;
      try discriminate.
    destruct (@editorPrompt_loop_returns _ _ _ _ _ _ _ Hp) as (-> & Hd & _).
    intro H. inversion H; subst. split; [|reflexivity].
    destruct Hd as (D1 & D2 & D3 & D4 & D5).
    repeat split; cfg; try assumption. symmetry. exact Hf. }
  split.
  { intros f ks Hf Hio. unfold editorSave. rewrite Hf.
    destruct (@editorSave_write_fails io E Hio) as [err ->]. eauto. }
  split.
  { intros pre k rest Hf Hpre Hk.
    destruct (@editorPrompt_loop_cancelled (fun buf => lit "Save as: " ++ buf)
                pre k rest [] E Hcur Hpre Hk) as [E1 H1].
    assert (Hs : editorSave io E (pre ++ k :: rest) =
                 Ret (editorSetStatusMessage (lit "Save aborted")
                        (set_filename None E1), rest)).
    { unfold editorSave, editorPrompt. rewrite Hf, H1. reflexivity. }
    eexists. split; [exact Hs|].
    destruct (Hnone _ _ _ Hf Hs) as [Hd Hm].
    split; [exact Hd|]. split; [|exact Hm].
    unfold numrows. destruct Hd as [-> _]. reflexivity. }
  split; [|split; [exact Hnone|]].
  2:{ intros ks E' ks' Hf Hfix H.
      exact (@editorSave_aborted_scrolled io E E' ks ks' Hfix Hf H). }
  intros ks s. unfold editorSave, editorPrompt.
  destruct (filename E); [discriminate|].
  destruct (editorPrompt_loop _ [] E ks) as [[[res E1] ks1]| | |] eqn:Hp;
    try discriminate.
  - destruct res; discriminate.
  - exfalso. revert Hp. generalize (@nil ascii) as buf. generalize E as E0.
    induction ks as [|c ks IH]; intros E0 buf; cbn [editorPrompt_loop].
    + destruct (editorRefreshScreen _); discriminate.
    + destruct (editorRefreshScreen _); [|discriminate].
      destruct (editorPrompt_key c buf); try discriminate. apply IH.
Qed.

Lemma editorSave_failure_keeps_document_witness :
  let E := mk_config 1 0 0 0 0 22 80 [mk_erow (lit "x") (lit "x")] 1 None [] in
  exists E',
    editorSave WriteOk E [key_ESC; 97; 98] = Ret (E', [98]) /\
    contents E' = [lit "x"] /\ dirty E' = 1 /\
    statusmsg E' = lit "Save aborted".
Proof.
  intro E.
  destruct (@editorSave_failure_keeps_document WriteOk E) as (_ & H & _).
  - unfold cursor_ok, E. cfg. repeat split; try (simpl; lia).
    intros r Hr. vm_compute in Hr. inversion Hr. vm_compute. discriminate.
  - destruct (H [key_ESC] 97 [98]) as (E' & H1 & (D1 & D2 & _) & _ & Hm);
      try reflexivity.
    exists E'. split; [exact H1|]. unfold contents. rewrite D1, D2.
    repeat split. exact Hm.
Defined.

(** ** Quitting with unsaved changes *)

Lemma quit_press_warns (io : save_io) (t1 t2 : Z) (E : editorConfig) (n : Z)
  (ks : list Z) :
  dirty E <> 0 -> n > 0 ->
  editorProcessKeypress io t1 t2 (mk_world E n (key_quit :: ks)) =
  Ret (mk_world (editorSetStatusMessage (quit_warning n) E) (n - 1) ks).
Proof.
  intros Hd Hn. unfold editorProcessKeypress. cfg.
  change key_quit with 17. change (CTRL_KEY key_q) with 17.
  change (17 =? key_CR) with false. change (17 =? 17) with true. cbv iota.
  destruct (Z.eqb_spec (dirty E) 0); [contradiction|].
  destruct (Z.gtb_spec n 0); [|lia]. reflexivity.
Qed.

Lemma quit_press_exits (io : save_io) (t1 t2 : Z) (E : editorConfig) (n : Z)
  (ks : list Z) :
  dirty E = 0 \/ n <= 0 ->
  editorProcessKeypress io t1 t2 (mk_world E n (key_quit :: ks)) = Exit 0.
Proof.
  intros H. unfold editorProcessKeypress. cfg.
  change key_quit with 17. change (CTRL_KEY key_q) with 17.
  change (17 =? key_CR) with false. change (17 =? 17) with true. cbv iota.
  destruct (Z.eqb_spec (dirty E) 0); [reflexivity|].
  destruct (Z.gtb_spec n 0); [lia|]. reflexivity.
Qed.

Lemma leave_resets (o : option editorConfig) (ks : list Z) (w' : world) :
  match o with
  | Some E' => Ret (mk_world E' JATE_QUIT_TIMES ks)
  | None => Fault
  end = Ret w' ->
  quit_times w' = JATE_QUIT_TIMES.
Proof. destruct o; intro H; inversion H; reflexivity. Qed.

Lemma other_key_resets (io : save_io) (t1 t2 : Z) (w w' : world) (c : Z)
  (ks : list Z) :
  keys w = c :: ks -> c <> key_quit ->
  editorProcessKeypress io t1 t2 w = Ret w' ->
  quit_times w' = JATE_QUIT_TIMES.
Proof.
  intros Hk Hc H. unfold editorProcessKeypress in H. rewrite Hk in H.
  cbv zeta in H.
  assert (Hleave : forall o,
            match o with
            | Some E' => Ret (mk_world E' JATE_QUIT_TIMES ks)
            | None => Fault
            end = Ret w' -> quit_times w' = JATE_QUIT_TIMES)
    by (intros o; apply leave_resets).
  destruct (c =? key_CR); [exact (Hleave _ H)|].
  destruct (Z.eqb_spec c (CTRL_KEY key_q)); [contradiction|].
  destruct (c =? CTRL_KEY key_s).
  { destruct (editorSave io (ed w) ks) as [[E' ks']| | |];
      inversion H; reflexivity. }
  destruct (c =? HOME_KEY); [exact (Hleave (Some _) H)|].
  destruct (c =? END_KEY); [exact (Hleave _ H)|].
  destruct ((c =? BACKSPACE) || (c =? CTRL_KEY key_h) || (c =? DEL_KEY));
    [exact (Hleave _ H)|].
  destruct ((c =? PAGE_UP) || (c =? PAGE_DOWN)); [exact (Hleave _ H)|].
  destruct ((c =? ARROW_UP) || (c =? ARROW_DOWN) || (c =? ARROW_LEFT)
            || (c =? ARROW_RIGHT)); [exact (Hleave _ H)|].
  destruct ((c =? CTRL_KEY key_l) || (c =? key_ESC));
    [exact (Hleave (Some _) H)|].
  exact (Hleave _ H).
Qed.

(** The text of the warning for the counts the editor reaches. *)
Lemma quit_warning_text (n : Z) :
  1 <= n <= 3 ->
  firstn 79 (quit_warning n) =
  lit "WARNING!!! File has unsaved changes. Press Ctrl-q " ++ fmt_d n ++
  lit " more times to quit".
Proof.
  intro Hn.
  assert (H : n = 1 \/ n = 2 \/ n = 3) by lia.
  destruct H as [-> | [-> | ->]]; reflexivity.
Qed.

(** [k] rounds of the main loop on [k] quit presses, with enough
    confirmations left, all end in a warning; the message left is the
    warning of the last press. *)
Lemma quit_rounds_warn (io : save_io) (g : nat -> Z) (k : nat)
  (E : editorConfig) (count : Z) (ks : list Z) :
  dirty E <> 0 -> cursor_ok E -> Z.of_nat k <= count ->
  exists E',
    editor_loop k io g (mk_world E count (repeat key_quit k ++ ks)) =
      Ret (mk_world E' (count - Z.of_nat k) ks) /\
    same_document E E' /\
    (k <> 0%nat ->
     statusmsg E' = firstn 79 (quit_warning (count - Z.of_nat k + 1))).
Proof.
  revert g E count. induction k as [|k IH]; intros g E count Hd Hok Hk.
  - exists E. split; [|split; [apply same_document_refl|intro H; contradiction]].
    cbn. f_equal. f_equal. lia.
  - cbn [editor_loop repeat app]. cfg. unfold editorRefreshScreen.
    destruct (@editorScroll_total E Hok) as [E1 H1]. rewrite H1.
    pose proof (@editorScroll_document E E1 H1) as Hdoc.
    assert (Hd1 : dirty E1 <> 0) by (destruct Hdoc as (_ & -> & _); exact Hd).
    rewrite quit_press_warns by (try exact Hd1; lia).
    set (E2 := editorSetStatusMessage (quit_warning count) E1).
    assert (Hdoc2 : same_document E E2).
    { eapply same_document_trans; [exact Hdoc|].
      apply editorSetStatusMessage_document. }
    destruct (IH (fun i => g (S (S i))) E2 (count - 1)) as (E' & HE' & Hdoc' & Hmsg).
    + exact Hd1.
    + eapply same_document_cursor_ok; [exact Hdoc2|exact Hok].
    + lia.
    + exists E'. split; [|split].
      * rewrite HE'. f_equal. f_equal. lia.
      * eapply same_document_trans; eassumption.
      * intros _. destruct k as [|k'].
        -- cbn in HE'. inversion HE'. subst E'. unfold E2.
           unfold editorSetStatusMessage. cfg. do 2 f_equal. lia.
        -- rewrite Hmsg by discriminate. do 2 f_equal. lia.
Qed.

(** One press more than the confirmations left ends the program. *)
Lemma quit_rounds_exit (io : save_io) (g : nat -> Z) (k : nat)
  (E : editorConfig) (ks : list Z) :
  dirty E <> 0 -> cursor_ok E ->
  editor_loop (S k) io g
    (mk_world E (Z.of_nat k) (repeat key_quit (S k) ++ ks)) = Exit 0.
Proof.
  revert g E. induction k as [|k IH]; intros g E Hd Hok;
    cbn [editor_loop repeat app]; cfg; unfold editorRefreshScreen;
    destruct (@editorScroll_total E Hok) as [E1 H1]; rewrite H1;
    pose proof (@editorScroll_document E E1 H1) as Hdoc.
  - rewrite quit_press_exits; [reflexivity|]. right. cfg. lia.
  - assert (Hd1 : dirty E1 <> 0) by (destruct Hdoc as (_ & -> & _); exact Hd).
    rewrite quit_press_warns by (try exact Hd1; lia).
    replace (Z.of_nat (S k) - 1) with (Z.of_nat k) by lia.
    apply (IH (fun i => g (S (S i)))).
    + exact Hd1.
    + eapply same_document_cursor_ok; [|exact Hok].
      eapply same_document_trans; [exact Hdoc|].
      apply editorSetStatusMessage_document.
Qed.

(** C2, as the code has it.  With unsaved changes the editor leaves on
    the quit combo at the fourth of four consecutive presses, not at the
    third.  A quit press while the confirmation count is positive
    returns to the loop, sets the warning and lowers the count by one; a
    quit press at count zero exits with status 0; any other key that is
    processed to the end sets the count back to 3.  Hence, in the main
    loop started with the count 3, the first, second and third
    consecutive quit press are answered by the warning that asks for 3,
    2 and 1 more presses, the editor keeps running with the document as
    it is, and the press that follows the third exits. *)
Theorem dirty_quit_exits_on_fourth_press
  (io : save_io) (g : nat -> Z) (E : editorConfig) (ks : list Z)
  (Hdirty : dirty E <> 0) (Hcur : cursor_ok E) :
  (forall t1 t2 n, n > 0 ->
     editorProcessKeypress io t1 t2 (mk_world E n (key_quit :: ks)) =
     Ret (mk_world (editorSetStatusMessage (quit_warning n) E) (n - 1) ks)) /\
  (forall t1 t2 n, n <= 0 ->
     editorProcessKeypress io t1 t2 (mk_world E n (key_quit :: ks)) = Exit 0) /\
  (forall t1 t2 n c w', c <> key_quit ->
     editorProcessKeypress io t1 t2 (mk_world E n (c :: ks)) = Ret w' ->
     quit_times w' = JATE_QUIT_TIMES) /\
  (forall k, (1 <= k <= 3)%nat ->
     exists E',
       editor_loop k io g
         (mk_world E JATE_QUIT_TIMES (repeat key_quit k ++ ks)) =
         Ret (mk_world E' (JATE_QUIT_TIMES - Z.of_nat k) ks) /\
       same_document E E' /\
       statusmsg E' =
         lit "WARNING!!! File has unsaved changes. Press Ctrl-q " ++
         fmt_d (4 - Z.of_nat k) ++ lit " more times to quit") /\
  editor_loop 4 io g (mk_world E JATE_QUIT_TIMES (repeat key_quit 4 ++ ks)) =
    Exit 0.
Proof.
  split; [intros t1 t2 n Hn; apply quit_press_warns; assumption|].
  split; [intros t1 t2 n Hn; apply quit_press_exits; right; exact Hn|].
  split.
  { intros t1 t2 n c w' Hc H.
    eapply other_key_resets; [|exact Hc|exact H]. reflexivity. }
  split.
  { intros k Hk.
    destruct (@quit_rounds_warn io g k E JATE_QUIT_TIMES ks)
      as (E' & HE' & Hdoc & Hmsg); try assumption.
    { unfold JATE_QUIT_TIMES. lia. }
    exists E'. split; [exact HE'|]. split; [exact Hdoc|].
    rewrite Hmsg by lia. unfold JATE_QUIT_TIMES.
    replace (3 - Z.of_nat k + 1) with (4 - Z.of_nat k) by lia.
    apply quit_warning_text. lia. }
  apply (@quit_rounds_exit io g 3 E ks Hdirty Hcur).
Qed.

Lemma dirty_quit_exits_on_fourth_press_witness :
  let E := mk_config 1 0 0 0 0 22 80 [mk_erow (lit "x") (lit "x")] 1 None [] in
  (exists E', editor_loop 3 WriteOk (fun _ => 0) (mk_world E 3 [17; 17; 17]) =
                Ret (mk_world E' 0 []) /\ dirty E' = 1 /\
              statusmsg E' =
                lit "WARNING!!! File has unsaved changes. Press Ctrl-q 1 more times to quit") /\
  editor_loop 4 WriteOk (fun _ => 0) (mk_world E 3 [17; 17; 17; 17]) = Exit 0.
Proof.
  intro E.
  destruct (@dirty_quit_exits_on_fourth_press WriteOk (fun _ => 0) E [])
    as (_ & _ & _ & H3 & H4).
  - simpl. lia.
  - unfold cursor_ok, E. cfg. repeat split; try (simpl; lia).
    intros r Hr. vm_compute in Hr. inversion Hr. vm_compute. discriminate.
  - split; [|exact H4].
    destruct (H3 3%nat (conj (le_S _ _ (le_S _ _ (le_n 1))) (le_n 3)))
      as (E' & Hw & (_ & Hd & _) & Hm).
    exists E'. split; [exact Hw|]. split; [exact Hd|exact Hm].
Defined.

(** C2 as stated fails: after three consecutive quit presses on a
    document with unsaved changes the editor has not left; it is back in
    its loop with the count at zero. *)
Lemma quits_on_third_press_counterexample :
  dirty unsaved_editor <> 0 /\
  (exists E', editor_loop 3 WriteOk (fun _ => 0)
                (mk_world unsaved_editor JATE_QUIT_TIMES
                   [key_quit; key_quit; key_quit]) =
              Ret (mk_world E' 0 [])) /\
  ~ quits_on_third_press WriteOk (fun _ => 0) unsaved_editor.
Proof.
  split; [discriminate|]. split.
  - eexists. vm_compute. reflexivity.
  - intros [status H]. vm_compute in H. discriminate.
Qed.
(** ** Loading and serializing *)

Lemma last_ok_snoc (l : list ascii) (c : ascii) :
  last_ok (l ++ [c]) = negb (is_eol c).
Proof.
  induction l as [|d l IH]; [reflexivity|].
  cbn [app last_ok]. destruct (l ++ [c]) eqn:H; [|exact IH].
  destruct l; discriminate.
Qed.

Lemma strip_eol_clean (l : list ascii) : last_ok l = true -> strip_eol l = l.
Proof.
  destruct l as [|d l'] using rev_ind; [reflexivity|].
  rewrite last_ok_snoc. intro H. unfold strip_eol.
  rewrite rev_app_distr. cbn [rev app strip_eol_rev].
  fold (is_eol d). apply negb_true_iff in H. rewrite H.
  cbn [rev]. rewrite rev_involutive. reflexivity.
Qed.

Lemma strip_eol_snoc_lf (l : list ascii) : strip_eol (l ++ [ch_lf]) = strip_eol l.
Proof.
  unfold strip_eol. rewrite rev_app_distr. reflexivity.
Qed.






Lemma rows_to_string_length (rows : list erow) :
  snd (rows_to_string rows) = Z.of_nat (length (fst (rows_to_string rows))).
Proof.
  induction rows as [|r rows IH]; [reflexivity|].
  cbn [rows_to_string]. destruct (rows_to_string rows) as [buf n].
  cbn [fst snd] in *. rewrite length_app. cbn [length]. unfold size. lia.
Qed.

Lemma strip_eol_rev_length (l : list ascii) :
  (length (strip_eol_rev l) <= length l)%nat.
Proof.
  induction l as [|c l IH]; [apply le_n|].
  cbn [strip_eol_rev]. destruct (Ascii.eqb c ch_lf || Ascii.eqb c ch_cr).
  - cbn [length]. lia.
  - apply le_n.
Qed.

Lemma strip_eol_length (l : list ascii) :
  (length (strip_eol l) <= length l)%nat.
Proof.
  unfold strip_eol. rewrite length_rev.
  pose proof (strip_eol_rev_length (rev l)) as H.
  rewrite length_rev in H. exact H.
Qed.

Lemma file_lines_from_length (s cur : list ascii) :
  Forall (fun l => (length l <= length cur + length s)%nat)
    (file_lines_from cur s).
Proof.
  revert cur. induction s as [|c s IH]; intro cur.
  - cbn [file_lines_from]. destruct cur; constructor; [|constructor].
    cbn [length]. lia.
  - cbn [file_lines_from]. destruct (Ascii.eqb c ch_lf).
    + constructor.
      * rewrite length_app. cbn [length]. lia.
      * eapply Forall_impl; [|apply (IH [])].
        cbn [length]. intros l Hl. lia.
    + eapply Forall_impl; [|apply (IH (cur ++ [c]))].
      intros l Hl. rewrite length_app in Hl. cbn [length] in *. lia.
Qed.

Lemma file_lines_length (content : list ascii) :
  Forall (fun l => Z.of_nat (length l) <= Z.of_nat (length content))
    (file_lines content).
Proof.
  eapply Forall_impl; [|apply (file_lines_from_length content [])].
  cbn [length]. intros l Hl. lia.
Qed.

(** The loop of [editorOpen] appends one row per line read, as long as
    [tabs] on entry of [editorUpdateRow] is neither negative nor too
    large for lines of up to [n] characters. *)
Lemma editorOpen_loop_rows (g : nat -> Z) (n : Z) (lines : list (list ascii))
  (E : editorConfig) :
  (forall k, (k < length lines)%nat -> tabs_ok (g k) n) ->
  Forall (fun l => Z.of_nat (length l) <= n) lines ->
  editorOpen_loop g lines E =
  Some (set_dirty (dirty E + Z.of_nat (length lines))
          (set_row (row E ++ map loaded_row lines) E)).
Proof.
  revert g E. induction lines as [|l lines IH]; intros g E Hg Hn.
  - cbn [editorOpen_loop map length]. rewrite app_nil_r, Z.add_0_r.
    destruct E; reflexivity.
  - inversion Hn as [|? ? Hl Hrest]; subst.
    assert (Ht : tabs_ok (g 0%nat) n) by (apply Hg; cbn [length]; lia).
    cbn [editorOpen_loop map]. unfold numrows.
    rewrite (@editorInsertRow_at E (row E) [] (g 0%nat) n Ht (strip_eol l)).
    + rewrite IH by (try exact Hrest; intros k Hk; apply Hg; cbn [length]; lia).
      cfg. rewrite <- app_assoc. cbn [app length].
      unfold set_dirty, set_row. cfg. do 2 f_equal. lia.
    + pose proof (strip_eol_length l). lia.
    + rewrite app_nil_r. reflexivity.
Qed.






(** ** Keys in the line prompt *)

(** C1.  In the loop of [editorPrompt] the test that should recognise
    Escape is [c != '\x1b']: Escape leaves the prompt waiting with its
    buffer as it is, while CarriageReturn and the printable key [a]
    cancel the prompt, whatever the buffer holds; Backspace removes the
    last buffered character.  A save without a file name is therefore
    aborted by the first character typed for the name. *)
Theorem editorPrompt_key_cancels_on_text (buf : list ascii) :
  editorPrompt_key key_ESC buf = PromptContinue buf /\
  editorPrompt_key key_CR buf = PromptCancel /\
  editorPrompt_key 97 buf = PromptCancel /\
  editorPrompt_key BACKSPACE buf = PromptContinue (removelast buf) /\
  (exists E',
     editorSave WriteOk unsaved_editor [key_ESC; 97; 13] = Ret (E', [13]) /\
     filename E' = None /\ statusmsg E' = lit "Save aborted").
Proof.
  split; [reflexivity|]. split; [reflexivity|]. split; [reflexivity|].
  split; [destruct buf; reflexivity|].
  eexists. split; [vm_compute; reflexivity|]. split; reflexivity.
Qed.

(** ** Bounds of the row primitives *)

Lemma row_primitives_out_of_range (tabs0 at_ : Z) (s : list ascii)
  (E : editorConfig) :
  at_ < 0 \/ at_ > numrows E ->
  editorInsertRow tabs0 at_ s E = Some E /\ editorDelRow at_ E = Some E.
Proof.
  intro H. unfold editorInsertRow, editorDelRow.
  destruct (Z.ltb_spec at_ 0); [split; reflexivity|].
  destruct (Z.gtb_spec at_ (numrows E)); [split; reflexivity|]. lia.
Qed.

Lemma editorDelRow_in_range (at_ : Z) (E : editorConfig) :
  0 <= at_ < numrows E -> exists E', editorDelRow at_ E = Some E'.
Proof.
  intro H. unfold editorDelRow, editorFreeRow, row_at.
  destruct (@nth_Z_in_range _ (row E) at_ H) as [r ->].
  destruct ((at_ <? 0) || (at_ >? numrows E)); eauto.
Qed.

(** C7.  The check of [editorDelRow] is [at > E.numrows], so it lets
    [at = numrows] through; [editorFreeRow(&E.row[numrows])] then reads a
    row that does not exist.  The deletion of the row after the last
    faults in every document, the empty one included. *)
Theorem editorDelRow_at_numrows_faults (E : editorConfig) :
  ((numrows E <? 0) || (numrows E >? numrows E)) = false /\
  row_at E (numrows E) = None /\
  editorDelRow (numrows E) E = None.
Proof.
  assert (Hnone : row_at E (numrows E) = None).
  { apply nth_Z_out_of_range. unfold numrows. lia. }
  assert (Hchk : ((numrows E <? 0) || (numrows E >? numrows E)) = false).
  { destruct (Z.ltb_spec (numrows E) 0); [unfold numrows in *; lia|].
    destruct (Z.gtb_spec (numrows E) (numrows E)); [lia|reflexivity]. }
  split; [exact Hchk|]. split; [exact Hnone|].
  unfold editorDelRow, editorFreeRow. rewrite Hchk, Hnone. reflexivity.
Qed.

(** ** The status bar *)

Lemma status_fill_spec (n : nat) (ab rstatus : list ascii) (len rlen cols : Z) :
  n = Z.to_nat (cols - len) -> 0 < rlen -> len + rlen <= cols ->
  status_fill n ab len rstatus rlen cols =
  ab ++ repeat ch_space (Z.to_nat (cols - len - rlen)) ++
  firstn (Z.to_nat rlen) rstatus.
Proof.
  revert ab len. induction n as [|n IH]; intros ab len Hn Hr Hle; [lia|].
  cbn [status_fill]. destruct (Z.ltb_spec len cols); [|lia].
  destruct (Z.eqb_spec (cols - len) rlen) as [He|Hne].
  - replace (cols - len - rlen) with 0 by lia. reflexivity.
  - rewrite IH by lia. unfold abAppend.
    replace (cols - len - rlen) with (1 + (cols - (len + 1) - rlen)) by lia.
    rewrite Z2Nat.inj_add by lia. cbn [Z.to_nat Pos.to_nat Pos.iter_op Nat.add].
    cbn [repeat firstn app]. rewrite <- app_assoc. reflexivity.
Qed.

(** When the window is wide enough for both texts, the status bar is the
    status text on the left and the position on the right, with spaces
    between them up to the width of the window. *)
Lemma status_bar_layout (E : editorConfig) (ab : list ascii) :
  let len := Z.of_nat (length (status_text E)) in
  let rlen := Z.of_nat (length (rstatus_text E)) in
  0 < rlen -> len + rlen <= screencols E ->
  editorDrawStatusBar E ab =
  ab ++ (ch_esc :: lit "[7m") ++ status_text E ++
  repeat ch_space (Z.to_nat (screencols E - len - rlen)) ++
  rstatus_text E ++ (ch_esc :: lit "[m") ++ [ch_cr; ch_lf].
Proof.
  intros len rlen Hr Hle. unfold editorDrawStatusBar. fold len rlen.
  destruct (Z.gtb_spec len (screencols E)); [lia|].
  rewrite status_fill_spec by (try reflexivity; assumption).
  unfold abAppend, len, rlen. rewrite !Nat2Z.id, !firstn_all.
  change (firstn (Z.to_nat 4) (ch_esc :: lit "[7m")) with (ch_esc :: lit "[7m").
  change (firstn (Z.to_nat 3) (ch_esc :: lit "[m")) with (ch_esc :: lit "[m").
  change (firstn (Z.to_nat 2) [ch_cr; ch_lf]) with [ch_cr; ch_lf].
  rewrite <- !app_assoc. reflexivity.
Qed.

(** C8.  The format of the status text has two conversions, so the
    modified marker passed as third argument is never printed: the status
    bar does not depend on the dirty counter, and for a document with
    unsaved changes it shows the name, the line count and the position
    only. *)
Theorem status_bar_has_no_modified_marker :
  (forall E d ab,
     editorDrawStatusBar (set_dirty d E) ab = editorDrawStatusBar E ab) /\
  dirty unsaved_editor <> 0 /\
  editorDrawStatusBar unsaved_editor [] =
    ch_esc :: lit "[7m" ++ lit "[No Name] - 1 lines" ++
    repeat ch_space 18 ++ lit "1/1" ++ ch_esc :: lit "[m" ++ [ch_cr; ch_lf].
Proof.
  split; [reflexivity|]. split; [discriminate|]. vm_compute. reflexivity.
Qed.

(** ** A session *)

(** Typing "hi", Enter, "bye" into the empty editor, in a run in which
    [tabs] is 0 on entry of every [editorUpdateRow], gives the two lines
    and the serialization "hi\nbye\n" of 7 bytes; the editor is still
    running, and the dirty counter stands at 7. *)
Example typing_session :
  exists w,
    editor_loop 6 WriteOk (fun _ => 0)
      (mk_world (initEditor 24 80) JATE_QUIT_TIMES
                [104; 105; key_CR; 98; 121; 101]) = Ret w /\
    contents (ed w) = [lit "hi"; lit "bye"] /\
    editorRowsToString (ed w) =
      (["h"; "i"; ch_lf; "b"; "y"; "e"; ch_lf]%char, 7) /\
    (cx (ed w), cy (ed w)) = (3, 1) /\
    dirty (ed w) = 7 /\
    keys w = [].
Proof.
  eexists. split; [vm_compute; reflexivity|]. repeat split.
Qed.

(** * Further properties *)

(** ** The key decoder *)

Lemma read_first_idle (idle rest : list read_result) :
  forallb is_idle idle = true ->
  read_first (idle ++ rest) = read_first rest.
Proof.
  induction idle as [|r idle IH]; [reflexivity|].
  cbn [forallb]. intro H. apply andb_prop in H. destruct H as [Hr Hi].
  destruct r; try discriminate; cbn [app read_first]; apply IH, Hi.
Qed.

Lemma read_first_ret (stdin rest : list read_result) (c : ascii) :
  read_first stdin = Ret (c, rest) ->
  exists idle, forallb is_idle idle = true /\ stdin = idle ++ RByte c :: rest.
Proof.
  induction stdin as [|r stdin IH]; [discriminate|].
  destruct r; cbn [read_first]; intro H.
  - inversion H; subst. exists []. split; reflexivity.
  - destruct (IH H) as (idle & Hi & ->). exists (RNone :: idle).
    split; [exact Hi|reflexivity].
  - destruct (IH H) as (idle & Hi & ->). exists (RAgain :: idle).
    split; [exact Hi|reflexivity].
  - discriminate.
Qed.

(** X1.  After any number of reads without data, each escape sequence of
    the table, sent in full after ESC, is decoded to its key and
    nothing but the sequence is consumed. *)
Theorem editorReadKey_decodes_sequences
  (signed_char : bool) (idle rest : list read_result)
  (seq : list ascii) (key : Z)
  (Hidle : forallb is_idle idle = true)
  (Hseq : In (seq, key) escape_sequences) :
  editorReadKey signed_char (idle ++ map RByte (ch_esc :: seq) ++ rest) =
  Ret (key, rest).
Proof.
  unfold editorReadKey. rewrite (@read_first_idle idle _ Hidle).
  unfold escape_sequences in Hseq. cbn [In] in Hseq.
  repeat (destruct Hseq as [Hseq|Hseq];
          [inversion Hseq; subst; reflexivity|]).
  contradiction.
Qed.

Lemma editorReadKey_decodes_sequences_witness :
  editorReadKey true ([RNone; RAgain] ++
                      map RByte [ch_esc; "["; "5"; "~"]%char ++ [RByte "x"]) =
  Ret (PAGE_UP, [RByte "x"%char]).
Proof.
  apply (@editorReadKey_decodes_sequences true [RNone; RAgain]
           [RByte "x"%char] ["["; "5"; "~"]%char PAGE_UP).
  - reflexivity.
  - unfold escape_sequences, In. tauto.
Defined.

Lemma tilde_key_table (b : ascii) (k : Z) :
  tilde_key b = Some k -> In (["["; b; "~"]%char, k) escape_sequences.
Proof.
  unfold tilde_key.
  repeat match goal with
         | |- context [Ascii.eqb b ?c] =>
             destruct (Ascii.eqb_spec b c) as [->|?];
             [intro H; inversion H; subst; unfold escape_sequences, In; tauto|]
         end.
  discriminate.
Qed.

Lemma bracket_key_table (b : ascii) (k : Z) :
  bracket_key b = Some k -> In (["["; b]%char, k) escape_sequences.
Proof.
  unfold bracket_key.
  repeat match goal with
         | |- context [Ascii.eqb b ?c] =>
             destruct (Ascii.eqb_spec b c) as [->|?];
             [intro H; inversion H; subst; unfold escape_sequences, In; tauto|]
         end.
  discriminate.
Qed.

Lemma letter_O_key_table (b : ascii) (k : Z) :
  letter_O_key b = Some k -> In (["O"; b]%char, k) escape_sequences.
Proof.
  unfold letter_O_key.
  repeat match goal with
         | |- context [Ascii.eqb b ?c] =>
             destruct (Ascii.eqb_spec b c) as [->|?];
             [intro H; inversion H; subst; unfold escape_sequences, In; tauto|]
         end.
  discriminate.
Qed.

Lemma read_more_ret (stdin rest : list read_result) (o : option ascii) :
  read_more stdin = Ret (o, rest) ->
  exists r, stdin = r :: rest /\
            match o with Some b => r = RByte b | None => True end.
Proof.
  destruct stdin as [|r stdin]; [discriminate|].
  destruct r; cbn [read_more]; intro H; inversion H; subst;
    eexists; split; reflexivity || exact I.
Qed.

(** X2.  Whatever [editorReadKey] returns is accounted for in one of
    three ways: the first byte is not ESC and the key is that byte,
    alone consumed; or the input after the idle reads is ESC followed by
    a sequence of the table and the key is the key of that sequence; or
    the key is Escape and between one and three reads after ESC were
    consumed with it. *)
Theorem editorReadKey_accounts_for_key
  (signed_char : bool) (stdin rest : list read_result) (key : Z)
  (Hret : editorReadKey signed_char stdin = Ret (key, rest)) :
  exists idle,
    forallb is_idle idle = true /\
    ((exists c, c <> ch_esc /\ key = int_of_char signed_char c /\
                stdin = idle ++ RByte c :: rest) \/
     (exists seq, In (seq, key) escape_sequences /\
                  stdin = idle ++ map RByte (ch_esc :: seq) ++ rest) \/
     (exists used, key = key_ESC /\ (1 <= length used <= 3)%nat /\
                   stdin = idle ++ RByte ch_esc :: used ++ rest)).
Proof.
  unfold editorReadKey in Hret.
  destruct (read_first stdin) as [[c s1]| | |] eqn:H1; try discriminate.
  destruct (read_first_ret _ H1) as (idle & Hidle & ->).
  exists idle. split; [exact Hidle|].
  destruct (Ascii.eqb_spec c ch_esc) as [->|Hc].
  2:{ left. exists c. inversion Hret; subst. repeat split; assumption. }
  right.
  destruct (read_more s1) as [[o0 s2]| | |] eqn:H2; try discriminate.
  destruct (read_more_ret _ H2) as (r0 & -> & Hr0).
  destruct o0 as [seq0|].
  2:{ right. exists [r0]. inversion Hret; subst.
      split; [reflexivity|]. split; [simpl; lia|reflexivity]. }
  subst r0.
  destruct (read_more s2) as [[o1 s3]| | |] eqn:H3; try discriminate.
  destruct (read_more_ret _ H3) as (r1 & -> & Hr1).
  destruct o1 as [seq1|].
  2:{ right. exists [RByte seq0; r1]. inversion Hret; subst.
      split; [reflexivity|]. split; [simpl; lia|reflexivity]. }
  subst r1.
  destruct (Ascii.eqb_spec seq0 "[") as [->|Hb].
  - destruct (is_digit_char seq1).
    + destruct (read_more s3) as [[o2 s4]| | |] eqn:H4; try discriminate.
      destruct (read_more_ret _ H4) as (r2 & -> & Hr2).
      destruct o2 as [seq2|].
      2:{ right. exists [RByte "["%char; RByte seq1; r2]. inversion Hret; subst.
          split; [reflexivity|]. split; [simpl; lia|reflexivity]. }
      subst r2.
      destruct (Ascii.eqb_spec seq2 "~") as [->|Ht].
      * destruct (tilde_key seq1) as [k|] eqn:Hk; inversion Hret; subst.
        -- left. exists ["["; seq1; "~"]%char.
           split; [apply tilde_key_table; exact Hk|reflexivity].
        -- right. exists [RByte "["%char; RByte seq1; RByte "~"%char].
           split; [reflexivity|]. split; [simpl; lia|reflexivity].
      * right. exists [RByte "["%char; RByte seq1; RByte seq2].
        inversion Hret; subst.
        split; [reflexivity|]. split; [simpl; lia|reflexivity].
    + destruct (bracket_key seq1) as [k|] eqn:Hk; inversion Hret; subst.
      * left. exists ["["; seq1]%char.
        split; [apply bracket_key_table; exact Hk|reflexivity].
      * right. exists [RByte "["%char; RByte seq1].
        split; [reflexivity|]. split; [simpl; lia|reflexivity].
  - destruct (Ascii.eqb_spec seq0 "O") as [->|Ho].
    + destruct (letter_O_key seq1) as [k|] eqn:Hk; inversion Hret; subst.
      * left. exists ["O"; seq1]%char.
        split; [apply letter_O_key_table; exact Hk|reflexivity].
      * right. exists [RByte "O"%char; RByte seq1].
        split; [reflexivity|]. split; [simpl; lia|reflexivity].
    + right. exists [RByte seq0; RByte seq1]. inversion Hret; subst.
      split; [reflexivity|]. split; [simpl; lia|reflexivity].
Qed.

Lemma editorReadKey_accounts_for_key_witness :
  exists idle,
    forallb is_idle idle = true /\
    ((exists c, c <> ch_esc /\ key_ESC = int_of_char true c /\
                [RNone; RByte ch_esc; RByte "["; RByte "5"; RByte "x"; RByte "y"]%char =
                idle ++ RByte c :: [RByte "y"%char]) \/
     (exists seq, In (seq, key_ESC) escape_sequences /\
                  [RNone; RByte ch_esc; RByte "["; RByte "5"; RByte "x"; RByte "y"]%char =
                  idle ++ map RByte (ch_esc :: seq) ++ [RByte "y"%char]) \/
     (exists used, key_ESC = key_ESC /\ (1 <= length used <= 3)%nat /\
                   [RNone; RByte ch_esc; RByte "["; RByte "5"; RByte "x"; RByte "y"]%char =
                   idle ++ RByte ch_esc :: used ++ [RByte "y"%char])).
Proof.
  apply (@editorReadKey_accounts_for_key true
           [RNone; RByte ch_esc; RByte "["; RByte "5"; RByte "x"; RByte "y"]%char
           [RByte "y"%char] key_ESC).
  reflexivity.
Defined.

(** ** Scrolling *)

Ltac cfg_all :=
  cbv beta iota zeta delta
    [cx cy rx rowoff coloff screenrows screencols row dirty filename
     statusmsg set_cx set_cy set_rx set_rowoff set_coloff set_row
     set_dirty set_filename set_statusmsg] in *.

(** [editorScroll] in closed form. *)
Lemma editorScroll_closed (E : editorConfig) :
  editorScroll E =
  v <- cursor_rx E ;;
  Some (set_coloff (scroll_to v (coloff E) (screencols E))
          (set_rowoff (scroll_to (cy E) (rowoff E) (screenrows E))
             (set_rx v E))).
Proof.
  destruct E as [cx0 cy0 rx0 ro co sr sc rows d fn sm].
  unfold editorScroll, cursor_rx, row_at, numrows, scroll_to. cfg_all.
  assert (Hcase : forall v,
    Some (let E3 := let E2 := if cy0 <? ro
                              then mk_config cx0 cy0 v cy0 co sr sc rows d fn sm
                              else mk_config cx0 cy0 v ro co sr sc rows d fn sm in
                    if cy E2 >=? rowoff E2 + screenrows E2
                    then set_rowoff (cy E2 - screenrows E2 + 1) E2 else E2 in
          let E4 := if rx E3 <? coloff E3 then set_coloff (rx E3) E3 else E3 in
          if rx E4 >=? coloff E4 + screencols E4
          then set_coloff (rx E4 - screencols E4 + 1) E4 else E4) =
    Some (mk_config cx0 cy0 v
           (if cy0 >=? (if cy0 <? ro then cy0 else ro) + sr
            then cy0 - sr + 1 else if cy0 <? ro then cy0 else ro)
           (if v >=? (if v <? co then v else co) + sc
            then v - sc + 1 else if v <? co then v else co)
           sr sc rows d fn sm)).
  { intros v.
    destruct (cy0 <? ro); cfg_all;
      [destruct (cy0 >=? cy0 + sr)|destruct (cy0 >=? ro + sr)]; cfg_all;
      destruct (v <? co); cfg_all;
      [destruct (v >=? v + sc)|destruct (v >=? co + sc)
      |destruct (v >=? v + sc)|destruct (v >=? co + sc)
      |destruct (v >=? v + sc)|destruct (v >=? co + sc)
      |destruct (v >=? v + sc)|destruct (v >=? co + sc)]; reflexivity. }
  destruct (cy0 <? Z.of_nat (length rows)).
  - destruct (nth_Z rows cy0) as [r|]; [|reflexivity].
    destruct (editorRowCxToRx r cx0) as [v|]; [|reflexivity].
    apply Hcase.
  - apply Hcase.
Qed.

Lemma scroll_to_shows (p off n : Z) :
  1 <= n -> scroll_to p off n <= p < scroll_to p off n + n.
Proof.
  intro Hn. unfold scroll_to.
  destruct (Z.ltb_spec p off);
    match goal with |- context [?a >=? ?b] => destruct (Z.geb_spec a b) end; lia.
Qed.

Lemma scroll_to_stays (p off n : Z) :
  off <= p < off + n -> scroll_to p off n = off.
Proof.
  intro H. unfold scroll_to.
  destruct (Z.ltb_spec p off); [lia|].
  destruct (Z.geb_spec p (off + n)); [lia|reflexivity].
Qed.

(** X3.  In a window of at least one row and one column, [editorScroll]
    leaves the cursor inside the window: [rx] is the rendered column of
    the cursor, [rowoff <= cy < rowoff + screenrows] and
    [coloff <= rx < coloff + screencols]; the document, the cursor and
    the size of the window are left alone. *)
Theorem editorScroll_shows_cursor (E E' : editorConfig)
  (Hrows : 1 <= screenrows E) (Hcols : 1 <= screencols E)
  (Hscroll : editorScroll E = Some E') :
  cursor_in_window E' /\ cursor_rx E' = Some (rx E') /\
  same_document E E' /\
  screenrows E' = screenrows E /\ screencols E' = screencols E /\
  statusmsg E' = statusmsg E.
Proof.
  rewrite editorScroll_closed in Hscroll.
  destruct (cursor_rx E) as [v|] eqn:Hv; [|discriminate].
  inversion Hscroll; subst E'; clear Hscroll.
  split.
  { unfold cursor_in_window. cfg.
    split; apply scroll_to_shows; assumption. }
  split; [exact Hv|]. repeat split.
Qed.

Lemma editorScroll_shows_cursor_witness :
  cursor_in_window
    (mk_config 0 2 0 1 0 2 80
       [mk_erow (lit "abc") (lit "abc"); mk_erow (lit "d") (lit "d");
        mk_erow (lit "efgh") (lit "efgh")] 0 None []).
Proof.
  apply (@editorScroll_shows_cursor (set_cx 0 three_line_editor)).
  - simpl. lia.
  - simpl. lia.
  - reflexivity.
Defined.

(** X4.  [editorScroll] scrolls no more than needed: when [rx] already
    is the rendered column of the cursor and the cursor is inside the
    window, nothing changes. *)
Theorem editorScroll_keeps_visible_cursor (E : editorConfig)
  (Hrx : cursor_rx E = Some (rx E))
  (Hwin : cursor_in_window E) :
  editorScroll E = Some E.
Proof.
  rewrite editorScroll_closed, Hrx. destruct Hwin as [Hr Hc].
  rewrite (@scroll_to_stays _ _ _ Hr), (@scroll_to_stays _ _ _ Hc).
  destruct E. reflexivity.
Qed.

Lemma editorScroll_keeps_visible_cursor_witness :
  editorScroll (mk_config 1 0 1 0 0 22 80 [mk_erow (lit "ab") (lit "ab")]
                          0 None []) =
  Some (mk_config 1 0 1 0 0 22 80 [mk_erow (lit "ab") (lit "ab")] 0 None []).
Proof.
  apply (@editorScroll_keeps_visible_cursor
           (mk_config 1 0 1 0 0 22 80 [mk_erow (lit "ab") (lit "ab")]
                      0 None [])).
  - reflexivity.
  - unfold cursor_in_window. simpl. lia.
Defined.

(** ** Moving the cursor *)

Lemma cursor_cases (E : editorConfig) :
  cursor_in_document E ->
  (cy E = numrows E /\ cx E = 0) \/
  (exists l1 x l2, row E = l1 ++ x :: l2 /\ cy E = Z.of_nat (length l1) /\
                   0 <= cx E <= size x).
Proof.
  intros [(Hcy & Hcx0 & Hcx) Hend].
  destruct (Z.eq_dec (cy E) (numrows E)) as [He|Hne]; [left; auto|].
  right. destruct (@nth_Z_in_range _ (row E) (cy E)) as [x Hx];
    [unfold numrows in *; lia|].
  destruct (@nth_Z_split _ _ _ _ Hx) as (l1 & l2 & Hrow & Hi).
  exists l1, x, l2. repeat split; try assumption. apply Hcx. exact Hx.
Qed.

Lemma cursor_on_line (E : editorConfig) (l1 l2 : list erow) (x : erow) :
  row E = l1 ++ x :: l2 -> cy E = Z.of_nat (length l1) ->
  0 <= cx E <= size x -> cursor_in_document E.
Proof.
  intros Hrow Hcy Hcx. unfold cursor_in_document, cursor_ok, numrows, row_at.
  rewrite Hrow, Hcy, length_mid_Z, nth_Z_length_app.
  repeat split; try lia. intros r Hr. inversion Hr; subst. lia.
Qed.

Lemma cursor_past_end (E : editorConfig) :
  cy E = numrows E -> cx E = 0 -> cursor_in_document E.
Proof.
  intros Hcy Hcx. unfold cursor_in_document, cursor_ok. rewrite Hcx, Hcy.
  unfold numrows. repeat split; try lia.
  intros r Hr. unfold row_at in Hr.
  rewrite nth_Z_out_of_range in Hr by lia. discriminate.
Qed.

(** The snap of [cx] at the end of [editorMoveCursor] puts any cursor
    with a line inside the document at a column of that line. *)
Lemma cursor_snap (E : editorConfig) :
  0 <= cy E <= numrows E -> 0 <= cx E ->
  exists len,
    cursor_rowlen E = Some len /\
    cursor_in_document (if cx E >? len then set_cx len E else E).
Proof.
  intros Hcy Hcx. unfold cursor_rowlen.
  destruct (Z.geb_spec (cy E) (numrows E)) as [Hge|Hlt].
  - exists 0. split; [reflexivity|].
    destruct (Z.gtb_spec (cx E) 0); apply cursor_past_end; cfg;
      unfold numrows in *; lia.
  - destruct (@nth_Z_in_range _ (row E) (cy E)) as [x Hx];
      [unfold numrows in *; lia|].
    unfold row_at. rewrite Hx. exists (size x). split; [reflexivity|].
    destruct (@nth_Z_split _ _ _ _ Hx) as (l1 & l2 & Hrow & Hi).
    assert (0 <= size x) by (unfold size; lia).
    destruct (Z.gtb_spec (cx E) (size x));
      eapply cursor_on_line; cfg; try eassumption; lia.
Qed.

Lemma editorMoveCursor_switch_moves (key : Z) (E : editorConfig) :
  cursor_in_document E ->
  exists a b,
    editorMoveCursor_switch key E = Some (set_cx a (set_cy b E)) /\
    0 <= b <= numrows E /\ 0 <= a.
Proof.
  intro Hcur. pose proof Hcur as [(Hcy & Hcx0 & Hcx) Hend].
  assert (Hid : E = set_cx (cx E) (set_cy (cy E) E)) by (destruct E; reflexivity).
  unfold editorMoveCursor_switch.
  destruct (key =? ARROW_LEFT).
  { destruct (Z.gtb_spec (cx E) 0).
    - exists (cx E - 1), (cy E). split; [|lia].
      rewrite Hid at 1. reflexivity.
    - destruct (Z.gtb_spec (cy E) 0).
      + cbv zeta. cfg.
        destruct (@nth_Z_in_range _ (row E) (cy E - 1)) as [r Hr];
          [unfold numrows in *; lia|].
        unfold row_at. cfg. rewrite Hr.
        exists (size r), (cy E - 1). split; [reflexivity|].
        unfold size, numrows in *. lia.
      + exists (cx E), (cy E). split; [|lia]. rewrite <- Hid. reflexivity. }
  destruct (key =? ARROW_RIGHT).
  { destruct (Z.geb_spec (cy E) (numrows E)).
    - exists (cx E), (cy E). split; [|lia]. rewrite <- Hid. reflexivity.
    - destruct (@nth_Z_in_range _ (row E) (cy E)) as [r Hr];
        [unfold numrows in *; lia|].
      unfold row_at. rewrite Hr.
      destruct (Z.ltb_spec (cx E) (size r)).
      + exists (cx E + 1), (cy E). split; [|lia]. rewrite Hid at 1. reflexivity.
      + destruct (Z.eqb_spec (cx E) (size r)).
        * exists 0, (cy E + 1). split; [reflexivity|lia].
        * exists (cx E), (cy E). split; [|lia]. rewrite <- Hid. reflexivity. }
  destruct (key =? ARROW_UP).
  { destruct (Z.gtb_spec (cy E) 0).
    - exists (cx E), (cy E - 1). split; [|lia]. destruct E; reflexivity.
    - exists (cx E), (cy E). split; [|lia]. rewrite <- Hid. reflexivity. }
  destruct (key =? ARROW_DOWN).
  { destruct (Z.ltb_spec (cy E) (numrows E)).
    - exists (cx E), (cy E + 1). split; [|lia]. destruct E; reflexivity.
    - exists (cx E), (cy E). split; [|lia]. rewrite <- Hid. reflexivity. }
  exists (cx E), (cy E). split; [|lia]. rewrite <- Hid. reflexivity.
Qed.

(** X5.  From a cursor in the document, [editorMoveCursor] with any key
    reads no row outside the document, changes nothing but [cx] and
    [cy], and leaves the cursor in the document: on a line at a column
    of that line, or at column 0 of the line after the last. *)
Theorem editorMoveCursor_keeps_cursor_in_document
  (key : Z) (E : editorConfig) (Hcur : cursor_in_document E) :
  exists E',
    editorMoveCursor key E = Some E' /\
    E' = set_cx (cx E') (set_cy (cy E') E) /\
    cursor_in_document E'.
Proof.
  destruct (editorMoveCursor_switch_moves key Hcur) as (a & b & Hsw & Hb & Ha).
  unfold editorMoveCursor. rewrite Hsw.
  destruct (@cursor_snap (set_cx a (set_cy b E))) as (len & Hlen & Hdoc);
    [exact Hb|exact Ha|].
  rewrite Hlen. eexists. split; [reflexivity|]. split; [|exact Hdoc].
  destruct (cx (set_cx a (set_cy b E)) >? len); destruct E; reflexivity.
Qed.

Lemma editorMoveCursor_keeps_cursor_in_document_witness :
  exists E',
    editorMoveCursor ARROW_UP three_line_editor = Some E' /\
    E' = set_cx (cx E') (set_cy (cy E') three_line_editor) /\
    cursor_in_document E'.
Proof.
  apply (@editorMoveCursor_keeps_cursor_in_document ARROW_UP three_line_editor).
  apply cursor_on_line
    with (l1 := [mk_erow (lit "abc") (lit "abc"); mk_erow (lit "d") (lit "d")])
         (x := mk_erow (lit "efgh") (lit "efgh")) (l2 := []).
  - reflexivity.
  - reflexivity.
  - unfold size. simpl. lia.
Defined.

Lemma cursor_rowlen_on_line (E : editorConfig) (l1 l2 : list erow) (x : erow) :
  row E = l1 ++ x :: l2 -> cy E = Z.of_nat (length l1) ->
  cursor_rowlen E = Some (size x).
Proof.
  intros Hrow Hcy. unfold cursor_rowlen, numrows, row_at.
  rewrite Hrow, Hcy, length_mid_Z, nth_Z_length_app.
  destruct (Z.geb_spec (Z.of_nat (length l1))
              (Z.of_nat (length l1) + 1 + Z.of_nat (length l2))); [lia|reflexivity].
Qed.

Lemma cursor_rowlen_nonneg (E : editorConfig) (len : Z) :
  cursor_rowlen E = Some len -> 0 <= len.
Proof.
  unfold cursor_rowlen. destruct (cy E >=? numrows E).
  - intro H. inversion H. lia.
  - destruct (row_at E (cy E)); [|discriminate].
    intro H. inversion H. unfold size. lia.
Qed.

(** X6.  With the cursor on a line of the document, at any column of it,
    the right arrow followed by the left arrow gives back the editor as
    it was, also across the end of the line and from the last line to
    the line after the last. *)
Theorem arrow_right_then_left_restores (E : editorConfig) (x : erow)
  (Hrow : row_at E (cy E) = Some x)
  (Hcx : 0 <= cx E <= size x) :
  exists E1,
    editorMoveCursor ARROW_RIGHT E = Some E1 /\
    (cx E1, cy E1) =
      (if cx E <? size x then (cx E + 1, cy E) else (0, cy E + 1)) /\
    editorMoveCursor ARROW_LEFT E1 = Some E.
Proof.
  destruct (@nth_Z_split _ _ _ _ Hrow) as (l1 & l2 & Hr & Hi).
  destruct E as [cx0 cy0 rx0 ro co sr sc rows d fn sm].
  cbn [cx cy row] in *. subst cy0 rows.
  unfold editorMoveCursor at 1, editorMoveCursor_switch.
  change (ARROW_RIGHT =? ARROW_LEFT) with false.
  change (ARROW_RIGHT =? ARROW_RIGHT) with true. cbv iota.
  unfold row_at in *. cfg. rewrite length_mid_Z, nth_Z_length_app.
  destruct (Z.geb_spec (Z.of_nat (length l1))
              (Z.of_nat (length l1) + 1 + Z.of_nat (length l2))); [lia|].
  destruct (Z.ltb_spec cx0 (size x)) as [Hlt|Hge].
  - erewrite cursor_rowlen_on_line by reflexivity. cfg.
    destruct (Z.gtb_spec (cx0 + 1) (size x)); [lia|].
    eexists. split; [reflexivity|]. split; [reflexivity|].
    unfold editorMoveCursor, editorMoveCursor_switch.
    change (ARROW_LEFT =? ARROW_LEFT) with true. cbv iota. cfg.
    destruct (Z.gtb_spec (cx0 + 1) 0); [|lia].
    erewrite cursor_rowlen_on_line by reflexivity. cfg.
    destruct (Z.gtb_spec (cx0 + 1 - 1) (size x)); [lia|].
    unfold set_cx. cfg. do 2 f_equal. lia.
  - destruct (Z.eqb_spec cx0 (size x)); [|lia]. subst cx0.
    destruct (cursor_rowlen (set_cx 0 (set_cy (Z.of_nat (length l1) + 1)
                (mk_config (size x) (Z.of_nat (length l1)) rx0 ro co sr sc
                           (l1 ++ x :: l2) d fn sm)))) as [len|] eqn:Hlen.
    2:{ exfalso. unfold cursor_rowlen, numrows, row_at in Hlen.
        cbn [cx cy row set_cx set_cy] in Hlen. rewrite length_mid_Z in Hlen.
        destruct (Z.geb_spec (Z.of_nat (length l1) + 1)
                    (Z.of_nat (length l1) + 1 + Z.of_nat (length l2)));
          [discriminate|].
        destruct l2 as [|y l2]; [simpl in *; lia|].
        rewrite <- length_snoc_Z with (x := x) in Hlen.
        rewrite <- snoc_app in Hlen. rewrite nth_Z_length_app in Hlen.
        discriminate. }
    pose proof (cursor_rowlen_nonneg _ Hlen) as Hnn.
    cfg. destruct (Z.gtb_spec 0 len); [lia|].
    eexists. split; [reflexivity|]. split; [reflexivity|].
    unfold editorMoveCursor, editorMoveCursor_switch.
    change (ARROW_LEFT =? ARROW_LEFT) with true. cbv iota. cfg.
    change (0 >? 0) with false. cbv iota.
    destruct (Z.gtb_spec (Z.of_nat (length l1) + 1) 0); [|lia].
    cbv zeta. unfold row_at. cfg.
    replace (Z.of_nat (length l1) + 1 - 1) with (Z.of_nat (length l1)) by lia.
    rewrite nth_Z_length_app.
    erewrite cursor_rowlen_on_line by reflexivity. cfg.
    destruct (Z.gtb_spec (size x) (size x)); [lia|]. reflexivity.
Qed.

Lemma arrow_right_then_left_restores_witness :
  exists E1,
    editorMoveCursor ARROW_RIGHT three_line_editor = Some E1 /\
    (cx E1, cy E1) = (0, 3) /\
    editorMoveCursor ARROW_LEFT E1 = Some three_line_editor.
Proof.
  apply (@arrow_right_then_left_restores three_line_editor
           (mk_erow (lit "efgh") (lit "efgh"))).
  - reflexivity.
  - unfold size. simpl. lia.
Defined.

(** ** Editing operations, case by case *)

Lemma rendered_updated (cs r : list ascii) :
  render (updated_row (mk_erow cs r)) =
  render_of (chars (updated_row (mk_erow cs r))).
Proof. reflexivity. Qed.

Lemma rows_rendered_mid (l1 l2 : list erow) (x : erow) :
  Forall (fun r => render r = render_of (chars r)) (l1 ++ x :: l2) <->
  Forall (fun r => render r = render_of (chars r)) l1 /\
  render x = render_of (chars x) /\
  Forall (fun r => render r = render_of (chars r)) l2.
Proof.
  rewrite Forall_app. split.
  - intros [H1 H2]. inversion H2; subst. auto.
  - intros (H1 & Hx & H2). split; [exact H1|]. constructor; assumption.
Qed.

(** *** The number of characters of the document *)

Lemma rows_chars_app (l1 l2 : list erow) :
  rows_chars (l1 ++ l2) = rows_chars l1 + rows_chars l2.
Proof. unfold rows_chars. rewrite map_app, concat_app, length_app. lia. Qed.

Lemma rows_chars_cons (x : erow) (l : list erow) :
  rows_chars (x :: l) = size x + rows_chars l.
Proof. unfold rows_chars, size. cbn [map concat]. rewrite length_app. lia. Qed.

Lemma rows_chars_mid (l1 l2 : list erow) (x : erow) :
  rows_chars (l1 ++ x :: l2) = rows_chars l1 + size x + rows_chars l2.
Proof. rewrite rows_chars_app, rows_chars_cons. lia. Qed.

Lemma rows_chars_nonneg (l : list erow) : 0 <= rows_chars l.
Proof. unfold rows_chars. lia. Qed.

Lemma row_fits (E : editorConfig) (l1 l2 : list erow) (x : erow) :
  row E = l1 ++ x :: l2 -> size x <= doc_chars E.
Proof.
  intro H. unfold doc_chars. rewrite H, rows_chars_mid.
  pose proof (rows_chars_nonneg l1). pose proof (rows_chars_nonneg l2). lia.
Qed.

(** A call of [editorUpdateRow] that faults on a row of at most [n]
    characters was entered with a [tabs] that is not [tabs_ok] for [n]. *)
Lemma editorUpdateRow_fits (tabs0 n : Z) (r : erow) :
  editorUpdateRow tabs0 r = None -> size r <= n -> ~ tabs_ok tabs0 n.
Proof.
  intros Hu Hn Ht. rewrite (@editorUpdateRow_ok tabs0 n r Ht Hn) in Hu.
  discriminate.
Qed.

(** [editorDelChar] with the cursor inside a line, with the call of
    [editorUpdateRow] left as it is. *)
Lemma editorDelChar_in_line_eq (tabs0 : Z) (E : editorConfig)
  (l1 l2 : list erow) (x : erow) :
  row E = l1 ++ x :: l2 -> cy E = Z.of_nat (length l1) ->
  0 < cx E <= size x ->
  editorDelChar tabs0 E =
  (y <- editorUpdateRow tabs0
          (mk_erow (firstn (Z.to_nat (cx E - 1)) (chars x) ++
                    skipn (S (Z.to_nat (cx E - 1))) (chars x))
                   (render x)) ;;
   Some (set_cx (cx E - 1)
           (set_dirty (dirty E + 1) (set_row (l1 ++ y :: l2) E)))).
Proof.
  intros Hrow Hcy Hcx.
  destruct E as [cx0 cy0 rx0 ro co sr sc rows d fn sm].
  cbn [cx cy row] in *. subst cy0 rows.
  unfold editorDelChar. cfg. rewrite length_mid_Z.
  destruct (Z.eqb_spec (Z.of_nat (length l1))
              (Z.of_nat (length l1) + 1 + Z.of_nat (length l2))); [lia|].
  destruct (Z.eqb_spec cx0 0); [lia|]. cbn [andb].
  destruct (Z.gtb_spec cx0 0); [|lia].
  erewrite (@editorRowDelChar_at_eq _ _ _ tabs0) by (try reflexivity; lia).
  destruct (editorUpdateRow tabs0 _) as [y|]; reflexivity.
Qed.

Lemma editorDelChar_in_line (tabs0 n : Z) (E : editorConfig)
  (l1 l2 : list erow) (x : erow) :
  tabs_ok tabs0 n -> size x <= n ->
  row E = l1 ++ x :: l2 -> cy E = Z.of_nat (length l1) ->
  0 < cx E <= size x ->
  editorDelChar tabs0 E =
  Some (set_cx (cx E - 1)
          (set_dirty (dirty E + 1)
             (set_row (l1 ++ updated_row
                               (mk_erow (firstn (Z.to_nat (cx E - 1)) (chars x) ++
                                         skipn (S (Z.to_nat (cx E - 1))) (chars x))
                                        (render x)) :: l2) E))).
Proof.
  intros Ht Hn Hrow Hcy Hcx.
  rewrite (@editorDelChar_in_line_eq tabs0 E l1 l2 x Hrow Hcy Hcx).
  rewrite (@editorUpdateRow_ok tabs0 n _ Ht); [reflexivity|].
  unfold size in *. cbn [chars].
  rewrite length_app, length_firstn, length_skipn. lia.
Qed.

(** [editorDelChar] at the start of the document and on the line after
    the last does nothing. *)
Lemma editorDelChar_nothing (tabs0 : Z) (E : editorConfig) :
  cy E = numrows E \/ (cx E = 0 /\ cy E = 0) -> editorDelChar tabs0 E = Some E.
Proof.
  intro H. unfold editorDelChar.
  destruct (Z.eqb_spec (cy E) (numrows E)); [reflexivity|].
  destruct H as [H|[Hx Hy]]; [contradiction|].
  rewrite Hx, Hy. reflexivity.
Qed.

(** [editorInsertNewline] on the line after the last, with the call of
    [editorUpdateRow] left as it is. *)
Lemma editorInsertNewline_past_end_eq (t1 t2 : Z) (E : editorConfig) :
  cy E = numrows E -> cx E = 0 ->
  editorInsertNewline t1 t2 E =
  (r <- editorUpdateRow t1 (mk_erow [] []) ;;
   Some (set_cx 0 (set_cy (cy E + 1)
           (set_dirty (dirty E + 1) (set_row (row E ++ [r]) E))))).
Proof.
  intros Hcy Hcx.
  destruct E as [cx0 cy0 rx0 ro co sr sc rows d fn sm].
  unfold numrows in Hcy. cbn [cx cy row] in *. subst cx0 cy0.
  unfold editorInsertNewline. cfg. cbn [Z.eqb].
  erewrite (@editorInsertRow_at_eq _ _ [] t1)
    by (cfg; rewrite app_nil_r; reflexivity).
  destruct (editorUpdateRow t1 _) as [r|]; reflexivity.
Qed.

(** ** What every keypress keeps *)

Lemma moved_refl (E : editorConfig) : moved E E.
Proof. unfold moved. destruct E; reflexivity. Qed.

Lemma moved_trans (E1 E2 E3 : editorConfig) :
  moved E1 E2 -> moved E2 E3 -> moved E1 E3.
Proof.
  unfold moved. intros H12 H23. rewrite H23. rewrite H12.
  destruct E1; reflexivity.
Qed.

Lemma moved_set (a b : Z) (E : editorConfig) : moved E (set_cx a (set_cy b E)).
Proof. unfold moved. destruct E; reflexivity. Qed.

Lemma moved_inv (E E' : editorConfig) :
  moved E E' -> cursor_in_document E' -> editor_inv E ->
  editor_inv E' /\ dirty E' = dirty E.
Proof.
  unfold moved, editor_inv, rows_rendered.
  intros Hm Hcur (_ & Hren & Hro & Hsr).
  assert (Hsame : row E' = row E /\ rowoff E' = rowoff E /\
                  screenrows E' = screenrows E /\ dirty E' = dirty E)
    by (rewrite Hm; repeat split).
  destruct Hsame as (-> & -> & -> & ->). repeat split; assumption || apply Hcur.
Qed.

Lemma window_kept_refl (E : editorConfig) : window_kept E E.
Proof. split; [reflexivity|auto]. Qed.

Ltac window_same :=
  first [ apply window_kept_refl
        | unfold window_kept, editorSetStatusMessage; cfg;
          split; [reflexivity|auto] ].

Lemma window_kept_trans (E1 E2 E3 : editorConfig) :
  window_kept E1 E2 -> window_kept E2 E3 -> window_kept E1 E3.
Proof.
  unfold window_kept. intros [A1 A2] [B1 B2]. split; [congruence|auto].
Qed.

Lemma window_kept_ok (E E' : editorConfig) :
  window_kept E E' -> window_ok E -> window_ok E'.
Proof.
  unfold window_kept, window_ok. intros [A1 A2] [B1 B2].
  split; [auto|lia].
Qed.

Lemma moved_window (E E' : editorConfig) : moved E E' -> window_kept E E'.
Proof.
  unfold moved, window_kept. intro Hm.
  assert (Hsame : screencols E' = screencols E /\ coloff E' = coloff E)
    by (rewrite Hm; split; reflexivity).
  destruct Hsame as [-> ->]. auto.
Qed.

Lemma editorMoveCursor_moves (key : Z) (E : editorConfig) :
  cursor_in_document E ->
  exists E', editorMoveCursor key E = Some E' /\ moved E E' /\
             cursor_in_document E'.
Proof.
  intro Hcur.
  destruct (editorMoveCursor_switch_moves key Hcur) as (a & b & Hsw & Hb & Ha).
  unfold editorMoveCursor. rewrite Hsw.
  destruct (@cursor_snap (set_cx a (set_cy b E))) as (len & Hlen & Hdoc);
    [exact Hb|exact Ha|].
  rewrite Hlen. eexists. split; [reflexivity|]. split; [|exact Hdoc].
  unfold moved.
  destruct (cx (set_cx a (set_cy b E)) >? len); destruct E; reflexivity.
Qed.

(** A vertical move needs no column inside the line to start from. *)
Lemma vertical_move_snaps (key : Z) (E : editorConfig) :
  key = ARROW_UP \/ key = ARROW_DOWN ->
  0 <= cy E <= numrows E -> 0 <= cx E ->
  exists E', editorMoveCursor key E = Some E' /\ moved E E' /\
             cursor_in_document E'.
Proof.
  intros Hk Hcy Hcx.
  assert (Hsw : exists b, editorMoveCursor_switch key E = Some (set_cy b E) /\
                          0 <= b <= numrows E).
  { unfold editorMoveCursor_switch.
    destruct Hk as [-> | ->];
      cbn [Z.eqb ARROW_UP ARROW_DOWN ARROW_LEFT ARROW_RIGHT Pos.eqb].
    - destruct (Z.gtb_spec (cy E) 0).
      + exists (cy E - 1). split; [reflexivity|lia].
      + exists (cy E). split; [destruct E; reflexivity|lia].
    - destruct (Z.ltb_spec (cy E) (numrows E)).
      + exists (cy E + 1). split; [reflexivity|lia].
      + exists (cy E). split; [destruct E; reflexivity|lia]. }
  destruct Hsw as (b & Hsw & Hb).
  unfold editorMoveCursor. rewrite Hsw.
  destruct (@cursor_snap (set_cy b E)) as (len & Hlen & Hdoc);
    [exact Hb|exact Hcx|].
  rewrite Hlen. eexists. split; [reflexivity|]. split; [|exact Hdoc].
  unfold moved. destruct (cx (set_cy b E) >? len); destruct E; reflexivity.
Qed.

Lemma move_times_moves (n : nat) (key : Z) (E : editorConfig) :
  cursor_in_document E ->
  exists E', move_times n key E = Some E' /\ moved E E' /\
             cursor_in_document E'.
Proof.
  revert E. induction n as [|n IH]; intros E Hcur.
  - exists E. split; [reflexivity|]. split; [apply moved_refl|exact Hcur].
  - cbn [move_times].
    destruct (editorMoveCursor_moves key Hcur) as (E1 & -> & Hm1 & Hc1).
    destruct (IH E1 Hc1) as (E' & -> & Hm & Hc).
    exists E'. split; [reflexivity|]. split; [|exact Hc].
    eapply moved_trans; eassumption.
Qed.

(** The page jump followed by the call the fall-through adds. *)
Lemma page_key_moves (c : Z) (E : editorConfig) :
  c = PAGE_UP \/ c = PAGE_DOWN ->
  cursor_in_document E -> 0 <= rowoff E <= numrows E -> 1 <= screenrows E ->
  exists E', (E1 <- page_jump c E ;; editorMoveCursor c E1) = Some E' /\
             moved E E' /\ cursor_in_document E'.
Proof.
  intros Hc Hcur Hro Hsr. pose proof Hcur as [(Hcy & Hcx0 & _) _].
  unfold page_jump.
  set (E1 := if c =? PAGE_UP then _ else _).
  assert (HE1 : moved E E1 /\ 0 <= cy E1 <= numrows E1 /\ 0 <= cx E1 /\
                screenrows E1 = screenrows E).
  { unfold E1. destruct Hc as [-> | ->]; cbn [Z.eqb PAGE_UP PAGE_DOWN Pos.eqb].
    - split; [destruct E; reflexivity|]. cfg. unfold numrows in *. lia.
    - cfg.
      destruct (Z.gtb_spec (rowoff E + screenrows E - 1) (Z.of_nat (length (row E))));
        (split; [destruct E; reflexivity|]); cfg; unfold numrows in *; lia. }
  destruct HE1 as (Hm1 & Hcy1 & Hcx1 & Hsr1). rewrite Hsr1.
  destruct (Z.ltb_spec (screenrows E) 0); [lia|].
  destruct (Z.to_nat (screenrows E)) as [|n] eqn:Hn; [lia|].
  cbn [move_times].
  destruct (@vertical_move_snaps (if c =? PAGE_UP then ARROW_UP else ARROW_DOWN) E1)
    as (E2 & -> & Hm2 & Hc2); [destruct (c =? PAGE_UP); tauto|exact Hcy1|exact Hcx1|].
  destruct (@move_times_moves n (if c =? PAGE_UP then ARROW_UP else ARROW_DOWN) E2 Hc2)
    as (E3 & -> & Hm3 & Hc3).
  destruct (@editorMoveCursor_moves c E3 Hc3) as (E4 & -> & Hm4 & Hc4).
  exists E4. split; [reflexivity|]. split; [|exact Hc4].
  eapply moved_trans; [|exact Hm4]. eapply moved_trans; [|exact Hm3].
  eapply moved_trans; eassumption.
Qed.

(** The three operations that edit: each keeps [editor_inv] and the
    window, does not lower the dirty counter and adds at most one
    character, and faults only on a [tabs] that is not [tabs_ok] for
    the size of the document and the character typed. *)
Lemma editorInsertNewline_inv (t1 t2 : Z) (E : editorConfig) :
  editor_inv E ->
  match editorInsertNewline t1 t2 E with
  | Some E' => editor_inv E' /\ dirty E <= dirty E' /\ window_kept E E' /\
               doc_chars E' <= doc_chars E + 1
  | None => ~ (tabs_ok t1 (doc_chars E + 1) /\ tabs_ok t2 (doc_chars E + 1))
  end.
Proof.
  intros (Hcur & Hren & Hro & Hsr).
  pose proof (rows_chars_nonneg (row E)) as Hdoc. fold (doc_chars E) in Hdoc.
  destruct (cursor_cases Hcur) as [[Hend Hx0]|(l1 & x & l2 & Hrow & Hcy & Hcx)].
  - rewrite (@editorInsertNewline_past_end_eq t1 t2 E Hend Hx0).
    destruct (editorUpdateRow_cases t1 (mk_erow [] [])) as [Hu|Hu]; rewrite Hu.
    { intros [H1 _]. revert H1. apply (@editorUpdateRow_fits _ _ _ Hu).
      unfold size. simpl. lia. }
    split; [|split; [cfg; lia|split; [window_same|]]].
    + split; [|split; [|split; assumption]].
      * apply cursor_past_end; cfg; [|reflexivity].
        rewrite length_snoc_Z. unfold numrows in Hend. lia.
      * unfold rows_rendered. cfg. apply Forall_app. split; [exact Hren|].
        constructor; [reflexivity|constructor].
    + unfold doc_chars. cfg. rewrite rows_chars_app, rows_chars_cons.
      unfold size, rows_chars. simpl. lia.
  - pose proof (@row_fits E l1 l2 x Hrow) as Hfit.
    destruct (@editorInsertNewline_split_cases t1 t2 E l1 l2 x Hrow Hcy Hcx)
      as [Hn|(hd & tl & He & Hhd & Htl & Rhd & Rtl)].
    { rewrite Hn. intros [H1 H2].
      destruct (@editorInsertNewline_split t1 t2 _ E l1 l2 x H1 H2
                  (Z.le_trans _ _ _ Hfit (Z.le_succ_diag_r _)) Hrow Hcy Hcx)
        as (hd & tl & He & _).
      rewrite He in Hn. discriminate. }
    rewrite He.
    unfold rows_rendered in Hren. rewrite Hrow in Hren.
    apply rows_rendered_mid in Hren. destruct Hren as (R1 & Rx & R2).
    split; [|split; [cfg; lia|split; [window_same|]]].
    + split; [|split; [|split; assumption]].
      * apply cursor_on_line with (l1 := l1 ++ [hd]) (x := tl) (l2 := l2); cfg.
        -- rewrite snoc_app. reflexivity.
        -- rewrite length_snoc_Z. lia.
        -- unfold size. lia.
      * unfold rows_rendered. cfg. apply rows_rendered_mid.
        split; [exact R1|]. split; [exact Rhd|].
        constructor; [exact (Rtl Rx)|exact R2].
    + unfold doc_chars. cfg. rewrite Hrow, !rows_chars_mid, rows_chars_cons.
      assert (Hsz : size hd + size tl = size x).
      { pose proof (f_equal (@length _)
                      (firstn_skipn (Z.to_nat (cx E)) (chars x))) as HL.
        rewrite length_app in HL. unfold size. rewrite Hhd, Htl. lia. }
      lia.
Qed.

Lemma editorInsertChar_inv (t1 t2 : Z) (c : Z) (E : editorConfig) :
  editor_inv E ->
  match editorInsertChar t1 t2 c E with
  | Some E' => editor_inv E' /\ dirty E < dirty E' /\ window_kept E E' /\
               doc_chars E' <= doc_chars E + 1
  | None => ~ (tabs_ok t1 (doc_chars E + 1) /\ tabs_ok t2 (doc_chars E + 1))
  end.
Proof.
  intros (Hcur & Hren & Hro & Hsr).
  pose proof (rows_chars_nonneg (row E)) as Hdoc. fold (doc_chars E) in Hdoc.
  destruct (cursor_cases Hcur) as [[Hend Hx0]|(l1 & x & l2 & Hrow & Hcy & Hcx)].
  - rewrite (@editorInsertChar_past_end_eq t1 t2 E c Hend).
    destruct (editorUpdateRow_cases t1 (mk_erow [] [])) as [Hu|Hu]; rewrite Hu.
    { intros [H1 _]. revert H1. apply (@editorUpdateRow_fits _ _ _ Hu).
      unfold size. simpl. lia. }
    destruct (editorUpdateRow_cases t2 (mk_erow [char_of_key c] []))
      as [Hv|Hv]; rewrite Hv.
    { intros [_ H2]. revert H2. apply (@editorUpdateRow_fits _ _ _ Hv).
      unfold size. simpl. lia. }
    split; [|split; [cfg; lia|split; [window_same|]]].
    + split; [|split; [|split; assumption]].
      * apply cursor_on_line
          with (l1 := row E) (x := updated_row (mk_erow [char_of_key c] []))
               (l2 := []); cfg.
        -- reflexivity.
        -- exact Hend.
        -- rewrite Hx0. unfold size. simpl. lia.
      * unfold rows_rendered. cfg. apply Forall_app. split; [exact Hren|].
        constructor; [reflexivity|constructor].
    + unfold doc_chars. cfg. rewrite rows_chars_app, rows_chars_cons.
      unfold size, rows_chars. simpl. lia.
  - pose proof (@row_fits E l1 l2 x Hrow) as Hfit.
    rewrite (@editorInsertChar_on_line_eq t1 t2 E l1 l2 x c Hrow Hcy Hcx).
    match goal with |- context [editorUpdateRow t2 ?r] =>
      assert (Hsz : size r = size x + 1);
      [|destruct (editorUpdateRow_cases t2 r) as [Hv|Hv]; rewrite Hv] end.
    { unfold size in *. cbn [chars]. rewrite length_app. cbn [length].
      rewrite length_firstn, length_skipn. lia. }
    { intros [_ H2]. revert H2. apply (@editorUpdateRow_fits _ _ _ Hv). lia. }
    unfold rows_rendered in Hren. rewrite Hrow in Hren.
    apply rows_rendered_mid in Hren. destruct Hren as (R1 & Rx & R2).
    split; [|split; [cfg; lia|split; [window_same|]]].
    + split; [|split; [|split; assumption]].
      * eapply cursor_on_line; cfg; [reflexivity|exact Hcy|].
        change (size (updated_row ?r)) with (size r). lia.
      * unfold rows_rendered. cfg. apply rows_rendered_mid.
        split; [exact R1|]. split; [reflexivity|exact R2].
    + unfold doc_chars. cfg. rewrite Hrow, !rows_chars_mid.
      change (size (updated_row ?r)) with (size r). lia.
Qed.

Lemma editorDelChar_inv (tabs0 : Z) (E : editorConfig) :
  editor_inv E ->
  match editorDelChar tabs0 E with
  | Some E' => editor_inv E' /\ dirty E <= dirty E' /\ window_kept E E' /\
               doc_chars E' <= doc_chars E
  | None => ~ tabs_ok tabs0 (doc_chars E + 1)
  end.
Proof.
  intros Hinv. pose proof Hinv as (Hcur & Hren & Hro & Hsr).
  destruct (cursor_cases Hcur) as [[Hend Hx0]|(l1 & x & l2 & Hrow & Hcy & Hcx)].
  { rewrite editorDelChar_nothing by (left; exact Hend).
    split; [exact Hinv|split; [lia|split; [window_same|lia]]]. }
  unfold rows_rendered in Hren. rewrite Hrow in Hren.
  apply rows_rendered_mid in Hren. destruct Hren as (R1 & Rx & R2).
  destruct (Z.eq_dec (cx E) 0) as [Hz|Hnz].
  - destruct l1 as [|a l1'] using rev_ind.
    + rewrite editorDelChar_nothing by (right; split; [exact Hz|exact Hcy]).
      split; [exact Hinv|split; [lia|split; [window_same|lia]]].
    + clear IHl1'. rewrite length_snoc_Z in Hcy.
      rewrite snoc_app in Hrow.
      rewrite (@editorDelChar_join_eq tabs0 E l1' l2 a x Hrow Hcy Hz).
      match goal with |- context [editorUpdateRow tabs0 ?r] =>
        assert (Hsz : size r = size a + size x);
        [|destruct (editorUpdateRow_cases tabs0 r) as [Hv|Hv]; rewrite Hv] end.
      { unfold size. cbn [chars]. rewrite length_app. lia. }
      { apply (@editorUpdateRow_fits _ _ _ Hv). rewrite Hsz.
        unfold doc_chars. rewrite Hrow, rows_chars_app, !rows_chars_cons.
        pose proof (rows_chars_nonneg l1'). pose proof (rows_chars_nonneg l2).
        lia. }
      apply Forall_app in R1. destruct R1 as [R1 Ra].
      split; [|split; [cfg; lia|split; [window_same|]]].
      * split; [|split; [|split; assumption]].
        -- eapply cursor_on_line; cfg; [reflexivity|reflexivity|].
           change (size (updated_row ?r)) with (size r).
           unfold size in *. lia.
        -- unfold rows_rendered. cfg. apply rows_rendered_mid.
           split; [exact R1|]. split; [reflexivity|exact R2].
      * unfold doc_chars. cfg.
        rewrite Hrow, !rows_chars_app, !rows_chars_cons.
        change (size (updated_row ?r)) with (size r). lia.
  - assert (Hcx' : 0 < cx E <= size x) by lia.
    pose proof (@row_fits E l1 l2 x Hrow) as Hfit.
    rewrite (@editorDelChar_in_line_eq tabs0 E l1 l2 x Hrow Hcy Hcx').
    match goal with |- context [editorUpdateRow tabs0 ?r] =>
      assert (Hsz : size r = size x - 1);
      [|destruct (editorUpdateRow_cases tabs0 r) as [Hv|Hv]; rewrite Hv] end.
    { unfold size in *. cbn [chars].
      rewrite length_app, length_firstn, length_skipn. lia. }
    { apply (@editorUpdateRow_fits _ _ _ Hv). lia. }
    split; [|split; [cfg; lia|split; [window_same|]]].
    + split; [|split; [|split; assumption]].
      * eapply cursor_on_line; cfg; [reflexivity|exact Hcy|].
        change (size (updated_row ?r)) with (size r). lia.
      * unfold rows_rendered. cfg. apply rows_rendered_mid.
        split; [exact R1|]. split; [reflexivity|exact R2].
    + unfold doc_chars. cfg. rewrite Hrow, !rows_chars_mid.
      change (size (updated_row ?r)) with (size r). lia.
Qed.

Lemma scroll_to_nonneg (p off n : Z) :
  0 <= p -> 0 <= off -> 0 <= scroll_to p off n.
Proof.
  intros Hp Ho. unfold scroll_to.
  destruct (Z.ltb_spec p off);
    match goal with |- context [?a >=? ?b] => destruct (Z.geb_spec a b) end; lia.
Qed.

Lemma editorRowCxToRx_loop_nonneg (r : erow) (n : nat) (j rx0 v : Z) :
  0 <= rx0 -> editorRowCxToRx_loop r n j rx0 = Some v -> 0 <= v.
Proof.
  revert j rx0. induction n as [|n IH]; intros j rx0 H0 H.
  - cbn in H. inversion H. subst. exact H0.
  - cbn [editorRowCxToRx_loop] in H.
    destruct (char_at r j) as [c|]; [|discriminate].
    apply IH in H; [exact H|].
    unfold JATE_TABSTOP. pose proof (Z.rem_bound_pos rx0 8 H0).
    destruct (Ascii.eqb c ch_tab); lia.
Qed.

Lemma cursor_rx_nonneg (E : editorConfig) (v : Z) :
  cursor_rx E = Some v -> 0 <= v.
Proof.
  unfold cursor_rx, editorRowCxToRx.
  destruct (cy E <? numrows E).
  - destruct (row_at E (cy E)) as [r|]; [|discriminate].
    apply editorRowCxToRx_loop_nonneg. lia.
  - intro H. inversion H. lia.
Qed.

Lemma editorScroll_inv (E : editorConfig) :
  editor_inv E ->
  exists E', editorScroll E = Some E' /\ editor_inv E' /\
             rowoff E' <= cy E' /\ dirty E' = dirty E /\ window_kept E E' /\
             row E' = row E.
Proof.
  intros (Hcur & Hren & Hro & Hsr).
  destruct (@editorScroll_total E (proj1 Hcur)) as [E' HE'].
  exists E'. split; [exact HE'|].
  rewrite editorScroll_closed in HE'.
  destruct (cursor_rx E) as [v|] eqn:Hv; [|discriminate].
  apply cursor_rx_nonneg in Hv.
  inversion HE'; subst E'; clear HE'.
  destruct Hcur as [Hok Hend]. pose proof Hok as (Hcy & _).
  split; [|split; [|split; [reflexivity|split; [|reflexivity]]]].
  - split; [split; [exact Hok|exact Hend]|].
    split; [exact Hren|]. split; [|exact Hsr].
    cfg. apply scroll_to_nonneg; lia.
  - cfg. apply scroll_to_shows. exact Hsr.
  - split; [reflexivity|]. cfg. intro Hco. apply scroll_to_nonneg; assumption.
Qed.

Lemma editorSetStatusMessage_inv (msg : list ascii) (E : editorConfig) :
  editor_inv E -> editor_inv (editorSetStatusMessage msg E).
Proof. intro H. exact H. Qed.

Lemma editorPrompt_loop_inv (prompt : list ascii -> list ascii)
  (ks : list Z) (buf : list ascii) (E : editorConfig) :
  editor_inv E ->
  safely (fun r => editor_inv (snd (fst r)) /\ dirty (snd (fst r)) = dirty E /\
                   window_kept E (snd (fst r)) /\ row (snd (fst r)) = row E)
         (editorPrompt_loop prompt buf E ks).
Proof.
  revert buf E. induction ks as [|c ks IH]; intros buf E Hinv;
    cbn [editorPrompt_loop]; unfold editorRefreshScreen;
    destruct (@editorScroll_inv (editorSetStatusMessage (prompt buf) E))
      as (E1 & -> & Hinv1 & _ & Hd1 & Hw1 & Hr1);
    try (apply editorSetStatusMessage_inv; exact Hinv).
  - exact I.
  - destruct (editorPrompt_key c buf) as [buf'| |b].
    + specialize (IH buf' E1 Hinv1).
      destruct (editorPrompt_loop prompt buf' E1 ks) as [[[res E2] ks2]| | |];
        cbn [safely fst snd] in *; try exact IH.
      destruct IH as (Hi & Hd & Hw & Hr). split; [exact Hi|].
      split; [rewrite Hd; exact Hd1|].
      split; [eapply window_kept_trans; [exact Hw1|exact Hw]|].
      rewrite Hr. exact Hr1.
    + cbn [safely fst snd]. split; [exact Hinv1|].
      split; [exact Hd1|split; [exact Hw1|exact Hr1]].
    + cbn [safely fst snd]. split; [exact Hinv1|].
      split; [exact Hd1|split; [exact Hw1|exact Hr1]].
Qed.

Lemma editorSave_write_inv (io : save_io) (E : editorConfig) :
  editor_inv E ->
  editor_inv (editorSave_write io E) /\ window_kept E (editorSave_write io E) /\
  row (editorSave_write io E) = row E.
Proof.
  intro H. unfold editorSave_write. destruct (editorRowsToString E).
  destruct io; (split; [exact H|split; [window_same|reflexivity]]).
Qed.

Lemma editorSave_inv (io : save_io) (E : editorConfig) (ks : list Z) :
  editor_inv E ->
  safely (fun r => editor_inv (fst r) /\ window_kept E (fst r) /\
                   row (fst r) = row E)
         (editorSave io E ks).
Proof.
  intro Hinv. unfold editorSave, editorPrompt.
  destruct (filename E).
  - cbn [safely fst]. apply editorSave_write_inv. exact Hinv.
  - pose proof (@editorPrompt_loop_inv (fun buf => lit "Save as: " ++ buf)
                  ks [] E Hinv) as H.
    destruct (editorPrompt_loop _ [] E ks) as [[[res E1] ks1]| | |];
      cbn [safely fst snd] in *; try exact H.
    destruct H as (H & _ & Hw & Hr). destruct res; cbn [safely fst].
    + destruct (@editorSave_write_inv io (set_filename (Some l) E1)) as (A & B & C);
        [exact H|].
      split; [exact A|].
      split; [eapply window_kept_trans; [exact Hw|exact B]|].
      rewrite C. exact Hr.
    + split; [exact H|split; [exact Hw|exact Hr]].
Qed.

Lemma home_end_inv (E : editorConfig) :
  editor_inv E ->
  editor_inv (set_cx 0 E) /\
  exists E', (if cy E <? numrows E
              then r <- row_at E (cy E) ;; Some (set_cx (size r) E)
              else Some E) = Some E' /\ editor_inv E' /\ dirty E' = dirty E /\
             window_kept E E' /\ row E' = row E.
Proof.
  intro Hinv. pose proof Hinv as (Hcur & Hren & Hro & Hsr).
  destruct (cursor_cases Hcur) as [[Hend Hx0]|(l1 & x & l2 & Hrow & Hcy & Hcx)].
  - split.
    + split; [|split; [exact Hren|split; assumption]].
      apply cursor_past_end; [exact Hend|reflexivity].
    + destruct (Z.ltb_spec (cy E) (numrows E)); [lia|].
      exists E. split; [reflexivity|]. split; [exact Hinv|].
      split; [reflexivity|split; [window_same|reflexivity]].
  - split.
    + split; [|split; [exact Hren|split; assumption]].
      eapply cursor_on_line; cfg; [exact Hrow|exact Hcy|]. unfold size. lia.
    + unfold row_at, numrows. rewrite Hrow, Hcy, length_mid_Z, nth_Z_length_app.
      destruct (Z.ltb_spec (Z.of_nat (length l1))
                  (Z.of_nat (length l1) + 1 + Z.of_nat (length l2))); [|lia].
      eexists. split; [reflexivity|].
      split; [|split; [reflexivity|split; [window_same|cfg; exact Hrow]]].
      split; [|split; [exact Hren|split; assumption]].
      eapply cursor_on_line; cfg; [exact Hrow|exact Hcy|]. unfold size. lia.
Qed.

Lemma moved_rows (E E' : editorConfig) : moved E E' -> row E' = row E.
Proof. unfold moved. intro Hm. rewrite Hm. reflexivity. Qed.

Lemma same_rows_chars (E E' : editorConfig) :
  row E' = row E -> doc_chars E' <= doc_chars E + 1.
Proof. unfold doc_chars. intros ->. lia. Qed.

Lemma leave_safely (F : Prop) (P : world -> Prop) (o : option editorConfig)
  (ks : list Z) :
  (exists E', o = Some E' /\ P (mk_world E' JATE_QUIT_TIMES ks)) ->
  safely_unless F P match o with
                    | Some E' => Ret (mk_world E' JATE_QUIT_TIMES ks)
                    | None => Fault
                    end.
Proof. intros (E' & -> & H). exact H. Qed.

Lemma leave_safely_unless (F : Prop) (P : world -> Prop)
  (o : option editorConfig) (ks : list Z) :
  match o with
  | Some E' => P (mk_world E' JATE_QUIT_TIMES ks)
  | None => F
  end ->
  safely_unless F P match o with
                    | Some E' => Ret (mk_world E' JATE_QUIT_TIMES ks)
                    | None => Fault
                    end.
Proof. destruct o; auto. Qed.

(** One keypress from a state of the editor that is scrolled to its
    cursor: what it returns is such a state again, with at most one
    character more, and it faults only on a [tabs] that is not [tabs_ok]
    for the size of the document and one character more. *)
Lemma editorProcessKeypress_inv (io : save_io) (t1 t2 : Z) (E : editorConfig)
  (q c : Z) (ks : list Z) :
  editor_inv E -> rowoff E <= cy E ->
  safely_unless
    (~ (tabs_ok t1 (doc_chars E + 1) /\ tabs_ok t2 (doc_chars E + 1)))
    (fun w' => editor_inv (ed w') /\
               (c <> CTRL_KEY key_s -> dirty E <= dirty (ed w')) /\
               window_kept E (ed w') /\
               doc_chars (ed w') <= doc_chars E + 1)
    (editorProcessKeypress io t1 t2 (mk_world E q (c :: ks))).
Proof.
  intros Hinv Hoff. pose proof Hinv as (Hcur & Hren & Hro & Hsr).
  unfold editorProcessKeypress. cfg. cbv zeta.
  destruct (c =? key_CR).
  { apply leave_safely_unless.
    pose proof (@editorInsertNewline_inv t1 t2 E Hinv) as H.
    destruct (editorInsertNewline t1 t2 E) as [E'|]; [|exact H].
    cfg. destruct H as (H1 & H2 & H3 & H4). auto. }
  destruct (c =? CTRL_KEY key_q).
  { destruct (negb (dirty E =? 0) && (q >? 0)); cbn [safely_unless]; [|exact I].
    cfg. split; [exact Hinv|]. split; [intros _; simpl; lia|].
    split; [window_same|apply same_rows_chars; reflexivity]. }
  destruct (Z.eqb_spec c (CTRL_KEY key_s)) as [Hs|Hs].
  { pose proof (editorSave_inv io ks Hinv) as H.
    destruct (editorSave io E ks) as [[E' ks']| | |];
      cbn [safely safely_unless fst] in *; try exact H; try contradiction.
    cfg. destruct H as (H & Hw & Hr). split; [exact H|].
    split; [intro Hne; contradiction|].
    split; [exact Hw|apply same_rows_chars; exact Hr]. }
  destruct (c =? HOME_KEY).
  { cbn [safely_unless]. cfg. split; [apply home_end_inv; exact Hinv|].
    split; [intros _; simpl; lia|].
    split; [window_same|apply same_rows_chars; reflexivity]. }
  destruct (c =? END_KEY).
  { apply leave_safely.
    destruct (home_end_inv Hinv) as (_ & E' & H1 & H2 & H3 & H4 & H5).
    exists E'. split; [exact H1|]. cfg. split; [exact H2|].
    split; [intros _; lia|].
    split; [exact H4|apply same_rows_chars; exact H5]. }
  destruct ((c =? BACKSPACE) || (c =? CTRL_KEY key_h) || (c =? DEL_KEY)).
  { assert (Hm : exists E1, (if c =? DEL_KEY then editorMoveCursor ARROW_RIGHT E
                             else Some E) = Some E1 /\
                            editor_inv E1 /\ dirty E1 = dirty E /\
                            window_kept E E1 /\ row E1 = row E).
    { destruct (c =? DEL_KEY).
      - destruct (editorMoveCursor_moves ARROW_RIGHT Hcur) as (E1 & H1 & Hm & Hc).
        exists E1. split; [exact H1|].
        destruct (moved_inv Hm Hc Hinv) as [A B].
        split; [exact A|]. split; [exact B|].
        split; [apply moved_window; exact Hm|apply moved_rows; exact Hm].
      - exists E. split; [reflexivity|]. split; [exact Hinv|].
        split; [reflexivity|split; [window_same|reflexivity]]. }
    destruct Hm as (E1 & -> & Hinv1 & Hd1 & Hw1 & Hr1).
    apply leave_safely_unless.
    pose proof (@editorDelChar_inv t1 E1 Hinv1) as H.
    assert (Hdoc : doc_chars E1 = doc_chars E)
      by (unfold doc_chars; rewrite Hr1; reflexivity).
    rewrite Hdoc in H.
    destruct (editorDelChar t1 E1) as [E'|].
    - cfg. destruct H as (H2 & H3 & H4 & H5). split; [exact H2|].
      split; [intros _; lia|].
      split; [eapply window_kept_trans; [exact Hw1|exact H4]|lia].
    - intros [Hbad _]. exact (H Hbad). }
  destruct ((c =? PAGE_UP) || (c =? PAGE_DOWN)) eqn:Hpage.
  { apply leave_safely.
    destruct (@page_key_moves c E) as (E' & H1 & Hm & Hc); try assumption.
    - apply orb_prop in Hpage. destruct Hpage as [H|H]; apply Z.eqb_eq in H; auto.
    - destruct Hcur as [(Hcy & _) _]. lia.
    - exists E'. split; [exact H1|]. cfg.
      destruct (moved_inv Hm Hc Hinv) as [Hi Hd]. split; [exact Hi|].
      split; [intros _; lia|].
      split; [apply moved_window; exact Hm|].
      apply same_rows_chars, moved_rows. exact Hm. }
  destruct ((c =? ARROW_UP) || (c =? ARROW_DOWN) || (c =? ARROW_LEFT)
            || (c =? ARROW_RIGHT)).
  { apply leave_safely.
    destruct (editorMoveCursor_moves c Hcur) as (E' & H1 & Hm & Hc).
    exists E'. split; [exact H1|]. cfg.
    destruct (moved_inv Hm Hc Hinv) as [Hi Hd]. split; [exact Hi|].
    split; [intros _; lia|].
    split; [apply moved_window; exact Hm|].
    apply same_rows_chars, moved_rows. exact Hm. }
  destruct ((c =? CTRL_KEY key_l) || (c =? key_ESC)).
  { cbn [safely_unless]. cfg. split; [exact Hinv|].
    split; [intros _; lia|].
    split; [window_same|apply same_rows_chars; reflexivity]. }
  apply leave_safely_unless.
  pose proof (@editorInsertChar_inv t1 t2 c E Hinv) as H.
  destruct (editorInsertChar t1 t2 c E) as [E'|]; [|exact H].
  cfg. destruct H as (H1 & H2 & H3 & H4). split; [exact H1|].
  split; [intros _; lia|]. split; [exact H3|exact H4].
Qed.

(** [n] rounds of the loop from a state of the editor: what they return
    is such a state, with at most [n] characters more, and they fault
    only when some [tabs] on the way is not [tabs_ok] for the size of
    the document and [n] characters more. *)
Lemma editor_loop_inv (n : nat) (io : save_io) (g : nat -> Z) (w : world) :
  editor_inv (ed w) ->
  safely_unless
    (~ forall k, tabs_ok (g k) (doc_chars (ed w) + Z.of_nat n))
    (fun w' => editor_inv (ed w') /\ window_kept (ed w) (ed w') /\
               doc_chars (ed w') <= doc_chars (ed w) + Z.of_nat n)
    (editor_loop n io g w).
Proof.
  revert g w. induction n as [|n IH]; intros g w Hinv.
  { split; [exact Hinv|split; [window_same|cbn; lia]]. }
  cbn [editor_loop]. unfold editorRefreshScreen.
  destruct (editorScroll_inv Hinv) as (E1 & -> & Hinv1 & Hoff & _ & Hw1 & Hr1).
  assert (Hdoc : doc_chars E1 = doc_chars (ed w))
    by (unfold doc_chars; rewrite Hr1; reflexivity).
  destruct (keys w) as [|c ks] eqn:Hk; [exact I|].
  pose proof (@editorProcessKeypress_inv io (g 0%nat) (g 1%nat) E1
                (quit_times w) c ks Hinv1 Hoff) as H.
  rewrite Hdoc in H.
  destruct (editorProcessKeypress io (g 0%nat) (g 1%nat)
              (mk_world E1 (quit_times w) (c :: ks)))
    as [w'| | |]; cbn [safely_unless] in *; try exact I.
  - destruct H as (Hi & _ & Hw2 & Hd2).
    specialize (IH (fun k => g (S (S k))) w' Hi).
    destruct (editor_loop n io (fun k => g (S (S k))) w') as [w''| | |];
      cbn [safely_unless] in *; try exact I.
    + destruct IH as (Hi' & Hw3 & Hd3). split; [exact Hi'|].
      split; [|lia].
      eapply window_kept_trans; [exact Hw1|].
      eapply window_kept_trans; [exact Hw2|exact Hw3].
    + intro Hall. apply IH. intro k.
      apply (@tabs_ok_le _ _ _ (Hall (S (S k)))). lia.
  - intro Hall. apply H.
    split; apply (@tabs_ok_le _ _ _ (Hall _)); lia.
Qed.

Lemma three_line_editor_inv : editor_inv three_line_editor.
Proof.
  split; [|split; [|split]].
  - apply cursor_on_line
      with (l1 := [mk_erow (lit "abc") (lit "abc"); mk_erow (lit "d") (lit "d")])
           (x := mk_erow (lit "efgh") (lit "efgh")) (l2 := []);
      [reflexivity|reflexivity|unfold size; simpl; lia].
  - repeat constructor.
  - simpl. lia.
  - simpl. lia.
Qed.

(** The characters of the lines read from a file are at most those of
    the file. *)
Lemma loaded_rows_chars (s cur : list ascii) :
  rows_chars (map loaded_row (file_lines_from cur s)) <=
  Z.of_nat (length cur) + Z.of_nat (length s).
Proof.
  revert cur. induction s as [|c s IH]; intro cur.
  - cbn [file_lines_from]. destruct cur as [|d cur'].
    + unfold rows_chars. simpl. lia.
    + cbn [map]. rewrite rows_chars_cons. unfold rows_chars at 1. cbn [map concat length].
      unfold size, loaded_row. cbn [chars updated_row].
      pose proof (strip_eol_length (d :: cur')) as Hl.
      cbn [length] in Hl. lia.
  - cbn [file_lines_from]. destruct (Ascii.eqb c ch_lf).
    + cbn [map]. rewrite rows_chars_cons.
      unfold size, loaded_row at 1. cbn [chars updated_row].
      pose proof (strip_eol_length (cur ++ [c])) as Hl.
      rewrite length_app in Hl. cbn [length] in *.
      specialize (IH []). cbn [length] in IH. lia.
    + specialize (IH (cur ++ [c])). rewrite length_app in IH.
      cbn [length] in *. lia.
Qed.

Lemma editorOpen_inv (g : nat -> Z) (fname content : list ascii)
  (E : editorConfig) :
  (forall k, (k < length (file_lines content))%nat ->
             tabs_ok (g k) (Z.of_nat (length content))) ->
  row E = [] -> cx E = 0 -> cy E = 0 -> 0 <= rowoff E -> 1 <= screenrows E ->
  exists E',
    editorOpen g fname (Some content) E = Ret E' /\ editor_inv E' /\
    contents E' = map strip_eol (file_lines content) /\ dirty E' = 0 /\
    window_kept E E' /\ doc_chars E' <= Z.of_nat (length content).
Proof.
  intros Hg Hrow Hcx Hcy Hro Hsr. unfold editorOpen.
  rewrite (@editorOpen_loop_rows g _ _ _ Hg (file_lines_length content)).
  eexists. split; [reflexivity|]. unfold doc_chars. cfg. rewrite Hrow. cbn [app].
  split; [|split; [|split; [reflexivity|split; [window_same|]]]].
  - split; [|split; [|split; assumption]].
    + destruct (file_lines content) as [|l lines] eqn:Hl.
      * apply cursor_past_end; cfg; assumption.
      * apply cursor_on_line
          with (l1 := []) (x := loaded_row l) (l2 := map loaded_row lines);
          cfg; [reflexivity|exact Hcy|]. rewrite Hcx. unfold size. lia.
    + unfold rows_rendered. cfg. apply Forall_forall.
      intros r Hr. apply in_map_iff in Hr. destruct Hr as (l & <- & _).
      reflexivity.
  - unfold contents. cfg. rewrite map_map. reflexivity.
  - pose proof (loaded_rows_chars content []) as H. cbn [length] in H.
    exact H.
Qed.
(** ** Keys that edit *)

(** X9.  In a well-formed editor scrolled to its cursor, no key other
    than the save combo lowers the dirty counter, whatever [tabs] holds
    on entry of [editorUpdateRow]. *)
Theorem keypress_never_lowers_dirty
  (io : save_io) (t1 t2 : Z) (E : editorConfig) (q c : Z) (ks : list Z)
  (w' : world)
  (Hinv : editor_inv E) (Hoff : rowoff E <= cy E)
  (Hkey : c <> CTRL_KEY key_s)
  (Hret : editorProcessKeypress io t1 t2 (mk_world E q (c :: ks)) = Ret w') :
  dirty E <= dirty (ed w').
Proof.
  pose proof (@editorProcessKeypress_inv io t1 t2 E q c ks Hinv Hoff) as H.
  rewrite Hret in H. cbn [safely_unless] in H. apply H. exact Hkey.
Qed.

Lemma keypress_never_lowers_dirty_witness :
  dirty three_line_editor <=
  dirty (set_cx 3
           (set_dirty 1
              (set_row [mk_erow (lit "abc") (lit "abc"); mk_erow (lit "d") (lit "d");
                        mk_erow (lit "efg") (lit "efg")] three_line_editor))).
Proof.
  apply (@keypress_never_lowers_dirty WriteOk 0 0 three_line_editor 3
           BACKSPACE [] (mk_world _ JATE_QUIT_TIMES [])).
  - exact three_line_editor_inv.
  - simpl. lia.
  - discriminate.
  - reflexivity.
Defined.

Lemma firstn_exact (A : Type) (a b : list A) (n : nat) :
  length a = n -> firstn n (a ++ b) = a.
Proof.
  revert n. induction a as [|x a IH]; intros n H; subst n; simpl.
  - reflexivity.
  - rewrite IH; reflexivity.
Qed.

Lemma skipn_S_exact (A : Type) (a b : list A) (c : A) (n : nat) :
  length a = n -> skipn (S n) (a ++ c :: b) = b.
Proof.
  revert n. induction a as [|x a IH]; intros n H; subst n; simpl.
  - reflexivity.
  - apply IH. reflexivity.
Qed.

(** X10.  With the cursor on a line of the document, and [tabs] on
    entry of the two calls of [editorUpdateRow] neither negative nor too
    large for the line with one character more, typing a character and
    deleting backwards at once gives back the characters of every line
    and the cursor; the line is rendered afresh and the dirty counter
    has grown by two. *)
Theorem insert_then_backspace_restores
  (t1 t2 t3 : Z) (c : Z) (E : editorConfig) (x : erow)
  (Hrow : row_at E (cy E) = Some x)
  (Hcx : 0 <= cx E <= size x)
  (Ht2 : tabs_ok t2 (size x + 1)) (Ht3 : tabs_ok t3 (size x + 1)) :
  exists E1 E2,
    editorInsertChar t1 t2 c E = Some E1 /\
    editorDelChar t3 E1 = Some E2 /\
    contents E2 = contents E /\
    row_at E2 (cy E) = Some (updated_row x) /\
    (cx E2, cy E2) = (cx E, cy E) /\
    dirty E2 = dirty E + 2.
Proof.
  destruct (@nth_Z_split _ _ _ _ Hrow) as (l1 & l2 & Hr & Hi).
  rewrite (@editorInsertChar_on_line t1 t2 E l1 l2 x c Ht2 Hr Hi Hcx).
  eexists. eexists. split; [reflexivity|].
  set (n := Z.to_nat (cx E)).
  assert (Hn : length (firstn n (chars x)) = n).
  { rewrite length_firstn. unfold size in Hcx. lia. }
  assert (Hsz : forall r,
             size (updated_row
                     (mk_erow (firstn n (chars x) ++ char_of_key c ::
                               skipn n (chars x)) r)) = size x + 1).
  { intro r. unfold size in *. cbn [chars updated_row].
    rewrite length_app. cbn [length]. rewrite length_firstn, length_skipn. lia. }
  erewrite (@editorDelChar_in_line t3 (size x + 1)); cfg;
    [|exact Ht3| |reflexivity|exact Hi|].
  2:{ fold n. rewrite Hsz. lia. }
  2:{ fold n. rewrite Hsz. lia. }
  split; [reflexivity|]. cfg. cbn [chars updated_row].
  replace (Z.to_nat (cx E + 1 - 1)) with n by lia.
  rewrite (firstn_exact _ _ Hn), (skipn_S_exact _ _ _ Hn), firstn_skipn.
  split. { unfold contents. cfg. rewrite Hr, !map_app. reflexivity. }
  split. { unfold row_at. cfg. rewrite Hi, nth_Z_length_app. reflexivity. }
  split; [f_equal; lia|lia].
Qed.

Lemma insert_then_backspace_restores_witness :
  exists E1 E2,
    editorInsertChar 0 0 120 three_line_editor = Some E1 /\
    editorDelChar 0 E1 = Some E2 /\
    contents E2 = contents three_line_editor /\
    row_at E2 (cy three_line_editor) =
      Some (updated_row (mk_erow (lit "efgh") (lit "efgh"))) /\
    (cx E2, cy E2) = (cx three_line_editor, cy three_line_editor) /\
    dirty E2 = dirty three_line_editor + 2.
Proof.
  apply (@insert_then_backspace_restores 0 0 0 120 three_line_editor
           (mk_erow (lit "efgh") (lit "efgh"))).
  - reflexivity.
  - unfold size. simpl. lia.
  - split; [lia|vm_compute; discriminate].
  - split; [lia|vm_compute; discriminate].
Defined.

(** The right arrow with the cursor on a line: one column right, or to
    the start of the next line from the end of the line. *)
Lemma arrow_right_on_line (E : editorConfig) (l1 l2 : list erow) (x : erow) :
  row E = l1 ++ x :: l2 -> cy E = Z.of_nat (length l1) ->
  0 <= cx E <= size x ->
  editorMoveCursor ARROW_RIGHT E =
  Some (if cx E <? size x then set_cx (cx E + 1) E
        else set_cx 0 (set_cy (cy E + 1) E)).
Proof.
  intros Hrow Hcy Hcx.
  assert (Hat : row_at E (cy E) = Some x)
    by (rewrite Hcy; exact (@row_at_mid E l1 l2 x Hrow)).
  assert (Hnum : (cy E >=? numrows E) = false).
  { unfold numrows. rewrite Hrow, Hcy, length_mid_Z.
    destruct (Z.geb_spec (Z.of_nat (length l1))
                (Z.of_nat (length l1) + 1 + Z.of_nat (length l2))); [lia|reflexivity]. }
  unfold editorMoveCursor, editorMoveCursor_switch.
  change (ARROW_RIGHT =? ARROW_LEFT) with false.
  change (ARROW_RIGHT =? ARROW_RIGHT) with true. cbv iota.
  rewrite Hnum, Hat.
  destruct (Z.ltb_spec (cx E) (size x)) as [Hlt|Hge].
  - rewrite (@cursor_rowlen_on_line (set_cx (cx E + 1) E) l1 l2 x Hrow Hcy).
    cfg. destruct (Z.gtb_spec (cx E + 1) (size x)); [lia|reflexivity].
  - destruct (Z.eqb_spec (cx E) (size x)); [|lia].
    destruct (@cursor_snap (set_cx 0 (set_cy (cy E + 1) E))) as (len & Hlen & _).
    + cfg. rewrite Hrow, length_mid_Z. lia.
    + cfg. lia.
    + rewrite Hlen. pose proof (cursor_rowlen_nonneg _ Hlen).
      cfg. destruct (Z.gtb_spec 0 len); [lia|reflexivity].
Qed.

(** X11.  The Delete key, with the cursor on a line of the document
    and [tabs] on entry of [editorUpdateRow] neither negative nor too
    large for the size of the document:
    inside the line it removes the character under the cursor and
    leaves the cursor where it is; at the end of a line that has a
    successor it joins the successor onto the line, the cursor staying;
    at the end of the last line it deletes nothing and moves the cursor
    to column 0 of the line after the last. *)
Theorem delete_key_deletes_forward
  (io : save_io) (t1 t2 : Z) (E : editorConfig) (q : Z) (ks : list Z)
  (l1 l2 : list erow) (x : erow)
  (Hrow : row E = l1 ++ x :: l2)
  (Hcy : cy E = Z.of_nat (length l1))
  (Hcx : 0 <= cx E <= size x)
  (Ht1 : tabs_ok t1 (doc_chars E)) :
  editorProcessKeypress io t1 t2 (mk_world E q (DEL_KEY :: ks)) =
  Ret (mk_world (after_delete_key E l1 x l2) JATE_QUIT_TIMES ks).
Proof.
  assert (Hkey : editorProcessKeypress io t1 t2 (mk_world E q (DEL_KEY :: ks)) =
                 match (E1 <- editorMoveCursor ARROW_RIGHT E ;; editorDelChar t1 E1) with
                 | Some E' => Ret (mk_world E' JATE_QUIT_TIMES ks)
                 | None => Fault
                 end) by reflexivity.
  rewrite Hkey. clear Hkey.
  rewrite (@arrow_right_on_line E l1 l2 x Hrow Hcy Hcx).
  unfold after_delete_key.
  destruct (Z.ltb_spec (cx E) (size x)) as [Hlt|Hge].
  - erewrite (@editorDelChar_in_line t1 (doc_chars E)); cfg;
      [|exact Ht1|exact (@row_fits E l1 l2 x Hrow)|exact Hrow|exact Hcy|lia].
    replace (cx E + 1 - 1) with (cx E) by lia.
    destruct E; reflexivity.
  - assert (Hend : cx E = size x) by lia.
    destruct l2 as [|y l2'].
    + rewrite editorDelChar_nothing; [reflexivity|].
      left. cfg. rewrite Hrow, length_snoc_Z. lia.
    + erewrite (@editorDelChar_join t1 (doc_chars E)); cfg;
        [|exact Ht1| |exact Hrow|lia|reflexivity].
      2:{ unfold doc_chars. rewrite Hrow, rows_chars_app, !rows_chars_cons.
          pose proof (rows_chars_nonneg l1).
          pose proof (rows_chars_nonneg l2'). lia. }
      destruct E as [cx0 cy0 rx0 ro co sr sc rows d fn sm].
      cbn [cx cy row] in *. subst cx0 cy0 rows. reflexivity.
Qed.

Lemma delete_key_deletes_forward_witness :
  editorProcessKeypress WriteOk 0 0
    (mk_world (set_cx 1 three_line_editor) 3 [DEL_KEY]) =
  Ret (mk_world
         (set_dirty 1
            (set_row [mk_erow (lit "abc") (lit "abc"); mk_erow (lit "d") (lit "d");
                      mk_erow (lit "egh") (lit "egh")]
               (set_cx 1 three_line_editor)))
         JATE_QUIT_TIMES []).
Proof.
  apply (@delete_key_deletes_forward WriteOk 0 0 (set_cx 1 three_line_editor)
           3 []
           [mk_erow (lit "abc") (lit "abc"); mk_erow (lit "d") (lit "d")] []
           (mk_erow (lit "efgh") (lit "efgh"))).
  - reflexivity.
  - reflexivity.
  - unfold size. simpl. lia.
  - split; [vm_compute; discriminate|vm_compute; discriminate].
Defined.

(** ** Rows and files *)

(** X12.  For a position the check accepts and [tabs] on entry of
    [editorUpdateRow] neither negative nor too large for the length of
    the new line, [editorInsertRow] puts the rendered new
    line at that position and shifts the lines after it by one;
    [editorDelRow] at the same position then gives back the lines as
    they were, and the two together have raised the dirty counter by
    two. *)
Theorem insert_row_then_delete_row_restores
  (tabs0 at_ : Z) (s : list ascii) (E : editorConfig)
  (Hat : 0 <= at_ <= numrows E)
  (Htabs : tabs_ok tabs0 (Z.of_nat (length s))) :
  exists E1,
    editorInsertRow tabs0 at_ s E = Some E1 /\
    numrows E1 = numrows E + 1 /\
    row_at E1 at_ = Some (updated_row (mk_erow s [])) /\
    (forall i, 0 <= i < at_ -> row_at E1 i = row_at E i) /\
    (forall i, at_ <= i -> row_at E1 (i + 1) = row_at E i) /\
    editorDelRow at_ E1 = Some (set_dirty (dirty E + 2) E).
Proof.
  set (n := Z.to_nat at_).
  assert (Hn : (n <= length (row E))%nat) by (unfold numrows in Hat; lia).
  set (l1 := firstn n (row E)). set (l2 := skipn n (row E)).
  assert (Hrow : row E = l1 ++ l2) by (symmetry; apply firstn_skipn).
  assert (Hlen : at_ = Z.of_nat (length l1)).
  { unfold l1. rewrite length_firstn. lia. }
  rewrite Hlen.
  rewrite (@editorInsertRow_at E l1 l2 tabs0 _ Htabs s (Z.le_refl _) Hrow).
  eexists. split; [reflexivity|].
  set (r := updated_row (mk_erow s [])).
  split. { cfg. rewrite Hrow, length_mid_Z, length_app. lia. }
  split. { unfold row_at. cfg. apply nth_Z_length_app. }
  split.
  { intros i Hi. unfold row_at, nth_Z. cfg. rewrite Hrow.
    destruct (Z.ltb_spec i 0); [reflexivity|].
    rewrite !nth_error_app1 by lia. reflexivity. }
  split.
  { intros i Hi. unfold row_at, nth_Z. cfg. rewrite Hrow.
    destruct (Z.ltb_spec (i + 1) 0); [lia|].
    destruct (Z.ltb_spec i 0); [lia|].
    rewrite !nth_error_app2 by lia.
    replace (Z.to_nat (i + 1) - length l1)%nat
      with (S (Z.to_nat i - length l1)) by lia.
    reflexivity. }
  erewrite editorDelRow_at by reflexivity.
  unfold set_dirty, set_row. cfg. rewrite <- Hrow.
  destruct E; cfg. do 2 f_equal. lia.
Qed.

Lemma insert_row_then_delete_row_restores_witness :
  exists E1,
    editorInsertRow 0 1 (lit "new") three_line_editor = Some E1 /\
    editorDelRow 1 E1 = Some (set_dirty 2 three_line_editor).
Proof.
  destruct (@insert_row_then_delete_row_restores 0 1 (lit "new")
              three_line_editor) as (E1 & H1 & _ & _ & _ & _ & H2).
  - unfold numrows. simpl. lia.
  - split; [lia|vm_compute; discriminate].
  - exists E1. split; [exact H1|exact H2].
Defined.

Lemma strip_eol_rev_spec (r : list ascii) :
  exists dropped,
    r = dropped ++ strip_eol_rev r /\
    forallb is_eol dropped = true /\
    match strip_eol_rev r with
    | [] => True
    | c :: _ => is_eol c = false
    end.
Proof.
  induction r as [|c r IH].
  - exists []. repeat split.
  - cbn [strip_eol_rev]. fold (is_eol c).
    destruct (is_eol c) eqn:Hc.
    + destruct IH as (dropped & H1 & H2 & H3).
      exists (c :: dropped). split; [cbn [app]; f_equal; exact H1|].
      split; [cbn [forallb]; rewrite Hc; exact H2|exact H3].
    + exists []. repeat split. exact Hc.
Qed.

Lemma last_ok_rev (l : list ascii) :
  match rev l with [] => True | c :: _ => is_eol c = false end ->
  last_ok l = true.
Proof.
  destruct l as [|d l'] using rev_ind; [reflexivity|].
  rewrite rev_app_distr. cbn [rev app]. intro H.
  rewrite last_ok_snoc, H. reflexivity.
Qed.

(** What [strip_eol] keeps is a prefix of the line that ends in neither
    a newline nor a carriage return. *)
Lemma strip_eol_spec (l : list ascii) :
  last_ok (strip_eol l) = true /\
  exists tail, l = strip_eol l ++ tail /\ forallb is_eol tail = true.
Proof.
  unfold strip_eol.
  destruct (strip_eol_rev_spec (rev l)) as (dropped & H1 & H2 & H3).
  split.
  - apply last_ok_rev. rewrite rev_involutive. exact H3.
  - exists (rev dropped). split.
    + rewrite <- rev_app_distr, <- H1, rev_involutive. reflexivity.
    + rewrite forallb_forall in *. intros c Hc. apply H2.
      apply in_rev. exact Hc.
Qed.

Lemma no_lf_app (a b : list ascii) :
  no_lf (a ++ b) = no_lf a && no_lf b.
Proof. unfold no_lf. apply forallb_app. Qed.

(** Every line [getline] yields is free of newlines up to its last
    character. *)
Lemma file_lines_from_shape (s cur : list ascii) :
  no_lf cur = true ->
  Forall (fun l => exists body, no_lf body = true /\
                                (l = body ++ [ch_lf] \/ l = body))
         (file_lines_from cur s).
Proof.
  revert cur. induction s as [|c s IH]; intros cur Hcur; cbn [file_lines_from].
  - destruct cur; constructor; [|constructor].
    eexists. split; [exact Hcur|right; reflexivity].
  - destruct (Ascii.eqb_spec c ch_lf) as [->|Hne].
    + constructor; [|apply IH; reflexivity].
      exists cur. split; [exact Hcur|left; reflexivity].
    + apply IH. rewrite no_lf_app, Hcur. cbn.
      apply Ascii.eqb_neq in Hne. rewrite Hne. reflexivity.
Qed.

(** X13.  Whatever the file holds, with [tabs] on entry of
    [editorUpdateRow] for each of its lines neither negative nor too
    large for the size of the file, no line of the document
    [editorOpen] builds contains a newline, and none ends in a carriage
    return; the document is clean and the cursor stays at the top. *)
Theorem editorOpen_lines_are_clean
  (g : nat -> Z) (fname content : list ascii) (rows cols : Z)
  (Hg : forall k, (k < length (file_lines content))%nat ->
                  tabs_ok (g k) (Z.of_nat (length content))) :
  exists E,
    editorOpen g fname (Some content) (initEditor rows cols) = Ret E /\
    Forall (fun l => no_lf l = true /\ last_ok l = true) (contents E) /\
    dirty E = 0 /\ (cx E, cy E) = (0, 0) /\ filename E = Some fname.
Proof.
  unfold editorOpen.
  rewrite (@editorOpen_loop_rows g _ _ _ Hg (file_lines_length content)).
  eexists. split; [reflexivity|].
  split; [|repeat split].
  unfold contents. cfg. cbn [row initEditor set_filename app].
  rewrite map_map. apply Forall_forall. intros l Hl.
  apply in_map_iff in Hl. destruct Hl as (line & <- & Hin).
  cbn [chars loaded_row updated_row].
  destruct (strip_eol_spec line) as (Hlast & tail & Htail & _).
  split; [|exact Hlast].
  pose proof (@file_lines_from_shape content [] eq_refl) as Hshape.
  rewrite Forall_forall in Hshape.
  destruct (Hshape line Hin) as (body & Hbody & [Hl|Hl]).
  - subst line. rewrite strip_eol_snoc_lf.
    destruct (strip_eol_spec body) as (_ & t & Ht & _).
    rewrite Ht, no_lf_app in Hbody. apply andb_prop in Hbody. apply Hbody.
  - subst line. rewrite Htail, no_lf_app in Hbody.
    apply andb_prop in Hbody. apply Hbody.
Qed.

Lemma editorOpen_lines_are_clean_witness :
  exists E,
    editorOpen (fun _ => 0) (lit "t")
      (Some ["a"%char; ch_cr; ch_lf; "b"%char]) (initEditor 24 80) = Ret E /\
    Forall (fun l => no_lf l = true /\ last_ok l = true) (contents E) /\
    dirty E = 0 /\ (cx E, cy E) = (0, 0) /\ filename E = Some (lit "t").
Proof.
  apply (@editorOpen_lines_are_clean (fun _ => 0) (lit "t")
           ["a"%char; ch_cr; ch_lf; "b"%char] 24 80).
  intros k _. split; [lia|vm_compute; discriminate].
Defined.

Lemma rows_to_string_flat (rows : list erow) :
  fst (rows_to_string rows) = flat_map (fun r => chars r ++ [ch_lf]) rows.
Proof.
  induction rows as [|r rows IH]; [reflexivity|].
  cbn [rows_to_string flat_map].
  destruct (rows_to_string rows) as [buf n].
  cbn [fst] in *. rewrite IH, <- app_assoc. reflexivity.
Qed.

Lemma file_lines_from_line (l cur rest : list ascii) :
  no_lf l = true ->
  file_lines_from cur (l ++ ch_lf :: rest) =
  (cur ++ l ++ [ch_lf]) :: file_lines_from [] rest.
Proof.
  revert cur. induction l as [|c l IH]; intros cur Hl.
  - cbn [app file_lines_from]. reflexivity.
  - cbn [no_lf forallb] in Hl. apply andb_prop in Hl. destruct Hl as [Hc Hl].
    cbn [app file_lines_from]. apply negb_true_iff in Hc. rewrite Hc.
    rewrite (IH (cur ++ [c]) Hl), <- app_assoc. reflexivity.
Qed.

Lemma file_lines_of_serialized (rows : list erow) :
  Forall (fun l => no_lf l = true /\ last_ok l = true) (map chars rows) ->
  map strip_eol (file_lines (flat_map (fun r => chars r ++ [ch_lf]) rows)) =
  map chars rows.
Proof.
  unfold file_lines. induction rows as [|r rows IH]; intro H; [reflexivity|].
  cbn [map] in H. inversion H as [|? ? [Hlf Hlast] Hrest]; subst.
  cbn [flat_map]. rewrite <- app_assoc. cbn [app].
  rewrite (@file_lines_from_line (chars r) [] _ Hlf).
  cbn [map app]. rewrite strip_eol_snoc_lf, (strip_eol_clean _ Hlast).
  f_equal. apply IH. exact Hrest.
Qed.

(** X14.  A document in which no line contains a newline and no line
    ends in a carriage return survives saving and loading, when [tabs]
    on entry of [editorUpdateRow] is, for each line loaded, neither
    negative nor too large for the size of what was saved:
    loading what [editorRowsToString] produces gives back the same
    lines, rendered, in a clean document. *)
Theorem serialize_then_load_round_trip
  (g : nat -> Z) (fname : list ascii) (rows cols : Z) (E : editorConfig)
  (Hclean : Forall (fun l => no_lf l = true /\ last_ok l = true) (contents E))
  (Hg : forall k,
          tabs_ok (g k) (Z.of_nat (length (fst (editorRowsToString E))))) :
  exists E',
    editorOpen g fname (Some (fst (editorRowsToString E)))
      (initEditor rows cols) = Ret E' /\
    contents E' = contents E /\
    rows_rendered E' /\
    dirty E' = 0.
Proof.
  unfold editorOpen.
  rewrite (@editorOpen_loop_rows g _ _ _ (fun k _ => Hg k)
             (file_lines_length (fst (editorRowsToString E)))).
  eexists. split; [reflexivity|].
  split; [|split; [|reflexivity]].
  - unfold contents in *. cfg. cbn [row initEditor set_filename app].
    rewrite map_map. unfold editorRowsToString. rewrite rows_to_string_flat.
    rewrite <- (file_lines_of_serialized _ Hclean).
    reflexivity.
  - unfold rows_rendered. cfg. cbn [row initEditor set_filename app].
    apply Forall_forall. intros r Hr. apply in_map_iff in Hr.
    destruct Hr as (l & <- & _). reflexivity.
Qed.

Lemma serialize_then_load_round_trip_witness :
  exists E',
    editorOpen (fun _ => 0) (lit "t")
      (Some (fst (editorRowsToString three_line_editor)))
      (initEditor 24 80) = Ret E' /\
    contents E' = contents three_line_editor /\
    rows_rendered E' /\
    dirty E' = 0.
Proof.
  apply (@serialize_then_load_round_trip (fun _ => 0) (lit "t") 24 80
           three_line_editor).
  - repeat constructor.
  - intros k. split; [lia|vm_compute; discriminate].
Defined.

(** ** The status bar and rendered columns *)

Lemma status_fill_width (n : nat) (ab rstatus : list ascii) (len rlen cols : Z) :
  n = Z.to_nat (cols - len) -> rlen = Z.of_nat (length rstatus) -> 0 < rlen ->
  exists fill,
    status_fill n ab len rstatus rlen cols = ab ++ fill /\
    Z.of_nat (length fill) = Z.max 0 (cols - len).
Proof.
  revert ab len. induction n as [|n IH]; intros ab len Hn Hr Hpos.
  - exists []. split; [cbn; rewrite app_nil_r; reflexivity|]. simpl. lia.
  - cbn [status_fill]. destruct (Z.ltb_spec len cols); [|lia].
    destruct (Z.eqb_spec (cols - len) rlen) as [He|Hne].
    + exists rstatus. unfold abAppend. subst rlen.
      rewrite Nat2Z.id, firstn_all. split; [reflexivity|lia].
    + destruct (IH (abAppend ab [ch_space] 1) (len + 1)) as (fill & Hf & Hl);
        [lia|exact Hr|exact Hpos|].
      exists (ch_space :: fill). rewrite Hf. unfold abAppend.
      cbn [Z.to_nat Pos.to_nat Pos.iter_op Nat.add firstn].
      rewrite <- app_assoc. split; [reflexivity|]. cbn [length]. lia.
Qed.

(** X15.  Whatever the name, the line count and the position are, the
    status bar fills exactly the width of the window: between the
    switch to inverse video and the switch back, [editorDrawStatusBar]
    emits [screencols] characters. *)
Theorem status_bar_fills_window (E : editorConfig) (ab : list ascii)
  (Hcols : 0 <= screencols E) :
  exists visible,
    editorDrawStatusBar E ab =
      ab ++ (ch_esc :: lit "[7m") ++ visible ++ (ch_esc :: lit "[m") ++
      [ch_cr; ch_lf] /\
    Z.of_nat (length visible) = screencols E.
Proof.
  unfold editorDrawStatusBar.
  set (len0 := Z.of_nat (length (status_text E))).
  set (len := if len0 >? screencols E then screencols E else len0).
  assert (Hlen : 0 <= len <= len0 /\ len <= screencols E).
  { unfold len. destruct (Z.gtb_spec len0 (screencols E)); unfold len0; lia. }
  assert (Hr : 0 < Z.of_nat (length (rstatus_text E))).
  { unfold rstatus_text. rewrite !length_app. cbn [lit list_ascii_of_string length]. lia. }
  destruct (@status_fill_width (Z.to_nat (screencols E - len))
              (abAppend (abAppend ab (ch_esc :: lit "[7m") 4) (status_text E) len)
              (rstatus_text E) len (Z.of_nat (length (rstatus_text E)))
              (screencols E) eq_refl eq_refl Hr) as (fill & -> & Hfill).
  exists (firstn (Z.to_nat len) (status_text E) ++ fill).
  unfold abAppend.
  change (firstn (Z.to_nat 4) (ch_esc :: lit "[7m")) with (ch_esc :: lit "[7m").
  change (firstn (Z.to_nat 3) (ch_esc :: lit "[m")) with (ch_esc :: lit "[m").
  change (firstn (Z.to_nat 2) [ch_cr; ch_lf]) with [ch_cr; ch_lf].
  split; [rewrite <- !app_assoc; reflexivity|].
  rewrite length_app, length_firstn. unfold len0 in Hlen. lia.
Qed.

Lemma status_bar_fills_window_witness :
  exists visible,
    editorDrawStatusBar unsaved_editor [] =
      [] ++ (ch_esc :: lit "[7m") ++ visible ++ (ch_esc :: lit "[m") ++
      [ch_cr; ch_lf] /\
    Z.of_nat (length visible) = 40.
Proof.
  apply (@status_bar_fills_window unsaved_editor []). simpl. lia.
Defined.

Lemma render_of_length_bounds (cs : list ascii) :
  Z.of_nat (length cs) <= Z.of_nat (length (render_of cs)) <=
  8 * Z.of_nat (length cs).
Proof.
  induction cs as [|c cs IH] using rev_ind; [simpl; lia|].
  rewrite render_of_snoc, !length_app, !Nat2Z.inj_add, render_char_length.
  cbn [length].
  pose proof (tab_width_bounds (Z.of_nat (length (render_of cs)))).
  destruct (Ascii.eqb c ch_tab); lia.
Qed.

Lemma render_of_no_tab (cs : list ascii) :
  no_tab cs = true -> render_of cs = cs.
Proof.
  induction cs as [|c cs IH] using rev_ind; [reflexivity|].
  unfold no_tab. rewrite forallb_app. intro H. apply andb_prop in H.
  destruct H as [Hcs Hc]. cbn [forallb] in Hc. rewrite andb_true_r in Hc.
  apply negb_true_iff in Hc.
  rewrite render_of_snoc, (IH Hcs). unfold render_char. rewrite Hc. reflexivity.
Qed.

Lemma editorRowCxToRx_length (r : erow) (c : Z) :
  0 <= c <= size r ->
  editorRowCxToRx r c =
  Some (Z.of_nat (length (render_of (firstn (Z.to_nat c) (chars r))))).
Proof.
  intro H. unfold editorRowCxToRx, size in *.
  pose proof (@editorRowCxToRx_loop_spec r (Z.to_nat c) 0) as Hs.
  simpl in Hs. apply Hs. lia.
Qed.

(** X16.  For column indexes [c1 <= c2] inside a line, [editorRowCxToRx]
    gives rendered columns [rx1 <= rx2] with [c <= rx <= 8 * c] for
    each; when no tab stands before the index, the rendered column is
    the index itself. *)
Theorem editorRowCxToRx_bounds (r : erow) (c1 c2 : Z)
  (Hc : 0 <= c1 <= c2) (Hsize : c2 <= size r) :
  exists rx1 rx2,
    editorRowCxToRx r c1 = Some rx1 /\ editorRowCxToRx r c2 = Some rx2 /\
    rx1 <= rx2 /\ c1 <= rx1 <= 8 * c1 /\ c2 <= rx2 <= 8 * c2 /\
    (no_tab (firstn (Z.to_nat c2) (chars r)) = true -> rx2 = c2).
Proof.
  rewrite !editorRowCxToRx_length by lia.
  eexists. eexists. split; [reflexivity|]. split; [reflexivity|].
  assert (Hl : forall c, 0 <= c <= size r ->
             Z.of_nat (length (firstn (Z.to_nat c) (chars r))) = c).
  { intros c H. rewrite length_firstn. unfold size in H. lia. }
  pose proof (render_of_length_bounds (firstn (Z.to_nat c1) (chars r))) as B1.
  pose proof (render_of_length_bounds (firstn (Z.to_nat c2) (chars r))) as B2.
  rewrite Hl in B1, B2 by lia.
  split.
  { assert (H12 : firstn (Z.to_nat c1) (chars r) =
                  firstn (Z.to_nat c1) (firstn (Z.to_nat c2) (chars r))).
    { rewrite firstn_firstn. f_equal. lia. }
    rewrite H12.
    rewrite <- (firstn_skipn (Z.to_nat c1) (firstn (Z.to_nat c2) (chars r))) at 2.
    destruct (render_of_app
                (firstn (Z.to_nat c1) (firstn (Z.to_nat c2) (chars r)))
                (skipn (Z.to_nat c1) (firstn (Z.to_nat c2) (chars r))))
      as [rest ->].
    rewrite length_app. lia. }
  split; [exact B1|]. split; [exact B2|].
  intro Hnt. rewrite (render_of_no_tab _ Hnt). apply Hl. lia.
Qed.

Lemma editorRowCxToRx_bounds_witness :
  exists rx1 rx2,
    editorRowCxToRx (mk_erow ["a"; ch_tab; "b"]%char []) 1 = Some rx1 /\
    editorRowCxToRx (mk_erow ["a"; ch_tab; "b"]%char []) 2 = Some rx2 /\
    rx1 <= rx2 /\ 1 <= rx1 <= 8 * 1 /\ 2 <= rx2 <= 8 * 2 /\
    (no_tab (firstn (Z.to_nat 2) (chars (mk_erow ["a"; ch_tab; "b"]%char [])))
     = true -> rx2 = 2).
Proof.
  apply (@editorRowCxToRx_bounds (mk_erow ["a"; ch_tab; "b"]%char []) 1 2).
  - lia.
  - unfold size. simpl. lia.
Defined.

(** ** Drawing the rows *)

Lemma pad_loop_spec (n : nat) (ab : list ascii) :
  pad_loop n ab = ab ++ repeat ch_space n.
Proof.
  revert ab. induction n as [|n IH]; intro ab.
  - cbn. rewrite app_nil_r. reflexivity.
  - cbn [pad_loop repeat]. rewrite IH. unfold abAppend.
    cbn [Z.to_nat Pos.to_nat Pos.iter_op Nat.add firstn].
    rewrite <- app_assoc. reflexivity.
Qed.

Lemma editorDrawRows_row_shown (E : editorConfig) (y : Z) (ab : list ascii) :
  0 <= y + rowoff E -> 0 <= coloff E -> 1 <= screencols E ->
  exists t,
    editorDrawRows_row E y ab = Some (ab ++ t ++ erase_to_eol ++ crlf) /\
    shown E y t.
Proof.
  intros Hy Hco Hsc. unfold editorDrawRows_row. cbv zeta.
  assert (Hend : forall ab1 t, ab1 = ab ++ t ->
            Some (abAppend (abAppend ab1 erase_to_eol 3) crlf 2) =
            Some (ab ++ t ++ erase_to_eol ++ crlf)).
  { intros ab1 t ->. unfold abAppend.
    change (firstn (Z.to_nat 3) erase_to_eol) with erase_to_eol.
    change (firstn (Z.to_nat 2) crlf) with crlf.
    rewrite <- !app_assoc. reflexivity. }
  destruct (Z.geb_spec (y + rowoff E) (numrows E)) as [Hge|Hlt].
  - assert (Hnone : forall r, row_at E (y + rowoff E) = Some r -> False).
    { intros r Hr. unfold row_at in Hr.
      rewrite nth_Z_out_of_range in Hr by (unfold numrows in Hge; lia).
      discriminate. }
    destruct ((numrows E =? 0) && (y =? Z.quot (screenrows E) 3)) eqn:Hw.
    + apply andb_prop in Hw. destruct Hw as [Hz _]. apply Z.eqb_eq in Hz.
      change (Z.of_nat (length welcome_message)) with 28.
      set (wl := if 28 >? screencols E then screencols E else 28).
      assert (Hwl : 1 <= wl <= 28 /\ wl <= screencols E).
      { unfold wl. destruct (Z.gtb_spec 28 (screencols E)); lia. }
      assert (Hq : Z.quot (screencols E - wl) 2 = (screencols E - wl) / 2)
        by (apply Z.quot_div_nonneg; lia).
      rewrite Hq.
      assert (Hp : 0 <= (screencols E - wl) / 2 <= screencols E - wl).
      { split; [apply Z.div_pos; lia|].
        apply Z.div_le_upper_bound; lia. }
      destruct (Z.ltb_spec ((screencols E - wl) / 2) 0); [lia|].
      set (p := (screencols E - wl) / 2) in *.
      destruct (Z.eqb_spec p 0) as [Hp0|Hp0].
      * exists (firstn (Z.to_nat wl) welcome_message). split.
        -- cbv iota beta. rewrite Hp0. cbn [Z.to_nat pad_loop].
           apply Hend. reflexivity.
        -- split; [rewrite length_firstn; lia|].
           split; [intros r Hr; destruct (Hnone r Hr)|intros _ Hn; contradiction].
      * exists (lit "~" ++ repeat ch_space (Z.to_nat (p - 1)) ++
                firstn (Z.to_nat wl) welcome_message). split.
        -- cbv iota beta. rewrite pad_loop_spec. apply Hend.
           unfold abAppend. change (firstn (Z.to_nat 1) (lit "~")) with (lit "~").
           rewrite <- !app_assoc. reflexivity.
        -- split.
           { rewrite !length_app, repeat_length, length_firstn.
             change (length (lit "~")) with 1%nat. lia. }
           split; [intros r Hr; destruct (Hnone r Hr)|intros _ Hn; contradiction].
    + exists (lit "~"). split; [apply Hend; reflexivity|].
      split; [simpl; lia|].
      split; [intros r Hr; destruct (Hnone r Hr)|reflexivity].
  - destruct (@nth_Z_in_range _ (row E) (y + rowoff E)) as [r Hr];
      [unfold numrows in Hlt; lia|].
    unfold row_at. rewrite Hr.
    destruct (Z.ltb_spec (coloff E) 0); [lia|].
    set (len1 := if rsize r - coloff E <? 0 then 0 else rsize r - coloff E).
    set (len := if len1 >? screencols E then screencols E else len1).
    exists (firstn (Z.to_nat len) (skipn (Z.to_nat (coloff E)) (render r))).
    split; [apply Hend; reflexivity|].
    assert (Hlen : 0 <= len <= screencols E /\
                   (len = screencols E \/
                    Z.of_nat (length (skipn (Z.to_nat (coloff E)) (render r))) <= len)).
    { unfold len, len1, rsize. rewrite length_skipn.
      destruct (Z.ltb_spec (Z.of_nat (length (render r)) - coloff E) 0);
        match goal with |- context [?a >? ?b] => destruct (Z.gtb_spec a b) end;
        lia. }
    split; [rewrite length_firstn; lia|].
    split.
    + intros r' Hr'. unfold row_at in Hr'. rewrite Hr in Hr'. inversion Hr'; subst r'.
      destruct Hlen as [Hb [-> | Hshort]]; [reflexivity|].
      rewrite !firstn_all2 by lia. reflexivity.
    + intros Hge. unfold numrows in *. lia.
Qed.

Lemma editorDrawRows_loop_shown (E : editorConfig) (n : nat) (y : Z)
  (ab : list ascii) :
  0 <= y + rowoff E -> 0 <= coloff E -> 1 <= screencols E ->
  exists texts,
    editorDrawRows_loop n y E ab =
      Some (ab ++ flat_map (fun t => t ++ erase_to_eol ++ crlf) texts) /\
    length texts = n /\
    forall k t, nth_error texts k = Some t -> shown E (y + Z.of_nat k) t.
Proof.
  intros Hy Hco Hsc. revert y ab Hy. induction n as [|n IH]; intros y ab Hy.
  - exists []. split; [cbn; rewrite app_nil_r; reflexivity|].
    split; [reflexivity|]. intros [|k] t H; discriminate.
  - cbn [editorDrawRows_loop].
    destruct (@editorDrawRows_row_shown E y ab Hy Hco Hsc) as (t0 & -> & Ht0).
    destruct (IH (y + 1) (ab ++ t0 ++ erase_to_eol ++ crlf)) as (texts & -> & Hl & Hs);
      [lia|].
    exists (t0 :: texts). split.
    + cbn [flat_map]. rewrite <- !app_assoc. reflexivity.
    + split; [cbn [length]; lia|].
      intros [|k] t H; cbn [nth_error] in H.
      * inversion H; subst. rewrite Z.add_0_r. exact Ht0.
      * replace (y + Z.of_nat (S k)) with (y + 1 + Z.of_nat k) by lia.
        apply Hs. exact H.
Qed.

(** X17.  With offsets that are not negative and a window at least one
    column wide, [editorDrawRows] reads no row outside the document and
    draws exactly [screenrows] rows, each ended by erase-to-end-of-line
    and CR LF.  No row is wider than the window; a row that falls on a
    line of the document shows the rendering of that line from column
    [coloff] on, cut to the width of the window; a row below a
    non-empty document shows a tilde. *)
Theorem editorDrawRows_fits_window (E : editorConfig) (ab : list ascii)
  (Hro : 0 <= rowoff E) (Hco : 0 <= coloff E) (Hsc : 1 <= screencols E) :
  exists texts,
    editorDrawRows E ab =
      Some (ab ++ flat_map (fun t => t ++ erase_to_eol ++ crlf) texts) /\
    Z.of_nat (length texts) = Z.max 0 (screenrows E) /\
    forall k t, nth_error texts k = Some t -> shown E (Z.of_nat k) t.
Proof.
  unfold editorDrawRows.
  destruct (@editorDrawRows_loop_shown E (Z.to_nat (screenrows E)) 0 ab)
    as (texts & H1 & H2 & H3); try assumption; try lia.
  exists texts. split; [exact H1|]. split; [lia|].
  intros k t Hk. apply (H3 k t Hk).
Qed.

Lemma editorDrawRows_fits_window_witness :
  exists texts,
    editorDrawRows three_line_editor [] =
      Some ([] ++ flat_map (fun t => t ++ erase_to_eol ++ crlf) texts) /\
    Z.of_nat (length texts) = Z.max 0 (screenrows three_line_editor) /\
    forall k t, nth_error texts k = Some t ->
                shown three_line_editor (Z.of_nat k) t.
Proof.
  apply (@editorDrawRows_fits_window three_line_editor []); simpl; lia.
Defined.

(** ** Saving, then leaving *)

Lemma save_press_writes (t1 t2 : Z) (E : editorConfig) (f : list ascii)
  (n : Z) (ks : list Z) :
  filename E = Some f ->
  editorProcessKeypress WriteOk t1 t2 (mk_world E n (key_save :: ks)) =
  Ret (mk_world (editorSave_write WriteOk E) JATE_QUIT_TIMES ks).
Proof.
  intros Hf. unfold editorProcessKeypress. cfg.
  change key_save with 19. change (CTRL_KEY key_q) with 17.
  change (CTRL_KEY key_s) with 19.
  change (19 =? key_CR) with false. change (19 =? 17) with false.
  change (19 =? 19) with true. cbv iota.
  unfold editorSave. rewrite Hf. reflexivity.
Qed.

(** X18.  With a file name bound and a write that succeeds, whatever
    [tabs] holds on entry of [editorUpdateRow], Ctrl-S in the main loop
    keeps the lines, resets the count of unsaved changes
    to zero and reports the length of the serialized document as the
    number of bytes written; a Ctrl-Q that follows leaves the editor
    with status 0 at once, however many changes there were and whatever
    was left of the quit countdown. *)
Theorem save_then_quit_exits (g : nat -> Z) (E : editorConfig)
  (f : list ascii) (n : Z) (ks : list Z)
  (Hname : filename E = Some f) (Hcur : cursor_ok E) :
  (exists w,
     editor_loop 1 WriteOk g (mk_world E n (key_save :: ks)) = Ret w /\
     row (ed w) = row E /\ filename (ed w) = Some f /\
     cx (ed w) = cx E /\ cy (ed w) = cy E /\
     dirty (ed w) = 0 /\
     statusmsg (ed w) =
       firstn 79 (fmt_d (Z.of_nat (length (fst (editorRowsToString E))))
                  ++ lit " bytes written to disk") /\
     quit_times w = JATE_QUIT_TIMES /\ keys w = ks) /\
  editor_loop 2 WriteOk g (mk_world E n (key_save :: key_quit :: ks)) = Exit 0.
Proof.
  destruct (@editorScroll_total E Hcur) as [E1 HE1].
  pose proof (@editorScroll_document E E1 HE1) as (Hrow & Hd & Hfn & Hcx & Hcy).
  assert (Hf1 : filename E1 = Some f) by congruence.
  assert (Hw : editorSave_write WriteOk E1 =
               editorSetStatusMessage
                 (fmt_d (Z.of_nat (length (fst (editorRowsToString E))))
                  ++ lit " bytes written to disk") (set_dirty 0 E1)).
  { unfold editorSave_write, editorRowsToString. rewrite Hrow.
    pose proof (rows_to_string_length (row E)) as Hlen.
    destruct (rows_to_string (row E)) as [buf len]. cbn [fst snd] in Hlen.
    rewrite Hlen. reflexivity. }
  split.
  - exists (mk_world (editorSave_write WriteOk E1) JATE_QUIT_TIMES ks).
    split.
    + cbn [editor_loop]. unfold editorRefreshScreen. cfg. rewrite HE1.
      rewrite (@save_press_writes _ _ E1 f n ks Hf1). reflexivity.
    + rewrite Hw. unfold editorSetStatusMessage. cfg.
      repeat split; assumption.
  - cbn [editor_loop]. unfold editorRefreshScreen. cfg. rewrite HE1.
    rewrite (@save_press_writes _ _ E1 f n (key_quit :: ks) Hf1). cfg.
    rewrite Hw. unfold editorSetStatusMessage.
    rewrite editorScroll_statusmsg.
    assert (Hcur2 : cursor_ok (set_dirty 0 E1)).
    { unfold cursor_ok, row_at, numrows in *. cfg.
      rewrite Hrow, Hcx, Hcy. exact Hcur. }
    destruct (@editorScroll_total _ Hcur2) as [E2 HE2].
    rewrite HE2. cbn [option_map].
    pose proof (@editorScroll_document _ E2 HE2) as (_ & Hd2 & _).
    rewrite quit_press_exits; [reflexivity|].
    left. cfg. rewrite Hd2. reflexivity.
Qed.

Lemma save_then_quit_exits_witness :
  editor_loop 2 WriteOk (fun _ => 0)
    (mk_world (set_filename (Some (lit "notes.txt")) unsaved_editor) 0
       [key_save; key_quit]) = Exit 0.
Proof.
  apply (@save_then_quit_exits (fun _ => 0)
           (set_filename (Some (lit "notes.txt")) unsaved_editor)
           (lit "notes.txt") 0 []).
  - reflexivity.
  - unfold cursor_ok. cbn. repeat split; try lia.
    intros r H. inversion H. cbn. lia.
Defined.

(** ** The whole program *)

(** In a well-formed state with a window at least one column wide and
    offsets that are not negative, the frame is drawn without a read
    outside the rows. *)
Lemma editorRefreshScreen_frame_draws (fresh : bool) (E : editorConfig) :
  0 <= rowoff E -> window_ok E ->
  exists frame, editorRefreshScreen_frame fresh E = Some frame.
Proof.
  intros Hro [Hco Hsc]. unfold editorRefreshScreen_frame, editorDrawRows.
  cbv zeta.
  match goal with |- context [editorDrawRows_loop ?n 0 E ?ab] =>
    destruct (@editorDrawRows_loop_shown E n 0 ab) as (texts & -> & _);
      try assumption; try lia end.
  eexists. reflexivity.
Qed.

Lemma editor_inv_draws (msgs : list (list ascii)) (E : editorConfig) :
  editor_inv E -> window_ok E -> refresh_draws msgs E.
Proof.
  revert E. induction msgs as [|m ms IH]; intros E Hinv Hwin fresh;
    unfold editorRefreshScreen;
    destruct (editorScroll_inv Hinv)
      as (E1 & HE1 & Hinv1 & _ & _ & Hw & _);
    pose proof (window_kept_ok Hw Hwin) as Hwin1;
    destruct (@editorRefreshScreen_frame_draws fresh E1) as [frame Hf];
    try (apply Hinv1 || exact Hwin1);
    exists E1, frame; (split; [exact HE1|split; [exact Hf|]]).
  - exact I.
  - apply IH; [apply editorSetStatusMessage_inv; exact Hinv1|exact Hwin1].
Qed.

(** A state the loop reaches from a state with a window is drawn. *)
Lemma reached_state_draws (E E' : editorConfig) :
  window_ok E -> editor_inv E' -> window_kept E E' ->
  editor_inv E' /\ window_ok E' /\ forall msgs, refresh_draws msgs E'.
Proof.
  intros Hwin Hi Hk.
  assert (Hwin' : window_ok E')
    by (eapply window_kept_ok; [exact Hk|exact Hwin]).
  split; [exact Hi|]. split; [exact Hwin'|].
  intro msgs. apply editor_inv_draws; assumption.
Qed.

(** X7.  The main loop keeps the editor well formed.  Started in a state
    where the cursor is in the document, every line carries its
    rendering, the offsets are not negative and the window has a text
    row and a column, and run for [n] rounds with [tabs] on entry of
    every [editorUpdateRow] neither negative nor too large for the
    document with [n] characters more, it never reads or writes a row
    outside the document and never stores outside a rendering, whatever
    keys arrive and however saving goes.  Every state it reaches on the
    way, after any number of its rounds, is again such a state, and in
    it [editorRefreshScreen] scrolls and draws its frame without a read
    outside the rows or outside a rendering, also when it is called
    again and again with new status messages, as a prompt does. *)
Theorem editor_loop_keeps_editor_inv
  (n : nat) (io : save_io) (g : nat -> Z) (w : world)
  (Hinv : editor_inv (ed w)) (Hwin : window_ok (ed w))
  (Hg : forall k, tabs_ok (g k) (doc_chars (ed w) + Z.of_nat n)) :
  editor_loop n io g w <> Fault /\
  forall k w', (k <= n)%nat -> editor_loop k io g w = Ret w' ->
    editor_inv (ed w') /\ window_ok (ed w') /\
    forall msgs, refresh_draws msgs (ed w').
Proof.
  assert (Hk : forall k, (k <= n)%nat ->
            safely (fun w' => editor_inv (ed w') /\ window_kept (ed w) (ed w'))
                   (editor_loop k io g w)).
  { intros k Hk. pose proof (@editor_loop_inv k io g w Hinv) as H.
    destruct (editor_loop k io g w) as [w1| | |];
      cbn [safely safely_unless] in *; try exact I.
    - split; apply H.
    - apply H. intro j. apply (@tabs_ok_le _ _ _ (Hg j)). lia. }
  split.
  - intro Hf. specialize (Hk n (le_n n)). rewrite Hf in Hk. exact Hk.
  - intros k w' Hle Hw. specialize (Hk k Hle). rewrite Hw in Hk.
    destruct Hk as [Hi Hkept].
    exact (@reached_state_draws (ed w) (ed w') Hwin Hi Hkept).
Qed.

Lemma editor_loop_keeps_editor_inv_witness :
  editor_loop 4 WriteOk (fun _ => 0)
    (mk_world three_line_editor JATE_QUIT_TIMES
              [BACKSPACE; PAGE_UP; key_CR; DEL_KEY]) <> Fault.
Proof.
  apply (@editor_loop_keeps_editor_inv 4 WriteOk (fun _ => 0)
           (mk_world three_line_editor JATE_QUIT_TIMES
                     [BACKSPACE; PAGE_UP; key_CR; DEL_KEY])).
  - exact three_line_editor_inv.
  - split; simpl; lia.
  - intro k. split; [lia|vm_compute; discriminate].
Defined.

(** X8.  In a terminal of at least three rows and one column, run for
    [n] rounds with [tabs] on entry of every [editorUpdateRow] neither
    negative nor too large for the file with [n] characters more,
    [main] with or without a file, whatever the file holds, whatever
    keys arrive and however saving goes, never reads or writes a row
    outside the document and never stores outside a rendering; every
    state its loop reaches on the way is well formed and is drawn by
    [editorRefreshScreen] without a read outside the rows or outside a
    rendering, also when a prompt refreshes the screen again and again;
    it exits with status 1 when the window size cannot be found or the
    file cannot be opened at start. *)
Theorem main_never_faults
  (rows cols : Z) (arg : option (list ascii * option (list ascii)))
  (n : nat) (io : save_io) (g_open g_loop : nat -> Z) (input : list Z)
  (Hrows : 3 <= rows) (Hcols : 1 <= cols)
  (Hopen : forall k, tabs_ok (g_open k) (file_chars arg))
  (Hloop : forall k, tabs_ok (g_loop k) (file_chars arg + Z.of_nat n)) :
  main (Some (rows, cols)) arg n io g_open g_loop input <> Fault /\
  (forall k w', (k <= n)%nat ->
     main (Some (rows, cols)) arg k io g_open g_loop input = Ret w' ->
     editor_inv (ed w') /\ window_ok (ed w') /\
     forall msgs, refresh_draws msgs (ed w')) /\
  (forall fname, arg = Some (fname, None) ->
                 main (Some (rows, cols)) arg n io g_open g_loop input = Exit 1) /\
  main None arg n io g_open g_loop input = Exit 1.
Proof.
  assert (Hinit : editor_inv (initEditor rows cols) /\
                  window_ok (initEditor rows cols)).
  { split; [split; [|split; [|split]]|split].
    - apply cursor_past_end; reflexivity.
    - constructor.
    - simpl. lia.
    - simpl. lia.
    - simpl. lia.
    - exact Hcols. }
  assert (Hrun : forall E1 msg k,
            editor_inv E1 -> window_ok E1 -> doc_chars E1 <= file_chars arg ->
            (k <= n)%nat ->
            let o := editor_loop k io g_loop
                       (mk_world (editorSetStatusMessage msg E1)
                                 JATE_QUIT_TIMES input) in
            o <> Fault /\
            forall w', o = Ret w' ->
              editor_inv (ed w') /\ window_ok (ed w') /\
              forall msgs, refresh_draws msgs (ed w')).
  { intros E1 msg k Hi1 Hw1 Hd1 Hk o. subst o.
    pose proof (@editor_loop_inv k io g_loop
                  (mk_world (editorSetStatusMessage msg E1) JATE_QUIT_TIMES input)
                  (editorSetStatusMessage_inv msg Hi1)) as H.
    destruct (editor_loop k io g_loop _) as [w1| | |]; cbn [safely_unless] in H.
    - split; [discriminate|]. intros w' Hw. inversion Hw; subst.
      destruct H as (Hi & Hkept & _).
      exact (@reached_state_draws _ (ed w') Hw1 Hi Hkept).
    - split; discriminate.
    - exfalso. apply H. intro j.
      apply (@tabs_ok_le _ _ _ (Hloop j)).
      change (doc_chars (ed (mk_world (editorSetStatusMessage msg E1)
                                      JATE_QUIT_TIMES input)))
        with (doc_chars E1). lia.
    - split; discriminate. }
  assert (Hmain : forall k, (k <= n)%nat ->
            main (Some (rows, cols)) arg k io g_open g_loop input <> Fault /\
            forall w',
              main (Some (rows, cols)) arg k io g_open g_loop input = Ret w' ->
              editor_inv (ed w') /\ window_ok (ed w') /\
              forall msgs, refresh_draws msgs (ed w')).
  { intros k Hk. unfold main. destruct arg as [[fname [content|]]|].
    - destruct (@editorOpen_inv g_open fname content (initEditor rows cols))
        as (E1 & -> & H1 & _ & _ & Hkept & Hd);
        try reflexivity; try (simpl; lia).
      { intros j _. apply Hopen. }
      apply Hrun; [exact H1| |exact Hd|exact Hk].
      eapply window_kept_ok; [exact Hkept|apply Hinit].
    - split; discriminate.
    - apply Hrun; [apply Hinit|apply Hinit| |exact Hk].
      unfold doc_chars, rows_chars. simpl. lia. }
  split; [apply (Hmain n (le_n n))|].
  split; [intros k w' Hk; apply (Hmain k Hk)|].
  split; [intros fname ->; reflexivity|reflexivity].
Qed.

Lemma main_never_faults_witness :
  main (Some (24, 80)) (Some (lit "t.txt", Some (lit "abc"))) 3 WriteOk
       (fun _ => 0) (fun _ => 0) [ARROW_DOWN; BACKSPACE; PAGE_DOWN] <> Fault.
Proof.
  apply (@main_never_faults 24 80 (Some (lit "t.txt", Some (lit "abc"))) 3
           WriteOk (fun _ => 0) (fun _ => 0) [ARROW_DOWN; BACKSPACE; PAGE_DOWN]).
  - lia.
  - lia.
  - intro k. split; [lia|vm_compute; discriminate].
  - intro k. split; [lia|vm_compute; discriminate].
Defined.
